(** * Doorstroom mbo -> ho: column mapper, categorical filter, join engine

    A shallow embedding of the helper functions of [MBO-HBO-stroom.py]
    ([suggest_default], [mapping_ui], [apply_filter],
    [combine_teller_noemer]), of the two file-loading blocks and of the
    computations of the tabs (filters, totals, summaries), together with
    the properties of the specification that concern them and further
    properties read off the code.

    Modelling conventions.
    - Python strings are [string]s; [str.lower] is modelled on ASCII letters
      (other characters are left as they are).
    - A pandas DataFrame is a list of column names and a list of rows (lists
      of cells).  A cell is missing, an integer, a fraction or a string.
      Numbers are exact: integers are unbounded and fractions are rationals,
      so float64 rounding is outside the model.  pandas adds int64 counts
      with wrap-around: a theorem that states an integer sum is stated for
      counts that fit ([counts_fit]), where the sums are 64-bit integers
      ([int64]) and nothing wraps.
    - Cells are compared constructor by constructor ([value_eqb]); pandas
      compares numbers by value ([same_value]).  The two agree on cells that
      are no fractions: a theorem that depends on which keys match is stated
      for key columns without fractions ([no_float_keys]).
    - An uploaded file is a handle with a read position, which the program
      never rewinds; [pd.read_csv] is a function of that position.
    - Python exceptions are explicit: a function that can raise returns a
      [result].
    - A label mapping (a Python dict of label -> column name or None) is a
      finite map over strings. *)

From stdpp Require Import gmap strings.
From Stdlib Require Import ZArith QArith String Ascii Bool Lia Permutation List.
Import ListNotations.
Close Scope Q_scope.
Open Scope string_scope.
Open Scope list_scope.

(* ===================================================================== *)
(** ** Python string primitives *)
(* ===================================================================== *)

Module PyStr.

(** [c.lower()] on one character: A..Z are shifted by 32. *)
Definition lower_ascii (c : ascii) : ascii :=
  let n := nat_of_ascii c in
  if (65 <=? n)%nat && (n <=? 90)%nat then ascii_of_nat (n + 32) else c.

(** [s.lower()] *)
Fixpoint lower (s : string) : string :=
  match s with
  | EmptyString => EmptyString
  | String c s' => String (lower_ascii c) (lower s')
  end.

(** [s.startswith(p)] *)
Definition startswith (s p : string) : bool := String.prefix p s.

(** [p in s]: [p] occurs as a contiguous substring of [s]. *)
Fixpoint contains (s p : string) : bool :=
  if String.prefix p s then true
  else match s with
       | EmptyString => false
       | String _ s' => contains s' p
       end.

(** [s.endswith(p)]: some tail of [s] is [p]. *)
Fixpoint endswith (s p : string) : bool :=
  if String.eqb s p then true
  else match s with
       | EmptyString => false
       | String _ s' => endswith s' p
       end.

(** Truthiness of an optional string: [None] and [""] are falsy. *)
Definition truthy (o : option string) : bool :=
  match o with
  | Some s => negb (String.eqb s "")
  | None => false
  end.

End PyStr.

(* ===================================================================== *)
(** ** Column mapper: [suggest_default] *)
(* ===================================================================== *)

(** The body of the [for c in cols] loop of [suggest_default]: [true] when
    one of the [return c] statements is reached for column [c]. *)
Definition suggest_hit (label c : string) : bool :=
  let label_lower := PyStr.lower label in
  let c_lower := PyStr.lower c in
  if PyStr.contains c_lower label_lower then true
  else if String.eqb label "jaar"
          && (PyStr.contains c_lower "jaar" || PyStr.contains c_lower "peil")
  then true
  else if PyStr.endswith label "_instelling" && PyStr.contains c_lower "brin"
  then true
  else if PyStr.endswith label "_sector"
          && (PyStr.contains c_lower "sector"
              || PyStr.contains c_lower "sectorkamer"
              || PyStr.contains c_lower "domein")
  then true
  else if PyStr.endswith label "_regio" && PyStr.contains c_lower "regio"
  then true
  else if PyStr.startswith label "aantal"
          && (PyStr.contains c_lower "aantal"
              || PyStr.contains c_lower "stud"
              || PyStr.contains c_lower "count")
  then true
  else false.

(** [suggest_default(label, cols)]: the first column for which the loop body
    returns, [None] when the loop runs to its end. *)
Fixpoint suggest_default (label : string) (cols : list string) : option string :=
  match cols with
  | [] => None
  | c :: cols' =>
      if suggest_hit label c then Some c else suggest_default label cols'
  end.

(** The rules as the specification words them, one disjunct per rule. *)
Definition rule_generic (label c : string) : bool :=
  PyStr.contains (PyStr.lower c) (PyStr.lower label).
Definition rule_jaar (label c : string) : bool :=
  String.eqb label "jaar"
  && (PyStr.contains (PyStr.lower c) "jaar" || PyStr.contains (PyStr.lower c) "peil").
Definition rule_instelling (label c : string) : bool :=
  PyStr.endswith label "_instelling" && PyStr.contains (PyStr.lower c) "brin".
Definition rule_sector (label c : string) : bool :=
  PyStr.endswith label "_sector"
  && (PyStr.contains (PyStr.lower c) "sector"
      || PyStr.contains (PyStr.lower c) "sectorkamer"
      || PyStr.contains (PyStr.lower c) "domein").
Definition rule_regio (label c : string) : bool :=
  PyStr.endswith label "_regio" && PyStr.contains (PyStr.lower c) "regio".
Definition rule_aantal (label c : string) : bool :=
  PyStr.startswith label "aantal"
  && (PyStr.contains (PyStr.lower c) "aantal"
      || PyStr.contains (PyStr.lower c) "stud"
      || PyStr.contains (PyStr.lower c) "count").

Definition rule_matches (label c : string) : bool :=
  rule_generic label c || rule_jaar label c || rule_instelling label c
  || rule_sector label c || rule_regio label c || rule_aantal label c.

(* ===================================================================== *)
(** ** Exceptions *)
(* ===================================================================== *)

Inductive exn : Type := TypeError | ValueError | KeyError.

Inductive result (A : Type) : Type :=
| Ok (a : A)
| Raise (e : exn).
Arguments Ok {A} a.
Arguments Raise {A} e.

Definition bind {A B : Type} (r : result A) (f : A -> result B) : result B :=
  match r with
  | Ok a => f a
  | Raise e => Raise e
  end.

Notation "'let*' x ':=' r 'in' k" := (bind r (fun x => k))
  (at level 10, x name, r at level 100, k at level 200).

(** Run [f] on every element, stopping at the first exception. *)
Fixpoint mapM {A B : Type} (f : A -> result B) (l : list A) : result (list B) :=
  match l with
  | [] => Ok []
  | x :: l' => let* y := f x in let* ys := mapM f l' in Ok (y :: ys)
  end.

(* ===================================================================== *)
(** ** Cells, rows and tables *)
(* ===================================================================== *)

Inductive value : Type :=
| VNa                (* NaN / None / pd.NA *)
| VInt (z : Z)
| VFloat (q : Q)
| VStr (s : string).

Definition row : Type := list value.

Record DataFrame : Type := mkDataFrame {
  columns : list string;
  rows : list row
}.

Definition is_na (v : value) : bool :=
  match v with VNa => true | _ => false end.


Definition is_str (v : value) : bool :=
  match v with VStr _ => true | _ => false end.

(** Equality of cells, as the hash tables behind [unique], [isin], [groupby]
    and [merge] see it (a missing cell equals a missing cell there). *)
Definition value_eqb (a b : value) : bool :=
  match a, b with
  | VNa, VNa => true
  | VInt x, VInt y => Z.eqb x y
  | VFloat x, VFloat y => Z.eqb (Qnum x) (Qnum y) && Pos.eqb (Qden x) (Qden y)
  | VStr x, VStr y => String.eqb x y
  | _, _ => false
  end.

Fixpoint key_eqb (a b : list value) : bool :=
  match a, b with
  | [], [] => true
  | x :: a', y :: b' => value_eqb x y && key_eqb a' b'
  | _, _ => false
  end.

Definition to_Q (v : value) : Q :=
  match v with
  | VInt z => inject_Z z
  | VFloat q => q
  | _ => 0%Q
  end.

(** Order used for sorting: numbers by value, strings by code point, numbers
    before strings. *)
Definition value_leb (a b : value) : bool :=
  match a, b with
  | VStr x, VStr y => String.leb x y
  | VStr _, _ => false
  | _, VStr _ => true
  | _, _ => Qle_bool (to_Q a) (to_Q b)
  end.

Fixpoint key_leb (a b : list value) : bool :=
  match a, b with
  | [], _ => true
  | _ :: _, [] => false
  | x :: a', y :: b' =>
      if value_eqb x y then key_leb a' b' else value_leb x y
  end.

Section Sorting.
Context {A : Type} (leb : A -> A -> bool).

Fixpoint insert_sorted (x : A) (l : list A) : list A :=
  match l with
  | [] => [x]
  | y :: l' => if leb x y then x :: l else y :: insert_sorted x l'
  end.

Definition sort_by (l : list A) : list A := fold_right insert_sorted [] l.
End Sorting.

Section Unique.
Context {A : Type} (eqb : A -> A -> bool).

(** Distinct elements in order of first appearance ([Series.unique]). *)
Fixpoint unique_by (l : list A) : list A :=
  match l with
  | [] => []
  | x :: l' => x :: filter (fun y => negb (eqb x y)) (unique_by l')
  end.
End Unique.

(** Position of the first column called [name]. *)
Fixpoint index_of (name : string) (cols : list string) : option nat :=
  match cols with
  | [] => None
  | c :: cols' =>
      if String.eqb c name then Some O
      else match index_of name cols' with
           | Some i => Some (S i)
           | None => None
           end
  end.

(** [name in df.columns] *)
Definition has_column (name : string) (cols : list string) : bool :=
  existsb (String.eqb name) cols.

Definition cell (i : nat) (r : row) : value := nth i r VNa.

Definition project (idxs : list nat) (r : row) : list value :=
  map (fun i => cell i r) idxs.

(** [df[name]] for a row: the cell of [r] under the column called [name]. *)
Definition cell_of (df : DataFrame) (name : string) (r : row) : value :=
  match index_of name (columns df) with
  | Some i => cell i r
  | None => VNa
  end.

(** Positions of the columns [names]; [KeyError] when one is absent. *)
Definition positions (names : list string) (cols : list string)
  : result (list nat) :=
  mapM (fun name => match index_of name cols with
                    | Some i => Ok i
                    | None => Raise KeyError
                    end) names.

(* ===================================================================== *)
(** ** The pandas operations the program calls *)
(* ===================================================================== *)

(** [Series.dropna()] *)
Definition dropna (l : list value) : list value :=
  filter (fun v => negb (is_na v)) l.

(** [sorted(l)]: comparing a string with a number raises [TypeError]. *)
Definition py_sorted (l : list value) : result (list value) :=
  if existsb is_str l && existsb (fun v => negb (is_str v)) l
  then Raise TypeError
  else Ok (sort_by value_leb l).

(** [v in selectie], the test [Series.isin] applies to each cell. *)
Definition isin (v : value) (selectie : list value) : bool :=
  existsb (value_eqb v) selectie.

(** [a + b] on cells. *)
Definition value_add (a b : value) : result value :=
  match a, b with
  | VNa, _ | _, VNa => Ok VNa
  | VInt x, VInt y => Ok (VInt (x + y))
  | VStr x, VStr y => Ok (VStr (x ++ y))
  | VStr _, _ | _, VStr _ => Raise TypeError
  | _, _ => Ok (VFloat (to_Q a + to_Q b))
  end.

(** The sum of one group: missing cells are skipped, an empty group sums
    to 0, strings are concatenated. *)
Definition sum_values (l : list value) : result value :=
  match dropna l with
  | [] => Ok (VInt 0)
  | v :: vs => fold_left (fun acc x => let* a := acc in value_add a x) vs (Ok v)
  end.

(** A row takes part in [groupby] when none of its key cells is missing. *)
Definition complete_key (idxs : list nat) (r : row) : bool :=
  forallb (fun i => negb (is_na (cell i r))) idxs.

(** The group keys: distinct key tuples, sorted. *)
Definition group_keys (idxs : list nat) (rs : list row) : list (list value) :=
  sort_by key_leb (unique_by key_eqb (map (project idxs) rs)).

Definition column_position (name : string) (cols : list string) : result nat :=
  match index_of name cols with
  | Some i => Ok i
  | None => Raise KeyError
  end.

(** [df.groupby(keys)[col].sum()]: a series indexed by the key tuples. *)
Definition groupby_sum (df : DataFrame) (keys : list string) (col : string)
  : result (list (list value * value)) :=
  let* idxs := positions keys (columns df) in
  let* ci := column_position col (columns df) in
  let kept := filter (complete_key idxs) (rows df) in
  mapM (fun k =>
          let* s := sum_values
                      (map (cell ci)
                           (filter (fun r => key_eqb (project idxs r) k) kept)) in
          Ok (k, s))
       (group_keys idxs kept).

(** [reset_index] inserts the index levels in front of the value column,
    last level first, and refuses a name that is already a column. *)
Fixpoint insert_levels (levels : list string) (cols : list string)
  : result (list string) :=
  match levels with
  | [] => Ok cols
  | n :: levels' =>
      let* cols' := insert_levels levels' cols in
      if has_column n cols' then Raise ValueError else Ok (n :: cols')
  end.

(** [series.reset_index(name=name)] *)
Definition reset_index (levels : list string) (s : list (list value * value))
    (name : string) : result DataFrame :=
  let* cols := insert_levels levels [name] in
  Ok (mkDataFrame cols (map (fun kv => fst kv ++ [snd kv]) s)).

(** [df.rename(columns={old: new})] *)
Definition rename_column (df : DataFrame) (old new : string) : DataFrame :=
  mkDataFrame
    (map (fun c => if String.eqb c old then new else c) (columns df))
    (rows df).

Definition count_column (name : string) (cols : list string) : nat :=
  length (filter (String.eqb name) cols).

(** The position of a merge key: [KeyError] when no column has the name,
    [ValueError] when several have. *)
Definition key_position (cols : list string) (name : string) : result nat :=
  match count_column name cols with
  | O => Raise KeyError
  | S O => column_position name cols
  | _ => Raise ValueError
  end.

(** [merge] refuses to match a column of strings with a column of numbers
    (when neither side is empty). *)
Definition kinds_clash (l r : list value) : bool :=
  match l, r with
  | _ :: _, _ :: _ => negb (Bool.eqb (existsb is_str l) (existsb is_str r))
  | _, _ => false
  end.

(** [pd.merge(left, right, on=on, how="inner")]: the rows of [left], in
    order, each extended with the other columns of every row of [right] that
    has the same key; other columns that carry the same name on both sides
    get the suffixes [_x] and [_y]. *)
Definition merge_inner (left_ right_ : DataFrame) (on : list string)
  : result DataFrame :=
  let* li := mapM (key_position (columns left_)) on in
  let* ri := mapM (key_position (columns right_)) on in
  if existsb (fun ij => kinds_clash (map (cell (fst ij)) (rows left_))
                                    (map (cell (snd ij)) (rows right_)))
             (List.combine li ri)
  then Raise ValueError
  else
    let rest := filter (fun j => negb (existsb (Nat.eqb j) ri))
                       (seq 0 (length (columns right_))) in
    let lnon := filter (fun c => negb (has_column c on)) (columns left_) in
    let rnon := map (fun j => nth j (columns right_) "") rest in
    let overlap c := has_column c lnon && has_column c rnon in
    let lcols := map (fun c => if negb (has_column c on) && overlap c
                               then (c ++ "_x")%string else c)
                     (columns left_) in
    let rcols := map (fun c => if overlap c then (c ++ "_y")%string else c)
                     rnon in
    Ok (mkDataFrame
          (lcols ++ rcols)
          (flat_map
             (fun l =>
                map (fun r => l ++ project rest r)
                    (filter (fun r => key_eqb (project li l) (project ri r))
                            (rows right_)))
             (rows left_))).

(** [series.replace(0, pd.NA)] on one cell *)
Definition replace_zero_na (v : value) : value :=
  match v with
  | VInt z => if Z.eqb z 0 then VNa else v
  | VFloat q => if Qeq_bool q 0 then VNa else v
  | _ => v
  end.

(** [t / n.replace(0, pd.NA) * 100] on one row: a missing operand gives a
    missing result, a string operand raises. *)
Definition percentage (t n : value) : result value :=
  match t, replace_zero_na n with
  | VNa, _ | _, VNa => Ok VNa
  | VStr _, _ | _, VStr _ => Raise TypeError
  | _, n' => Ok (VFloat (to_Q t / to_Q n' * 100))
  end.

Fixpoint replace_nth (i : nat) (r : row) (v : value) : row :=
  match r, i with
  | [], _ => []
  | _ :: r', O => v :: r'
  | x :: r', S i' => x :: replace_nth i' r' v
  end.

(** [df[name] = vals]: overwrite the column, or append it. *)
Definition set_column (df : DataFrame) (name : string) (vals : list value)
  : DataFrame :=
  match index_of name (columns df) with
  | Some i =>
      mkDataFrame (columns df)
        (map (fun rv => replace_nth i (fst rv) (snd rv))
             (List.combine (rows df) vals))
  | None =>
      mkDataFrame (columns df ++ [name])
        (map (fun rv => fst rv ++ [snd rv]) (List.combine (rows df) vals))
  end.

(* ===================================================================== *)
(** ** Categorical filter: [apply_filter] *)
(* ===================================================================== *)

(** [sorted(df[kolomnaam].dropna().unique().tolist())], the options offered
    by the multiselect. *)
Definition filter_options (df : DataFrame) (kolomnaam : string)
  : result (list value) :=
  let* i := column_position kolomnaam (columns df) in
  py_sorted (unique_by value_eqb (dropna (map (cell i) (rows df)))).

(** [apply_filter(df, kolomnaam, ...)].  The widget [st.multiselect] is the
    function [multiselect]: given the options and the default it returns the
    user's selection. *)
Definition apply_filter (df : DataFrame) (kolomnaam : string)
    (multiselect : list value -> list value -> list value)
  : result DataFrame :=
  if negb (has_column kolomnaam (columns df)) then Ok df
  else
    let* unieke := filter_options df kolomnaam in
    let selectie := multiselect unieke unieke in
    match selectie with
    | _ :: _ =>
        Ok (mkDataFrame (columns df)
              (filter (fun r => isin (cell_of df kolomnaam r) selectie)
                      (rows df)))
    | [] => Ok df
    end.

(** A user who leaves the widget at its default (everything selected). *)
Definition keep_default : list value -> list value -> list value :=
  fun _ default => default.

(** A user whose selection is [V], whatever is offered. *)
Definition choose (V : list value) : list value -> list value -> list value :=
  fun _ _ => V.

(* ===================================================================== *)
(** ** Join and aggregation engine: [combine_teller_noemer] *)
(* ===================================================================== *)

(** [mapping.get(label)]: the stored column, [None] when the label is
    absent or stored as [None]. *)
Definition dict_get (m : gmap string (option string)) (label : string)
  : option string :=
  match m !! label with
  | Some v => v
  | None => None
  end.

(** The loop that builds [join_cols_teller] / [join_cols_noemer]. *)
Fixpoint resolve_join_cols (cols : list string) (m : gmap string (option string))
    (labels : list string) : list string :=
  match labels with
  | [] => []
  | lbl :: labels' =>
      let kol := dict_get m lbl in
      match kol with
      | Some k =>
          if PyStr.truthy kol && has_column k cols
          then k :: resolve_join_cols cols m labels'
          else resolve_join_cols cols m labels'
      | None => resolve_join_cols cols m labels'
      end
  end.

(** [zip(a, b, c, d)] stops with its shortest argument. *)
Fixpoint zip4 {A B C D : Type} (a : list A) (b : list B) (c : list C)
    (d : list D) : list (A * B * C * D) :=
  match a, b, c, d with
  | x :: a', y :: b', z :: c', w :: d' => (x, y, z, w) :: zip4 a' b' c' d'
  | _, _, _, _ => []
  end.

(** The list [generieke_labels] of triples (generic name, teller column,
    noemer column); the generic name is the teller label. *)
Definition generieke_labels (join_labels_teller join_labels_noemer
    join_cols_teller join_cols_noemer : list string)
  : list (string * string * string) :=
  map (fun q => match q with (lbl_t, _, kol_t, kol_n) => (lbl_t, kol_t, kol_n) end)
      (zip4 join_labels_teller join_labels_noemer
            join_cols_teller join_cols_noemer).

Definition rename_if_present (df : DataFrame) (kol generieke : string)
  : DataFrame :=
  if has_column kol (columns df) then rename_column df kol generieke else df.

(** The loop [for generieke, kol_t, _ in generieke_labels] that renames the
    key columns of the grouped teller table. *)
Definition rename_teller_keys (gl : list (string * string * string))
    (t_grouped : DataFrame) : DataFrame :=
  fold_left (fun df g => match g with
                         | (generieke, kol_t, _) =>
                             rename_if_present df kol_t generieke
                         end) gl t_grouped.

(** The loop [for generieke, _, kol_n in generieke_labels], for the grouped
    noemer table. *)
Definition rename_noemer_keys (gl : list (string * string * string))
    (n_grouped : DataFrame) : DataFrame :=
  fold_left (fun df g => match g with
                         | (generieke, _, kol_n) =>
                             rename_if_present df kol_n generieke
                         end) gl n_grouped.

Definition teller_name : string := "teller_doorstromers".
Definition noemer_name : string := "noemer_gediplomeerden".
Definition pct_name : string := "doorstroompercentage".

(** The last statement before [return df_join]. *)
Definition add_percentage (df_join : DataFrame) : result DataFrame :=
  let* ti := column_position teller_name (columns df_join) in
  let* ni := column_position noemer_name (columns df_join) in
  let* pcts := mapM (fun r => percentage (cell ti r) (cell ni r))
                    (rows df_join) in
  Ok (set_column df_join pct_name pcts).

Definition combine_teller_noemer (df_teller df_noemer : DataFrame)
    (map_teller map_noemer : gmap string (option string))
    (join_labels_teller join_labels_noemer : list string)
  : result (option DataFrame) :=
  let col_teller := dict_get map_teller "aantal_ho_instromers" in
  let col_noemer := dict_get map_noemer "aantal_mbo_gediplomeerden" in
  match col_teller, col_noemer with
  | Some ct, Some cn =>
      if negb (PyStr.truthy col_teller) || negb (PyStr.truthy col_noemer)
      then Ok None
      else if negb (has_column ct (columns df_teller))
              || negb (has_column cn (columns df_noemer))
      then Ok None
      else
        let join_cols_teller :=
          resolve_join_cols (columns df_teller) map_teller join_labels_teller in
        let join_cols_noemer :=
          resolve_join_cols (columns df_noemer) map_noemer join_labels_noemer in
        if Nat.eqb (length join_cols_teller) 0
           || negb (Nat.eqb (length join_cols_teller) (length join_cols_noemer))
        then Ok None
        else
          let* st := groupby_sum df_teller join_cols_teller ct in
          let* t_grouped := reset_index join_cols_teller st teller_name in
          let* sn := groupby_sum df_noemer join_cols_noemer cn in
          let* n_grouped := reset_index join_cols_noemer sn noemer_name in
          let gl := generieke_labels join_labels_teller join_labels_noemer
                      join_cols_teller join_cols_noemer in
          let t_grouped :=
            rename_teller_keys gl t_grouped in
          let n_grouped :=
            rename_noemer_keys gl n_grouped in
          let join_on := map (fun g => match g with (generieke, _, _) => generieke end) gl in
          let* df_join := merge_inner t_grouped n_grouped join_on in
          let* df_join := add_percentage df_join in
          Ok (Some df_join)
  | _, _ => Ok None
  end.

(** The call of the application: the same selection of labels keys both
    sides ([join_labels_teller = join_labels_noemer = geselecteerde_labels]). *)
Definition combine_call (df_teller df_noemer : DataFrame)
    (map_teller map_noemer : gmap string (option string))
    (geselecteerde_labels : list string) : result (option DataFrame) :=
  combine_teller_noemer df_teller df_noemer map_teller map_noemer
    geselecteerde_labels geselecteerde_labels.

Definition mogelijke_join_labels : list string :=
  ["jaar"; "instelling_mbo"; "sector_mbo"; "regio_mbo"; "niveau_mbo"].

(* --------------------------------------------------------------------- *)
(** *** The scenarios of the specification, run on the model *)

Definition mk_map (l : list (string * option string))
  : gmap string (option string) := list_to_map l.

Definition sc_teller : DataFrame :=
  mkDataFrame ["jaar"; "sector"; "n_ho"] [[VInt 2021; VStr "Zorg"; VInt 50]].
Definition sc_noemer : DataFrame :=
  mkDataFrame ["jaar"; "sector"; "n_mbo"] [[VInt 2021; VStr "Zorg"; VInt 200]].
Definition sc_map_teller : gmap string (option string) :=
  mk_map [("jaar", Some "jaar"); ("sector_mbo", Some "sector");
          ("niveau_mbo", None); ("aantal_ho_instromers", Some "n_ho")].
Definition sc_map_noemer : gmap string (option string) :=
  mk_map [("jaar", Some "jaar"); ("sector_mbo", Some "sector");
          ("niveau_mbo", None); ("aantal_mbo_gediplomeerden", Some "n_mbo")].


Definition column_values (df : DataFrame) (name : string) : list value :=
  map (cell_of df name) (rows df).

Definition mixed_kinds (l : list value) : bool :=
  existsb is_str l && existsb (fun v => negb (is_str v)) l.


(** The part of [combine_teller_noemer] after its three early returns. *)
Definition pipeline (df_teller df_noemer : DataFrame) (ct cn : string)
    (join_cols_teller join_cols_noemer join_labels_teller join_labels_noemer
       : list string) : result DataFrame :=
  let* st := groupby_sum df_teller join_cols_teller ct in
  let* t_grouped := reset_index join_cols_teller st teller_name in
  let* sn := groupby_sum df_noemer join_cols_noemer cn in
  let* n_grouped := reset_index join_cols_noemer sn noemer_name in
  let gl := generieke_labels join_labels_teller join_labels_noemer
              join_cols_teller join_cols_noemer in
  let t_grouped :=
    rename_teller_keys gl t_grouped in
  let n_grouped :=
    rename_noemer_keys gl n_grouped in
  let join_on := map (fun g => match g with (generieke, _, _) => generieke end) gl in
  let* df_join := merge_inner t_grouped n_grouped join_on in
  add_percentage df_join.

(** A label resolves: it is mapped to a non-empty column name that
    is a column of the table. *)
Definition label_resolved (df : DataFrame) (m : gmap string (option string))
    (label : string) : Prop :=
  exists c, dict_get m label = Some c /\ c <> "" /\ In c (columns df).

(** The key tuples of a grouped series, and the inner join of two of them:
    for each entry of the left series, in order, the entries of the right
    series with the same key. *)
Definition joined_row (a b : list value * value) : row :=
  fst a ++ [snd a; snd b].

Definition inner_join (st sn : list (list value * value)) : list row :=
  flat_map (fun a => map (joined_row a)
                         (filter (fun b => key_eqb (fst a) (fst b)) sn))
           st.

(* ===================================================================== *)
(** ** Loading the two files *)
(* ===================================================================== *)

Inductive encoding : Type := Utf8 | Latin1 | Utf16 | Utf16le | Utf16be.
Inductive separator : Type := Comma | Semicolon | Tab.
Inductive engine : Type := CEngine | PythonEngine.
Inductive read_error : Type :=
  UnicodeDecodeError | ParserError | EmptyDataError | OtherError.

(** One call of [pd.read_csv] on the handle of an uploaded file.  The
    handle has a read position and the program never rewinds it (there is
    no [seek(0)] between two calls): the call reads from the position at
    which the handle stands, returns a table or raises, and leaves the
    handle at a new position.  The first argument is the position before
    the call, the second component of the result the position after it. *)
Definition reader : Type :=
  nat -> separator -> encoding -> engine -> (DataFrame + read_error) * nat.

(** How a loading block ends: the table is set, or the failure is shown
    with [st.error] and the table stays [None], or an exception leaves the
    block. *)
Inductive load_outcome : Type :=
| Loaded (df : DataFrame)
| Reported
| Uncaught (e : read_error).

(** The [try] / [except] block that sets [df_teller]; [pos] is the position
    of the handle [file_teller] when the block starts.  An exception raised
    inside an [except] clause is not caught by the other clause. *)
Definition load_teller (read_csv : reader) (pos : nat) : load_outcome :=
  match read_csv pos Comma Utf8 CEngine with
  | (inl df, _) => Loaded df
  | (inr UnicodeDecodeError, pos') =>
      match read_csv pos' Comma Latin1 CEngine with
      | (inl df, _) => Loaded df
      | (inr e, _) => Uncaught e
      end
  | (inr ParserError, pos') =>
      match read_csv pos' Semicolon Utf8 PythonEngine with
      | (inl df, _) => Loaded df
      | (inr e, _) => Uncaught e
      end
  | (inr e, _) => Uncaught e
  end.

(** The variables of the noemer block and the position of [file_noemer]. *)
Record noemer_state : Type := mkNoemerState {
  df_noemer_var : option DataFrame;
  tried : bool;
  handle_pos : nat
}.

(** [for sep in [",", ";", "\t"]] for one encoding. *)
Fixpoint noemer_inner (read_csv : reader) (enc : encoding)
    (seps : list separator) (s : noemer_state) : noemer_state + read_error :=
  match seps with
  | [] => inl s
  | sep :: seps' =>
      if tried s then inl s
      else match read_csv (handle_pos s) sep enc CEngine with
           | (inl df, pos') =>
               noemer_inner read_csv enc seps' (mkNoemerState (Some df) true pos')
           | (inr UnicodeDecodeError, pos') =>
               noemer_inner read_csv enc seps'
                 (mkNoemerState (df_noemer_var s) (tried s) pos')
           | (inr ParserError, pos') =>
               noemer_inner read_csv enc seps'
                 (mkNoemerState (df_noemer_var s) (tried s) pos')
           | (inr e, _) => inr e
           end
  end.

(** [for enc in ["utf-8", "latin-1", "utf-16", "utf-16le", "utf-16be"]] *)
Fixpoint noemer_outer (read_csv : reader) (encs : list encoding)
    (seps : list separator) (s : noemer_state) : noemer_state + read_error :=
  match encs with
  | [] => inl s
  | enc :: encs' =>
      match noemer_inner read_csv enc seps s with
      | inl s' => noemer_outer read_csv encs' seps s'
      | inr e => inr e
      end
  end.

Definition noemer_encodings : list encoding :=
  [Utf8; Latin1; Utf16; Utf16le; Utf16be].
Definition noemer_separators : list separator := [Comma; Semicolon; Tab].

(** The block that sets [df_noemer]; [pos] is the position of the handle
    [file_noemer] when the block starts. *)
Definition load_noemer (read_csv : reader) (pos : nat) : load_outcome :=
  match noemer_outer read_csv noemer_encodings noemer_separators
          (mkNoemerState None false pos) with
  | inl s =>
      if tried s
      then match df_noemer_var s with
           | Some df => Loaded df
           | None => Reported
           end
      else Reported
  | inr e => Uncaught e
  end.

(** The exceptions the two blocks have an [except] clause for. *)
Definition caught (e : read_error) : bool :=
  match e with
  | UnicodeDecodeError | ParserError => true
  | EmptyDataError | OtherError => false
  end.

(** A file of [len] bytes that [pd.read_csv] reads in one piece: a call,
    whether it parses or fails, leaves the handle at the end of the file,
    and a call on a handle that stands at the end finds nothing to parse
    and raises [EmptyDataError]. *)
Definition read_in_one_piece (read_csv : reader) (len : nat) : Prop :=
  (forall pos sep enc eng, snd (read_csv pos sep enc eng) = len)
  /\ (forall sep enc eng, read_csv len sep enc eng = (inr EmptyDataError, len)).

(** A Latin-1 file of [len] bytes with semicolons, read in one piece.  Read
    from its start, UTF-8 decoding fails, commas do not parse under
    Latin-1, semicolons do; read from anywhere else there is nothing left
    to parse. *)
Definition latin1_semicolon_file (df : DataFrame) (len : nat) : reader :=
  fun pos sep enc _ =>
    match pos with
    | O =>
        (match enc, sep with
         | Utf8, _ => inr UnicodeDecodeError
         | Latin1, Semicolon => inl df
         | Latin1, _ => inr ParserError
         | _, _ => inr UnicodeDecodeError
         end, len)
    | S _ => (inr EmptyDataError, len)
    end.

Definition guards_pass (T N : DataFrame) (mt mn : gmap string (option string))
    (L : list string) : Prop :=
  label_resolved T mt "aantal_ho_instromers"
  /\ label_resolved N mn "aantal_mbo_gediplomeerden"
  /\ resolve_join_cols (columns T) mt L <> []
  /\ length (resolve_join_cols (columns T) mt L)
     = length (resolve_join_cols (columns N) mn L).

(** One step of renaming seen from a column name, and the renamings of
    [generieke_labels] applied one after the other. *)
Definition rename_step (old new x : string) : string :=
  if String.eqb x old then new else x.

Definition chain (gl : list (string * string)) (x : string) : string :=
  fold_left (fun y lc => rename_step (snd lc) (fst lc) y) gl x.


(** No label is the name of a key column that comes after its own: then no
    renaming touches a column that was already renamed. *)
Fixpoint no_capture (ls cs : list string) : Prop :=
  match ls, cs with
  | l :: ls', _ :: cs' => ~ In l cs' /\ no_capture ls' cs'
  | _, _ => True
  end.


(** The row of a grouped series as [reset_index] lays it out. *)
Definition series_row (kv : list value * value) : row := fst kv ++ [snd kv].

(** The test [merge] makes on each pair of key columns. *)
Definition keys_clash (k : nat) (lrows rrows : list row) : bool :=
  existsb (fun ij => kinds_clash (map (cell (fst ij)) lrows)
                                 (map (cell (snd ij)) rrows))
          (List.combine (seq 0 k) (seq 0 k)).

(** A joined row with its percentage appended; the teller is cell [k], the
    noemer cell [k + 1]. *)
Definition with_percentage (k : nat) (r : row) : result row :=
  let* p := percentage (cell k r) (cell (S k) r) in
  Ok (r ++ [p]).


(** The selection of join labels: distinct labels of the fixed vocabulary. *)
Definition join_key_selection (L : list string) : Prop :=
  NoDup L /\ incl L mogelijke_join_labels.


(** The cells of row [r] under the columns [on] of [df]. *)
Definition key_of (df : DataFrame) (on : list string) (r : row) : list value :=
  map (fun name => cell_of df name r) on.

(** A denominator that [replace(0, pd.NA)] turns into a missing value. *)
Definition is_zero (v : value) : bool :=
  match v with
  | VInt z => Z.eqb z 0
  | VFloat q => Qeq_bool q 0
  | _ => false
  end.


(** The key columns of a joined table: its columns other than the two
    measures and the percentage. *)
Definition join_key_columns (J : DataFrame) : list string :=
  filter (fun c => negb (has_column c [teller_name; noemer_name; pct_name]))
         (columns J).


(** A count: an integer or a missing cell. *)
Definition is_count (v : value) : bool :=
  match v with VInt _ | VNa => true | _ => false end.

(** The integer sum of the integer cells of a list. *)
Fixpoint sum_ints (l : list value) : Z :=
  match l with
  | [] => 0
  | VInt z :: l' => z + sum_ints l'
  | _ :: l' => sum_ints l'
  end.

(** All the cells of column [c] are counts. *)
Definition count_column_cells (df : DataFrame) (c : string) : Prop :=
  forall r, In r (rows df) -> is_count (cell_of df c r) = true.

(** The cells of column [c] that are not missing are all strings
    ([b = true]) or all numbers ([b = false]). *)
Definition column_kind (df : DataFrame) (c : string) (b : bool) : Prop :=
  forall r, In r (rows df) ->
    is_na (cell_of df c r) = false -> is_str (cell_of df c r) = b.

Definition same_kind (T N : DataFrame) (c d : string) : Prop :=
  exists b, column_kind T c b /\ column_kind N d b.


(** A call on which nothing of the table library raises: the guards pass,
    the resolved key columns of each side are distinct and none is called
    like its measure, no label is the name of a later key column, matched
    key columns hold cells of one kind, and the metric columns hold counts. *)
Definition well_formed_call (T N : DataFrame)
    (mt mn : gmap string (option string)) (L : list string) : Prop :=
  let cs := resolve_join_cols (columns T) mt L in
  let ds := resolve_join_cols (columns N) mn L in
  join_key_selection L
  /\ guards_pass T N mt mn L
  /\ NoDup (cs ++ [teller_name]) /\ NoDup (ds ++ [noemer_name])
  /\ no_capture (firstn (length cs) L) cs
  /\ no_capture (firstn (length cs) L) ds
  /\ Forall2 (same_kind T N) cs ds
  /\ (forall ct, dict_get mt "aantal_ho_instromers" = Some ct ->
                 count_column_cells T ct)
  /\ (forall cn, dict_get mn "aantal_mbo_gediplomeerden" = Some cn ->
                 count_column_cells N cn).

(** Both sides map [jaar] and leave [sector_mbo] unmapped. *)
Definition jaar_only_teller : gmap string (option string) :=
  mk_map [("jaar", Some "jaar"); ("sector_mbo", None);
          ("aantal_ho_instromers", Some "n_ho")].
Definition jaar_only_noemer : gmap string (option string) :=
  mk_map [("jaar", Some "jaar"); ("sector_mbo", None);
          ("aantal_mbo_gediplomeerden", Some "n_mbo")].

(** Both sides map [jaar] and [sector_mbo] to the one column [jaar]. *)
Definition twice_jaar_teller : gmap string (option string) :=
  mk_map [("jaar", Some "jaar"); ("sector_mbo", Some "jaar");
          ("aantal_ho_instromers", Some "n_ho")].
Definition twice_jaar_noemer : gmap string (option string) :=
  mk_map [("jaar", Some "jaar"); ("sector_mbo", Some "jaar");
          ("aantal_mbo_gediplomeerden", Some "n_mbo")].

(** The teller maps only [jaar], the noemer only [niveau_mbo]. *)
Definition mis_teller : DataFrame :=
  mkDataFrame ["jaar"; "n_ho"] [[VInt 2021; VInt 50]; [VInt 4; VInt 7]].
Definition mis_noemer : DataFrame :=
  mkDataFrame ["niveau"; "n_mbo"] [[VInt 4; VInt 200]; [VInt 3; VInt 100]].
Definition mis_map_teller : gmap string (option string) :=
  mk_map [("jaar", Some "jaar"); ("niveau_mbo", None);
          ("aantal_ho_instromers", Some "n_ho")].
Definition mis_map_noemer : gmap string (option string) :=
  mk_map [("jaar", None); ("niveau_mbo", Some "niveau");
          ("aantal_mbo_gediplomeerden", Some "n_mbo")].



(** A sub-list: the elements of [l] at the positions where [mask] is true. *)
Fixpoint select {A : Type} (mask : list bool) (l : list A) : list A :=
  match mask, l with
  | true :: mask', x :: l' => x :: select mask' l'
  | false :: mask', _ :: l' => select mask' l'
  | _, _ => []
  end.

(** No cell of [r] under the columns [on] is missing. *)
Definition complete_row (df : DataFrame) (on : list string) (r : row) : bool :=
  forallb (fun v => negb (is_na v)) (key_of df on r).

(** The key combinations of [df] for the columns [on], as [groupby] lists
    them. *)
Definition table_keys (df : DataFrame) (on : list string) : list (list value) :=
  sort_by key_leb
    (unique_by key_eqb
       (map (key_of df on) (filter (complete_row df on) (rows df)))).

(** The sum of the counts of column [col] over the rows with key [k]. *)
Definition key_sum (df : DataFrame) (on : list string) (col : string)
    (k : list value) : Z :=
  sum_ints
    (map (cell_of df col)
         (filter (fun r => key_eqb (key_of df on r) k)
                 (filter (complete_row df on) (rows df)))).

(** The percentage of two integer sums. *)
Definition pct_int (t n : Z) : value :=
  if Z.eqb n 0 then VNa else VFloat (inject_Z t / inject_Z n * 100).

(** [df.groupby(by)[["teller_doorstromers", "noemer_gediplomeerden"]].sum()
    .reset_index()] followed by the percentage, as the tabs compute their
    summaries (per jaar, sector, regio, instelling). *)
Definition group_summary (df : DataFrame) (by_ : list string)
  : result DataFrame :=
  let* idxs := positions by_ (columns df) in
  let* ti := column_position teller_name (columns df) in
  let* ni := column_position noemer_name (columns df) in
  let kept := filter (complete_key idxs) (rows df) in
  let* rs := mapM (fun k =>
                     let grp := filter (fun r => key_eqb (project idxs r) k) kept in
                     let* t := sum_values (map (cell ti) grp) in
                     let* n := sum_values (map (cell ni) grp) in
                     Ok (k ++ [t; n]))
                  (group_keys idxs kept) in
  let* cols := insert_levels by_ [teller_name; noemer_name] in
  add_percentage (mkDataFrame cols rs).

(** The rows of [df] whose key under the columns [on] is one of [keys]. *)
Definition restrict_to_keys (df : DataFrame) (on : list string)
    (keys : list (list value)) : DataFrame :=
  mkDataFrame (columns df)
    (filter (fun r => existsb (key_eqb (key_of df on r)) keys) (rows df)).


(** The row of a joined table for key [k], from the two tables. *)
Definition joined_count_row (T N : DataFrame) (cs ds : list string)
    (ct cn : string) (k : list value) : row :=
  k ++ [VInt (key_sum T cs ct k); VInt (key_sum N ds cn k);
        pct_int (key_sum T cs ct k) (key_sum N ds cn k)].

(** The key combinations that both tables hold, in the order of [T]. *)
Definition shared_keys (T N : DataFrame) (cs ds : list string)
  : list (list value) :=
  filter (fun k => existsb (key_eqb k) (table_keys N ds)) (table_keys T cs).


(** The sum of a list of integers. *)
Definition sum_Z (l : list Z) : Z := fold_right Z.add 0%Z l.

(** The integer a cell adds to a sum of counts. *)
Definition int_of (v : value) : Z :=
  match v with VInt z => z | _ => 0%Z end.


(** The row of the summary for key [g]: the key, the two sums over the rows
    of [J] with that key, and the percentage recomputed from the sums. *)
Definition summary_row (J : DataFrame) (by_ : list string) (g : list value)
  : row :=
  g ++ [VInt (key_sum J by_ teller_name g);
        VInt (key_sum J by_ noemer_name g);
        pct_int (key_sum J by_ teller_name g) (key_sum J by_ noemer_name g)].

(** The key combinations of the rows of [J] that fall in group [g]. *)
Definition subgroup_keys (J : DataFrame) (on by_ : list string)
    (g : list value) : list (list value) :=
  map (key_of J on)
      (filter (fun r => key_eqb (key_of J by_ r) g) (rows J)).

(** A joined table of counts: one row for each key of [K], with the two
    sums and their percentage. *)
Definition count_row (tsum nsum : list value -> Z) (k : list value) : row :=
  k ++ [VInt (tsum k); VInt (nsum k); pct_int (tsum k) (nsum k)].

Definition count_table (L : list string) (K : list (list value))
    (tsum nsum : list value -> Z) : DataFrame :=
  mkDataFrame (L ++ [teller_name; noemer_name; pct_name])
              (map (count_row tsum nsum) K).

(** The naive average of a column of percentages. *)
Definition naive_average (ps : list value) : Q :=
  (fold_right Qplus 0 (map to_Q ps) / inject_Z (Z.of_nat (length ps)))%Q.

(** Two sectors of one year with different rates. *)
Definition avg_teller : DataFrame :=
  mkDataFrame ["jaar"; "sector"; "n_ho"]
    [[VInt 2021; VStr "Zorg"; VInt 50]; [VInt 2021; VStr "Techniek"; VInt 30]].

Definition avg_noemer : DataFrame :=
  mkDataFrame ["jaar"; "sector"; "n_mbo"]
    [[VInt 2021; VStr "Zorg"; VInt 200]; [VInt 2021; VStr "Techniek"; VInt 50]].


(* ===================================================================== *)
(** ** Column mapper: [mapping_ui] *)
(* ===================================================================== *)
(** The first option of every select box. *)
Definition geen : string := "(geen)".

(** [st.selectbox(..., options=..., index=..., key=...)]: the widget is a
    function of its key, of the options it offers and of the index of the
    preselected option; it answers the option that is selected. *)
Definition selectbox_widget : Type := string -> list string -> nat -> string.

(** [mapping.get(label, d)] *)
Definition dict_get_or (m : gmap string (option string)) (label : string)
    (d : option string) : option string :=
  match m !! label with
  | Some v => v
  | None => d
  end.

(** [l.index(x)]: [ValueError] when [x] is not in [l]. *)
Definition py_index (x : string) (l : list string) : result nat :=
  match index_of x l with
  | Some i => Ok i
  | None => Raise ValueError
  end.

(** [(["(geen)"] + available_cols).index(default_col)
     if default_col in available_cols else 0] *)
Definition default_index (default_col : option string)
    (available_cols : list string) : result nat :=
  match default_col with
  | Some c =>
      if has_column c available_cols
      then py_index c (geen :: available_cols)
      else Ok 0%nat
  | None => Ok 0%nat
  end.

(** The body of the two loops over the labels: the select box of one label
    and the assignment [mapping[label] = ...]. *)
Definition mapping_entry (selectbox : selectbox_widget)
    (available_cols : list string) (mapping_key : string)
    (mapping : gmap string (option string)) (label : string)
  : result (gmap string (option string)) :=
  let default_col :=
    dict_get_or mapping label (suggest_default label available_cols) in
  let* index := default_index default_col available_cols in
  let gekozen :=
    selectbox (mapping_key ++ "_" ++ label)%string (geen :: available_cols)
              index in
  Ok (<[label := if String.eqb gekozen geen then None else Some gekozen]>
        mapping).

(** [for label, beschrijving in items: ...] *)
Definition mapping_loop (selectbox : selectbox_widget)
    (available_cols : list string) (mapping_key : string)
    (items : list (string * string)) (mapping : gmap string (option string))
  : result (gmap string (option string)) :=
  fold_left (fun acc item =>
               let* m := acc in
               mapping_entry selectbox available_cols mapping_key m (fst item))
            items (Ok mapping).

(** [st.session_state[mapping_key]] after
    [if mapping_key not in st.session_state: st.session_state[mapping_key] = {}].
    The session state is, as far as the mappings go, a finite map from
    mapping keys to mappings. *)
Definition stored_mapping
    (session_state : gmap string (gmap string (option string)))
    (mapping_key : string)
  : gmap string (option string) :=
  match session_state !! mapping_key with
  | Some m => m
  | None => ∅
  end.

(** [mapping_ui(df, mapping_key, functionele_labels, titel)].  The dict
    [functionele_labels] is the list of its items, in insertion order; the
    first half of the labels is shown in the left column, the rest in the
    right one.  The function returns the mapping; the session state it
    leaves behind is the second component. *)
Definition mapping_ui (selectbox : selectbox_widget)
    (session_state : gmap string (gmap string (option string)))
    (df : DataFrame) (mapping_key : string)
    (functionele_labels : list (string * string))
  : result (gmap string (option string)
            * gmap string (gmap string (option string))) :=
  let available_cols := columns df in
  let session_state :=
    match session_state !! mapping_key with
    | None => <[mapping_key := ∅]> session_state
    | Some _ => session_state
    end in
  let mapping := stored_mapping session_state mapping_key in
  let items := functionele_labels in
  let mid := Nat.div (length items) 2 in
  let* mapping :=
    mapping_loop selectbox available_cols mapping_key (firstn mid items)
                 mapping in
  let* mapping :=
    mapping_loop selectbox available_cols mapping_key (skipn mid items)
                 mapping in
  Ok (mapping, <[mapping_key := mapping]> session_state).

(** A user who leaves every select box as it is shown: the widget answers
    the preselected option. *)
Definition untouched : selectbox_widget :=
  fun _ options index => nth index options geen.

(** The entry a label gets when the select box is left untouched: a stored
    column that is still a column of the table, else nothing when the label
    has been stored before, else the suggestion. *)
Definition settled (available_cols : list string)
    (stored : option (option string)) (label : string) : option string :=
  match stored with
  | Some (Some c) =>
      if has_column c available_cols && negb (String.eqb c geen)
      then Some c else None
  | Some None => None
  | None =>
      match suggest_default label available_cols with
      | Some c => if String.eqb c geen then None else Some c
      | None => None
      end
  end.

(** The dicts of functional labels of the two datasets. *)
Definition labels_teller : list (string * string) :=
  [("jaar", "Jaar van ho-instroom (cohort / peiljaar)");
   ("instelling_mbo", "Herkomstinstelling mbo (indien aanwezig, bijv. BRIN mbo)");
   ("instelling_ho", "Ho-instelling (bestemming)");
   ("sector_mbo", "Sector/sectorkamer/domein van de mbo-herkomstopleiding");
   ("sector_ho", "Sector/domein van ho-opleiding (indien aanwezig)");
   ("regio_mbo", "Regio van mbo-instelling (of woonregio student)");
   ("regio_ho", "Regio van ho-instelling");
   ("niveau_mbo", "Mbo-niveau (bijv. 2, 3, 4)");
   ("aantal_ho_instromers", "Aantal ho-instroom (doorstromers, teller)")].

Definition labels_noemer : list (string * string) :=
  [("jaar", "Jaar van diplomering mbo (cohort)");
   ("instelling_mbo", "Mbo-instelling (BRIN of intern instellings-ID)");
   ("sector_mbo", "Sector/sectorkamer/domein mbo");
   ("regio_mbo", "Regio van mbo-instelling");
   ("niveau_mbo", "Mbo-niveau (bijv. 2, 3, 4)");
   ("aantal_mbo_gediplomeerden", "Aantal mbo-gediplomeerden (noemer)")].

(** A label is mapped: the mapping holds a non-empty column name for it. *)
Definition mapped (m : gmap string (option string)) (label : string) : bool :=
  PyStr.truthy (dict_get m label).

(** The select box answers one of the options it offers. *)
Definition answers_an_option (selectbox : selectbox_widget) : Prop :=
  forall key cols index,
    In (selectbox key (geen :: cols) index) (geen :: cols).


(** Every entry of the labels [Ls] names a column of [cols]. *)
Definition entries_in (cols : list string) (m : gmap string (option string))
    (Ls : list string) : Prop :=
  forall label, In label Ls ->
    m !! label = Some None
    \/ exists c, m !! label = Some (Some c) /\ In c cols /\ c <> geen.


(* ===================================================================== *)
(** ** The tabs: filters, totals and summaries *)
(* ===================================================================== *)
(** [st.multiselect(..., options=..., default=..., key=...)]: the widget is
    a function of its key, the options and the default; it answers the
    selection. *)
Definition multiselect_widget : Type :=
  string -> list value -> list value -> list value.

(** The key of the multiselect of column [col] in tab [tab]:
    [key_prefix = f"{tab}_filter_{col}"] and, in [apply_filter],
    [key = f"{key_prefix}_{kolomnaam}"]. *)
Definition filter_key (tab col : string) : string :=
  (tab ++ "_filter_" ++ col ++ "_" ++ col)%string.

(** The KPI tab: [filter_cols] is made from the columns of [df_kpi] first,
    then every column of it is filtered. *)
Definition kpi_filters (multiselect : multiselect_widget)
    (df_join : DataFrame) : result DataFrame :=
  let df_kpi := df_join in
  let filter_cols :=
    filter (fun col => has_column col (columns df_kpi))
           ["jaar"; "sector_mbo"; "regio_mbo"; "instelling_mbo"; "niveau_mbo"] in
  fold_left (fun acc col =>
               let* df_kpi := acc in
               apply_filter df_kpi col (multiselect (filter_key "kpi" col)))
            filter_cols (Ok df_kpi).

(** The other tabs: [for col in cols: if col in df.columns: df = apply_filter(...)] *)
Definition tab_filters (multiselect : multiselect_widget) (tab : string)
    (cols : list string) (df : DataFrame) : result DataFrame :=
  fold_left (fun acc col =>
               let* df := acc in
               if has_column col (columns df)
               then apply_filter df col (multiselect (filter_key tab col))
               else Ok df)
            cols (Ok df).

(** A user whose selection in each multiselect is fixed beforehand. *)
Definition selection_of (sel : string -> list value) : multiselect_widget :=
  fun key _ _ => sel key.

(** Row [r] passes the filter of column [col]: the column is absent, or
    nothing is selected, or the cell is one of the selected values. *)
Definition passes (df : DataFrame) (sel : string -> list value)
    (tab col : string) (r : row) : bool :=
  negb (has_column col (columns df))
  || match sel (filter_key tab col) with
     | [] => true
     | _ :: _ => isin (cell_of df col r) (sel (filter_key tab col))
     end.


(** [t / n * 100] on two Python numbers. *)
Definition ratio_100 (t n : value) : result value :=
  match t, n with
  | VStr _, _ | _, VStr _ => Raise TypeError
  | VNa, _ | _, VNa => Ok VNa
  | _, _ => Ok (VFloat (to_Q t / to_Q n * 100))
  end.

(** [df_kpi[["teller_doorstromers", "noemer_gediplomeerden"]].sum().to_dict()]:
    the two totals. *)
Definition kpi_totals (df_kpi : DataFrame) : result (value * value) :=
  let* ti := column_position teller_name (columns df_kpi) in
  let* ni := column_position noemer_name (columns df_kpi) in
  let* t := sum_values (map (cell ti) (rows df_kpi)) in
  let* n := sum_values (map (cell ni) (rows df_kpi)) in
  Ok (t, n).

(** [total[teller] / total[noemer] * 100 if total[noemer] != 0 else None] *)
Definition totaal_pct (total : value * value) : result (option value) :=
  if negb (is_zero (snd total))
  then let* p := ratio_100 (fst total) (snd total) in Ok (Some p)
  else Ok None.

(** What the KPI tab shows: the total percentage and, when [jaar] is a join
    label and a column of the join, the table per year. *)
Record kpi_view : Type := mkKpiView {
  kpi_totaal_pct : option value;
  kpi_per_jaar : option DataFrame
}.

Definition tab_kpi (multiselect : multiselect_widget)
    (geselecteerde_labels : list string) (df_join : DataFrame)
  : result kpi_view :=
  let jaar_label_aanwezig :=
    has_column "jaar" geselecteerde_labels
    && has_column "jaar" (columns df_join) in
  let* df_kpi := kpi_filters multiselect df_join in
  if jaar_label_aanwezig
  then
    let* total := kpi_totals df_kpi in
    let* pct := totaal_pct total in
    let* df_per_jaar := group_summary df_kpi ["jaar"] in
    Ok (mkKpiView pct (Some df_per_jaar))
  else
    let* total := kpi_totals df_kpi in
    let* pct := totaal_pct total in
    Ok (mkKpiView pct None).

(** The tabs per sector and per instelling differ in their names only:
    [None] when the column is not in the join (an [st.info] is shown), else
    the summary of the filtered join. *)
Definition tab_summary (multiselect : multiselect_widget) (tab by_ : string)
    (filter_cols : list string) (df_join : DataFrame)
  : result (option DataFrame) :=
  if negb (has_column by_ (columns df_join)) then Ok None
  else
    let* df := tab_filters multiselect tab filter_cols df_join in
    let* df_group := group_summary df [by_] in
    Ok (Some df_group).

Definition tab_sector (multiselect : multiselect_widget)
  : DataFrame -> result (option DataFrame) :=
  tab_summary multiselect "sector" "sector_mbo"
    ["jaar"; "regio_mbo"; "instelling_mbo"; "niveau_mbo"].

Definition tab_inst (multiselect : multiselect_widget)
  : DataFrame -> result (option DataFrame) :=
  tab_summary multiselect "inst" "instelling_mbo"
    ["jaar"; "sector_mbo"; "regio_mbo"; "niveau_mbo"].

(** The tab per regio: the summary and, when the join has a column
    [regio_ho], the table behind the treemap. *)
Definition tab_regio (multiselect : multiselect_widget) (df_join : DataFrame)
  : result (option (DataFrame * option DataFrame)) :=
  if negb (has_column "regio_mbo" (columns df_join)) then Ok None
  else
    let* df_reg :=
      tab_filters multiselect "regio"
        ["jaar"; "sector_mbo"; "instelling_mbo"; "niveau_mbo"] df_join in
    let* df_reg_group := group_summary df_reg ["regio_mbo"] in
    if has_column "regio_ho" (columns df_join)
    then
      let df_flow := df_join in
      let* s := groupby_sum df_flow ["regio_mbo"; "regio_ho"] teller_name in
      let* df_flow_group :=
        reset_index ["regio_mbo"; "regio_ho"] s teller_name in
      Ok (Some (df_reg_group, Some df_flow_group))
    else Ok (Some (df_reg_group, None)).


(** Both sides leave [jaar] unmapped and map [sector_mbo]. *)
Definition skip_jaar_teller : gmap string (option string) :=
  mk_map [("jaar", None); ("sector_mbo", Some "sector");
          ("aantal_ho_instromers", Some "n_ho")].
Definition skip_jaar_noemer : gmap string (option string) :=
  mk_map [("jaar", None); ("sector_mbo", Some "sector");
          ("aantal_mbo_gediplomeerden", Some "n_mbo")].

(** The table without the rows that miss a cell under the columns [on]
    ([df.dropna(subset=on)]). *)
Definition dropna_keys (df : DataFrame) (on : list string) : DataFrame :=
  mkDataFrame (columns df) (filter (complete_row df on) (rows df)).


(** The labels of the two dicts of functional labels. *)
Definition functional_labels : list string :=
  map fst labels_teller ++ map fst labels_noemer.


(** A cell that is an integer or a string. *)
Definition plain (v : value) : bool :=
  match v with
  | VInt _ | VStr _ => true
  | _ => false
  end.

(** A cell that is a fraction. *)
Definition is_float (v : value) : bool :=
  match v with
  | VFloat _ => true
  | _ => false
  end.

Section SortedBy.
Context {A : Type} (leb : A -> A -> bool).

(** Every element is below the elements after it. *)
Fixpoint sorted_by (l : list A) : Prop :=
  match l with
  | [] => True
  | x :: l' => (forall y, In y l' -> leb x y = true) /\ sorted_by l'
  end.
End SortedBy.

Definition plain_key (k : list value) : Prop := forallb plain k = true.

(** The same table with its rows in another order. *)
Definition reordered (df df' : DataFrame) : Prop :=
  columns df' = columns df /\ Permutation (rows df) (rows df').





(** No cell of [df] under the columns [on] is a fraction: the key cells are
    integers, strings or missing. *)
Definition no_float_keys (df : DataFrame) (on : list string) : Prop :=
  forall r c, In r (rows df) -> In c on -> is_float (cell_of df c r) = false.

(** Equality of two key cells by value, as [merge] compares the keys of two
    tables: an integer and a fraction are equal when they are the same
    number. *)
Definition same_value (a b : value) : bool :=
  match a, b with
  | VNa, VNa => true
  | VStr x, VStr y => String.eqb x y
  | VInt _, VInt _ | VInt _, VFloat _ | VFloat _, VInt _ | VFloat _, VFloat _ =>
      Qeq_bool (to_Q a) (to_Q b)
  | _, _ => false
  end.

Fixpoint same_key (a b : list value) : bool :=
  match a, b with
  | [], [] => true
  | x :: a', y :: b' => same_value x y && same_key a' b'
  | _, _ => false
  end.

(** The range of a 64-bit integer. *)
Definition int64 (z : Z) : Prop := (- 2 ^ 63 <= z < 2 ^ 63)%Z.

(** The absolute values of the counts of column [col], added up. *)
Definition abs_total (df : DataFrame) (col : string) : Z :=
  sum_Z (map (fun r => Z.abs (int_of (cell_of df col r))) (rows df)).

(** The counts of column [col] fit: their absolute values add up to less
    than 2^63, so no sum of some of them, in whatever order it is
    accumulated, leaves the range of a 64-bit integer. *)
Definition counts_fit (df : DataFrame) (col : string) : Prop :=
  (abs_total df col < 2 ^ 63)%Z.


(** The rows of [df] whose key under the columns [on] is, by value, one of
    [keys]. *)
Definition rows_with_keys (df : DataFrame) (on : list string)
    (keys : list (list value)) : DataFrame :=
  mkDataFrame (columns df)
    (filter (fun r => existsb (same_key (key_of df on r)) keys) (rows df)).
Example suggest_jaar :
  suggest_default "jaar" ["Instelling"; "PEILDATUM"; "Jaar"] = Some "PEILDATUM".
Proof. reflexivity. Qed.

Example suggest_aantal :
  suggest_default "aantal_ho_instromers" ["jaar"; "Studenten"] = Some "Studenten".
Proof. reflexivity. Qed.

Example suggest_nothing :
  suggest_default "regio_mbo" ["jaar"; "sector"] = None.
Proof. reflexivity. Qed.

Lemma suggest_hit_rule label c : suggest_hit label c = rule_matches label c.
Proof.
  unfold suggest_hit, rule_matches, rule_generic, rule_jaar, rule_instelling,
    rule_sector, rule_regio, rule_aantal.
  cbv zeta.
  repeat match goal with
         | |- context [if ?b then true else _] => destruct b; cbn [orb andb]
         end; reflexivity.
Qed.

(** C9.  [suggest_default] is a function of its two arguments alone (it is
    embedded as a Rocq function, the source reads nothing else), so equal
    inputs give equal outputs whatever was called before; its value is the
    first column of [cols], in list order, that satisfies one of the
    substring or keyword rules, and it is [None] exactly when no column
    satisfies any rule. *)
Theorem suggest_default_first_match (label : string) (cols : list string) :
  suggest_default label cols = find (rule_matches label) cols
  /\ match suggest_default label cols with
     | Some c =>
         exists pre post,
           cols = pre ++ c :: post
           /\ rule_matches label c = true
           /\ Forall (fun c' => rule_matches label c' = false) pre
     | None => Forall (fun c' => rule_matches label c' = false) cols
     end.
Proof.
  split.
  - induction cols as [|c cols IH]; cbn; [reflexivity|].
    rewrite suggest_hit_rule, IH. reflexivity.
  - induction cols as [|c cols IH]; cbn; [constructor|].
    rewrite suggest_hit_rule.
    destruct (rule_matches label c) eqn:Hc.
    + exists [], cols. repeat split; auto.
    + destruct (suggest_default label cols) as [d|].
      * destruct IH as (pre & post & -> & Hd & Hpre).
        exists (c :: pre), post. repeat split; auto.
      * constructor; assumption.
Qed.

Example scenario_1 :
  combine_call sc_teller sc_noemer sc_map_teller sc_map_noemer
    ["jaar"; "sector_mbo"]
  = Ok (Some (mkDataFrame
                ["jaar"; "sector_mbo"; teller_name; noemer_name; pct_name]
                [[VInt 2021; VStr "Zorg"; VInt 50; VInt 200;
                  VFloat (inject_Z 50 / inject_Z 200 * 100)]])).
Proof. vm_compute. reflexivity. Qed.

(* ===================================================================== *)
(** ** Facts about the primitives *)
(* ===================================================================== *)

Lemma prefix_append (p b : string) : String.prefix p (p ++ b)%string = true.
Proof.
  induction p as [|c p IH]; simpl; [destruct b; reflexivity|].
  destruct (Ascii.ascii_dec c c); [exact IH|congruence].
Qed.

Lemma contains_prefix (s p : string) :
  String.prefix p s = true -> PyStr.contains s p = true.
Proof.
  intros H. destruct s; cbn [PyStr.contains]; rewrite H; reflexivity.
Qed.

Lemma substring_contains (a p b : string) :
  PyStr.contains (a ++ p ++ b)%string p = true.
Proof.
  induction a as [|c a IH].
  - apply contains_prefix. exact (prefix_append p b).
  - change (String c a ++ p ++ b)%string with (String c (a ++ p ++ b)%string).
    cbn [PyStr.contains]. rewrite IH.
    destruct (String.prefix p (String c (a ++ p ++ b))); reflexivity.
Qed.

Lemma contains_substring (s p : string) :
  PyStr.contains s p = true -> exists a b, s = (a ++ p ++ b)%string.
Proof.
  assert (Hpre : forall p s, String.prefix p s = true ->
                             exists b, s = (p ++ b)%string).
  { clear. induction p as [|c p IH]; intros s H.
    - exists s. reflexivity.
    - destruct s as [|d s]; cbn in H; [discriminate|].
      destruct (Ascii.ascii_dec c d) as [->|]; [|discriminate].
      destruct (IH _ H) as [b ->]. exists b. reflexivity. }
  induction s as [|c s IH]; cbn [PyStr.contains]; intros H.
  - destruct (String.prefix p "") eqn:E; [|discriminate].
    destruct (Hpre _ _ E) as [b Hb]. exists "", b. exact Hb.
  - destruct (String.prefix p (String c s)) eqn:E.
    + destruct (Hpre _ _ E) as [b Hb]. exists "", b. exact Hb.
    + destruct (IH H) as (a & b & ->). exists (String c a), b. reflexivity.
Qed.

Lemma value_eqb_eq (a b : value) : value_eqb a b = true <-> a = b.
Proof.
  destruct a as [|x|x|x], b as [|y|y|y]; cbn; try (split; congruence).
  - rewrite Z.eqb_eq. split; congruence.
  - rewrite andb_true_iff, Z.eqb_eq, Pos.eqb_eq.
    destruct x, y; cbn. split; [intros [-> ->]; reflexivity|].
    intros H; injection H; auto.
  - rewrite String.eqb_eq. split; congruence.
Qed.

Lemma value_eqb_refl (a : value) : value_eqb a a = true.
Proof. apply value_eqb_eq. reflexivity. Qed.

Lemma key_eqb_eq (a b : list value) : key_eqb a b = true <-> a = b.
Proof.
  revert b. induction a as [|x a IH]; intros [|y b]; cbn;
    try (split; congruence).
  rewrite andb_true_iff, value_eqb_eq, IH. split.
  - intros [-> ->]. reflexivity.
  - intros H; injection H; auto.
Qed.

Lemma key_eqb_refl (a : list value) : key_eqb a a = true.
Proof. apply key_eqb_eq. reflexivity. Qed.

Lemma key_eqb_neq (a b : list value) : key_eqb a b = false <-> a <> b.
Proof.
  rewrite <- key_eqb_eq. destruct (key_eqb a b); split; congruence.
Qed.

Section SortingFacts.
Context {A : Type} (leb : A -> A -> bool).

Lemma insert_sorted_perm (x : A) (l : list A) :
  Permutation (insert_sorted leb x l) (x :: l).
Proof.
  induction l as [|y l IH]; cbn; [reflexivity|].
  destruct (leb x y); [reflexivity|].
  rewrite IH. apply perm_swap.
Qed.

Lemma sort_by_perm (l : list A) : Permutation (sort_by leb l) l.
Proof.
  induction l as [|x l IH]; cbn; [reflexivity|].
  rewrite insert_sorted_perm, IH. reflexivity.
Qed.

Lemma sort_by_In (x : A) (l : list A) : In x (sort_by leb l) <-> In x l.
Proof.
  split; apply Permutation_in;
    [apply sort_by_perm | symmetry; apply sort_by_perm].
Qed.

Lemma sort_by_NoDup (l : list A) : NoDup l -> NoDup (sort_by leb l).
Proof.
  apply Permutation_NoDup. symmetry. apply sort_by_perm.
Qed.
End SortingFacts.

Section UniqueFacts.
Context {A : Type} (eqb : A -> A -> bool).
Hypothesis eqb_eq : forall x y, eqb x y = true <-> x = y.

Lemma unique_by_In (x : A) (l : list A) : In x (unique_by eqb l) <-> In x l.
Proof.
  induction l as [|y l IH]; cbn; [reflexivity|].
  rewrite filter_In, IH. split.
  - intros [H|[H _]]; auto.
  - intros [H|H]; auto.
    destruct (eqb y x) eqn:E.
    + left. apply eqb_eq. exact E.
    + right. split; auto.
Qed.

Lemma unique_by_NoDup (l : list A) : NoDup (unique_by eqb l).
Proof.
  induction l as [|y l IH]; cbn; constructor.
  - rewrite filter_In. intros [_ H].
    assert (E : eqb y y = true) by (apply eqb_eq; reflexivity).
    rewrite E in H. discriminate.
  - apply NoDup_filter. exact IH.
Qed.
End UniqueFacts.

Lemma has_column_In (name : string) (cols : list string) :
  has_column name cols = true <-> In name cols.
Proof.
  unfold has_column. rewrite existsb_exists. split.
  - intros (c & Hc & E). apply String.eqb_eq in E. subst. exact Hc.
  - intros H. exists name. split; [exact H|apply String.eqb_refl].
Qed.

Lemma has_column_false (name : string) (cols : list string) :
  has_column name cols = false <-> ~ In name cols.
Proof.
  rewrite <- has_column_In. destruct (has_column name cols); split; congruence.
Qed.

Lemma index_of_Some (name : string) (cols : list string) (i : nat) :
  index_of name cols = Some i -> (i < length cols)%nat /\ nth i cols "" = name.
Proof.
  revert i. induction cols as [|c cols IH]; cbn; intros i H; [discriminate|].
  destruct (String.eqb_spec c name) as [->|Hne].
  - injection H as <-. split; [lia|reflexivity].
  - destruct (index_of name cols) as [j|]; [|discriminate].
    injection H as <-. destruct (IH j eq_refl). split; [lia|assumption].
Qed.

Lemma index_of_None (name : string) (cols : list string) :
  index_of name cols = None <-> ~ In name cols.
Proof.
  induction cols as [|c cols IH]; cbn; [tauto|].
  destruct (String.eqb_spec c name) as [->|Hne].
  - split; [discriminate|tauto].
  - destruct (index_of name cols) as [j|] eqn:E.
    + split; [discriminate|]. intros H. exfalso. apply H. right.
      apply index_of_Some in E. destruct E as [Hlt Hnth].
      rewrite <- Hnth. apply nth_In. exact Hlt.
    + split; [|reflexivity]. intros _ [H|H]; [congruence|].
      apply IH; auto.
Qed.

Lemma existsb_ext_In {A} (f : A -> bool) (l l' : list A) :
  (forall x, In x l <-> In x l') -> existsb f l = existsb f l'.
Proof.
  intros H. apply eq_true_iff_eq. rewrite !existsb_exists.
  split; intros (x & Hx & Hf); exists x; split; auto; apply H; auto.
Qed.

Lemma isin_In (v : value) (V : list value) : isin v V = true <-> In v V.
Proof.
  unfold isin. rewrite existsb_exists. split.
  - intros (x & Hx & E). apply value_eqb_eq in E. subst. exact Hx.
  - intros H. exists v. split; [exact H|apply value_eqb_refl].
Qed.

Lemma dropna_In (v : value) (l : list value) :
  In v (dropna l) <-> In v l /\ is_na v = false.
Proof.
  unfold dropna. rewrite filter_In, negb_true_iff. reflexivity.
Qed.

Lemma has_column_index (name : string) (cols : list string) :
  has_column name cols = true -> exists i, index_of name cols = Some i.
Proof.
  intros H. destruct (index_of name cols) as [i|] eqn:E; [eauto|].
  apply index_of_None in E. apply has_column_In in H. contradiction.
Qed.

(** The options are the distinct non-missing cells of the column. *)
Lemma filter_options_In (T : DataFrame) (C : string) (unieke : list value) :
  filter_options T C = Ok unieke ->
  forall v, In v unieke <-> In v (column_values T C) /\ is_na v = false.
Proof.
  unfold filter_options, column_position, column_values, cell_of, py_sorted.
  destruct (index_of C (columns T)) as [i|]; cbn [bind]; [|discriminate].
  destruct (_ && _); [discriminate|].
  intros H v. injection H as <-.
  rewrite sort_by_In, (unique_by_In _ value_eqb_eq), dropna_In. reflexivity.
Qed.

Lemma filter_options_ok (T : DataFrame) (C : string) :
  has_column C (columns T) = true ->
  mixed_kinds (dropna (column_values T C)) = false ->
  exists unieke, filter_options T C = Ok unieke.
Proof.
  intros Hc Hm. destruct (has_column_index _ _ Hc) as [i Hi].
  unfold filter_options, column_position, py_sorted.
  unfold column_values, cell_of in Hm. rewrite Hi in *. cbn [bind].
  unfold mixed_kinds in Hm.
  change (map (fun r => cell i r) (rows T)) with (map (cell i) (rows T)) in Hm.
  rewrite !(existsb_ext_In _ (unique_by value_eqb (dropna (map (cell i) (rows T))))
             (dropna (map (cell i) (rows T)))), Hm by
    (intros x; apply (unique_by_In _ value_eqb_eq)).
  eauto.
Qed.

Lemma apply_filter_present (T : DataFrame) (C : string)
    (ui : list value -> list value -> list value) (unieke : list value) :
  has_column C (columns T) = true ->
  filter_options T C = Ok unieke ->
  apply_filter T C ui
  = Ok (match ui unieke unieke with
        | [] => T
        | _ :: _ =>
            mkDataFrame (columns T)
              (filter (fun r => isin (cell_of T C r) (ui unieke unieke))
                      (rows T))
        end).
Proof.
  intros Hc Ho. unfold apply_filter. rewrite Hc, Ho. cbn [negb bind].
  destruct (ui unieke unieke); reflexivity.
Qed.

(** C8.  [apply_filter] returns the table unchanged when the column is
    absent; when the column is present (and its options can be sorted) it
    returns the table unchanged for an empty selection, and for a non-empty
    selection [V] the rows whose cell in that column is a member of [V], so
    every cell of the column in the result is in [V]. *)
Theorem apply_filter_spec (T : DataFrame) (C : string)
    (ui : list value -> list value -> list value) :
  (has_column C (columns T) = false -> apply_filter T C ui = Ok T)
  /\ (forall unieke,
        has_column C (columns T) = true ->
        filter_options T C = Ok unieke ->
        let V := ui unieke unieke in
        (V = [] -> apply_filter T C ui = Ok T)
        /\ (V <> [] ->
            exists T',
              apply_filter T C ui = Ok T'
              /\ columns T' = columns T
              /\ rows T' = filter (fun r => isin (cell_of T C r) V) (rows T)
              /\ Forall (fun r => In (cell_of T' C r) V) (rows T'))).
Proof.
  split.
  - intros H. unfold apply_filter. rewrite H. reflexivity.
  - intros unieke Hc Ho V.
    rewrite (apply_filter_present T C ui unieke Hc Ho). fold V. split.
    + intros ->. reflexivity.
    + intros HV. destruct V as [|v V'] eqn:EV; [congruence|].
      eexists. split; [reflexivity|]. cbn [columns rows].
      repeat split.
      apply Forall_forall. intros r Hr. apply filter_In in Hr.
      destruct Hr as [_ Hr]. apply isin_In in Hr. exact Hr.
Qed.

(** C10 as stated fails when every cell of the column is missing: the
    options, and with them the default selection, are empty, and an empty
    selection means no restriction. *)
Lemma apply_filter_default_all_missing_identity :
  ~ (forall (T : DataFrame) (C : string),
        has_column C (columns T) = true ->
        (exists r, In r (rows T) /\ is_na (cell_of T C r) = true) ->
        apply_filter T C keep_default <> Ok T).
Proof.
  intros H.
  apply (H (mkDataFrame ["regio"; "n"] [[VNa; VInt 3]; [VNa; VInt 4]]) "regio").
  - reflexivity.
  - exists [VNa; VInt 3]. split; [left; reflexivity|reflexivity].
  - reflexivity.
Qed.

(** C10, amended.  When the column holds a missing cell and at least one
    cell that is not missing, filtering with the default selection (all the
    distinct non-missing values) is not the identity: it keeps exactly the
    rows whose cell is not missing. *)
Theorem apply_filter_default_drops_missing (T : DataFrame) (C : string) :
  has_column C (columns T) = true ->
  mixed_kinds (dropna (column_values T C)) = false ->
  (exists r, In r (rows T) /\ is_na (cell_of T C r) = true) ->
  (exists r, In r (rows T) /\ is_na (cell_of T C r) = false) ->
  exists T',
    apply_filter T C keep_default = Ok T'
    /\ T' <> T
    /\ columns T' = columns T
    /\ rows T' = filter (fun r => negb (is_na (cell_of T C r))) (rows T).
Proof.
  intros Hc Hm (rm & Hrm & Hna) (rv & Hrv & Hval).
  destruct (filter_options_ok T C Hc Hm) as [unieke Ho].
  pose proof (filter_options_In T C unieke Ho) as Hin.
  assert (Hsel : forall r, In r (rows T) ->
                           isin (cell_of T C r) unieke
                           = negb (is_na (cell_of T C r))).
  { intros r Hr. apply eq_true_iff_eq.
    rewrite isin_In, Hin, negb_true_iff. unfold column_values.
    split; [tauto|]. intros E. split; [|exact E]. apply in_map. exact Hr. }
  assert (Hne : unieke <> []).
  { intros ->. apply (Hin (cell_of T C rv)). split; [|exact Hval].
    unfold column_values. apply in_map. exact Hrv. }
  rewrite (apply_filter_present T C keep_default unieke Hc Ho).
  unfold keep_default. destruct unieke as [|u us] eqn:Eu; [congruence|].
  rewrite <- Eu in *. eexists. split; [reflexivity|].
  assert (Hrows : filter (fun r => isin (cell_of T C r) unieke) (rows T)
                  = filter (fun r => negb (is_na (cell_of T C r))) (rows T))
    by (apply filter_ext_in; exact Hsel).
  rewrite Hrows. repeat split.
  intros E. apply (f_equal rows) in E. cbn [rows] in E.
  assert (Hin' : In rm (rows T)) by exact Hrm.
  rewrite <- E in Hin'. apply filter_In in Hin'. destruct Hin' as [_ Hsel'].
  rewrite Hna in Hsel'. discriminate.
Qed.

Lemma apply_filter_spec_witness :
  let T := mkDataFrame ["jaar"; "n"]
             [[VInt 2021; VInt 5]; [VInt 2020; VInt 7]; [VNa; VInt 1]] in
  apply_filter T "sector" (choose [VInt 2021]) = Ok T
  /\ apply_filter T "jaar" (choose []) = Ok T
  /\ exists T',
       apply_filter T "jaar" (choose [VInt 2021]) = Ok T'
       /\ columns T' = columns T
       /\ rows T' = [[VInt 2021; VInt 5]]
       /\ Forall (fun r => In (cell_of T' "jaar" r) [VInt 2021]) (rows T').
Proof.
  intros T.
  destruct (apply_filter_spec T "sector" (choose [VInt 2021])) as [Habs _].
  destruct (apply_filter_spec T "jaar" (choose [])) as [_ Hempty].
  destruct (apply_filter_spec T "jaar" (choose [VInt 2021])) as [_ Hsel].
  split; [apply Habs; reflexivity|].
  split.
  - apply (Hempty [VInt 2020; VInt 2021]); reflexivity.
  - destruct (Hsel [VInt 2020; VInt 2021] eq_refl eq_refl) as [_ H].
    destruct H as (T' & H1 & H2 & H3 & H4); [discriminate|].
    exists T'. repeat split; assumption.
Defined.

Lemma apply_filter_default_drops_missing_witness :
  let T := mkDataFrame ["jaar"; "n"]
             [[VInt 2021; VInt 5]; [VNa; VInt 1]; [VInt 2020; VInt 7]] in
  exists T',
    apply_filter T "jaar" keep_default = Ok T'
    /\ T' <> T
    /\ columns T' = columns T
    /\ rows T' = filter (fun r => negb (is_na (cell_of T "jaar" r))) (rows T).
Proof.
  intros T. apply (apply_filter_default_drops_missing T "jaar").
  - reflexivity.
  - reflexivity.
  - exists [VNa; VInt 1]. split; [right; left; reflexivity|reflexivity].
  - exists [VInt 2021; VInt 5]. split; [left; reflexivity|reflexivity].
Defined.

(* ===================================================================== *)
(** ** Loading: what the two blocks try *)
(* ===================================================================== *)

Lemma noemer_inner_tried (read_csv : reader) enc seps s :
  tried s = true -> noemer_inner read_csv enc seps s = inl s.
Proof. intros H. destruct seps; cbn; [|rewrite H]; reflexivity. Qed.

Lemma noemer_outer_tried (read_csv : reader) encs seps s :
  tried s = true -> noemer_outer read_csv encs seps s = inl s.
Proof.
  intros H. induction encs as [|enc encs IH]; cbn; [reflexivity|].
  rewrite noemer_inner_tried by exact H. exact IH.
Qed.

(** On a file read in one piece the teller block stands or falls with its
    first attempt. *)
Lemma load_teller_one_piece (read_csv : reader) (len : nat) :
  read_in_one_piece read_csv len ->
  load_teller read_csv 0
  = match fst (read_csv 0%nat Comma Utf8 CEngine) with
    | inl df => Loaded df
    | inr e => Uncaught (if caught e then EmptyDataError else e)
    end.
Proof.
  intros [Hend Hempty]. unfold load_teller.
  pose proof (Hend 0%nat Comma Utf8 CEngine) as Hp.
  destruct (read_csv 0%nat Comma Utf8 CEngine) as [[df|e] p].
  - reflexivity.
  - cbn [snd] in Hp. subst p. cbn [fst].
    destruct e; cbn [caught]; try reflexivity; rewrite Hempty; reflexivity.
Qed.

(** So does the noemer block: after a first attempt that fails with a
    decoding or a parsing error the second attempt finds the handle at its
    end. *)
Lemma load_noemer_one_piece (read_csv : reader) (len : nat) :
  read_in_one_piece read_csv len ->
  load_noemer read_csv 0
  = match fst (read_csv 0%nat Comma Utf8 CEngine) with
    | inl df => Loaded df
    | inr e => Uncaught (if caught e then EmptyDataError else e)
    end.
Proof.
  intros [Hend Hempty]. unfold load_noemer, noemer_encodings, noemer_separators.
  cbn [noemer_outer noemer_inner tried handle_pos df_noemer_var].
  pose proof (Hend 0%nat Comma Utf8 CEngine) as Hp.
  destruct (read_csv 0%nat Comma Utf8 CEngine) as [[df|e] p].
  - cbn. reflexivity.
  - cbn [snd] in Hp. subst p. cbn [fst].
    destruct e; cbn [caught]; try reflexivity;
      cbn [noemer_inner tried handle_pos]; rewrite Hempty; reflexivity.
Qed.

Lemma latin1_semicolon_one_piece (df : DataFrame) (len : nat) :
  read_in_one_piece (latin1_semicolon_file df (S len)) (S len).
Proof.
  split.
  - intros [|pos] sep enc eng; reflexivity.
  - intros sep enc eng. reflexivity.
Qed.

(** C7.  Neither block gets beyond its first attempt.  Both pass the one
    upload handle to every [pd.read_csv] and never rewind it, so on a file
    that is read in one piece every attempt after the first finds the
    handle at its end and raises [EmptyDataError], for which neither block
    has an [except] clause.  Hence, for such a file, each block loads the
    table exactly when UTF-8 with a comma parses; when that first attempt
    fails with a decoding or a parsing error, [EmptyDataError] leaves the
    block (the teller's in its fallback, the noemer's in its second
    combination); no later combination of the cross ever loads the file and
    the message of [st.error] is never shown.  On a Latin-1 file with
    semicolons, which the combination Latin-1 with semicolon would parse,
    both blocks end with the escaping [EmptyDataError]. *)
Theorem loaders_stop_after_first_attempt :
  (forall (read_csv : reader) (len : nat),
     read_in_one_piece read_csv len ->
     (forall df,
        load_teller read_csv 0 = Loaded df
        <-> fst (read_csv 0%nat Comma Utf8 CEngine) = inl df)
     /\ (forall df,
           load_noemer read_csv 0 = Loaded df
           <-> fst (read_csv 0%nat Comma Utf8 CEngine) = inl df)
     /\ (forall e,
           fst (read_csv 0%nat Comma Utf8 CEngine) = inr e ->
           load_teller read_csv 0
           = Uncaught (if caught e then EmptyDataError else e)
           /\ load_noemer read_csv 0
              = Uncaught (if caught e then EmptyDataError else e))
     /\ load_teller read_csv 0 <> Reported
     /\ load_noemer read_csv 0 <> Reported)
  /\ (forall df len,
        fst (latin1_semicolon_file df (S len) 0%nat Semicolon Latin1 CEngine)
        = inl df
        /\ load_teller (latin1_semicolon_file df (S len)) 0
           = Uncaught EmptyDataError
        /\ load_noemer (latin1_semicolon_file df (S len)) 0
           = Uncaught EmptyDataError).
Proof.
  split.
  - intros read_csv len H.
    rewrite (load_teller_one_piece read_csv len H),
            (load_noemer_one_piece read_csv len H).
    destruct (fst (read_csv 0%nat Comma Utf8 CEngine)) as [d|e0].
    + split; [intros df; split; intros [= ->]; reflexivity|].
      split; [intros df; split; intros [= ->]; reflexivity|].
      split; [intros e; discriminate|]. split; discriminate.
    + split; [intros df; split; discriminate|].
      split; [intros df; split; discriminate|].
      split; [intros e [= <-]; split; reflexivity|]. split; discriminate.
  - intros df len. split; [reflexivity|].
    rewrite (load_teller_one_piece _ _ (latin1_semicolon_one_piece df len)),
            (load_noemer_one_piece _ _ (latin1_semicolon_one_piece df len)).
    split; reflexivity.
Qed.

Lemma loaders_stop_after_first_attempt_witness :
  read_in_one_piece (latin1_semicolon_file sc_teller 40) 40
  /\ load_teller (latin1_semicolon_file sc_teller 40) 0 <> Reported
  /\ load_noemer (latin1_semicolon_file sc_teller 40) 0 <> Reported.
Proof.
  pose proof (latin1_semicolon_one_piece sc_teller 39) as H.
  split; [exact H|].
  exact (proj2 (proj2 (proj2 (proj1 loaders_stop_after_first_attempt
                                (latin1_semicolon_file sc_teller 40) 40 H)))).
Defined.


(* ===================================================================== *)
(** ** The early returns of [combine_teller_noemer] *)
(* ===================================================================== *)

Lemma bind_Ok_inv {A B} (r : result A) (f : A -> result B) (b : B) :
  bind r f = Ok b -> exists a, r = Ok a /\ f a = Ok b.
Proof. destruct r; cbn; [eauto|discriminate]. Qed.

Lemma bind_assoc {A B C} (r : result A) (f : A -> result B) (g : B -> result C) :
  bind (bind r f) g = bind r (fun a => bind (f a) g).
Proof. destruct r; reflexivity. Qed.

Lemma truthy_Some (c : string) : PyStr.truthy (Some c) = true <-> c <> "".
Proof.
  cbn. rewrite negb_true_iff. destruct (String.eqb_spec c ""); split; congruence.
Qed.

Lemma combine_teller_noemer_unfold T N mt mn Lt Ln :
  combine_teller_noemer T N mt mn Lt Ln
  = match dict_get mt "aantal_ho_instromers",
          dict_get mn "aantal_mbo_gediplomeerden" with
    | Some ct, Some cn =>
        if negb (PyStr.truthy (Some ct)) || negb (PyStr.truthy (Some cn))
        then Ok None
        else if negb (has_column ct (columns T)) || negb (has_column cn (columns N))
        then Ok None
        else if Nat.eqb (length (resolve_join_cols (columns T) mt Lt)) 0
                || negb (Nat.eqb (length (resolve_join_cols (columns T) mt Lt))
                                 (length (resolve_join_cols (columns N) mn Ln)))
        then Ok None
        else let* J := pipeline T N ct cn
                         (resolve_join_cols (columns T) mt Lt)
                         (resolve_join_cols (columns N) mn Ln) Lt Ln in
             Ok (Some J)
    | _, _ => Ok None
    end.
Proof.
  unfold combine_teller_noemer, pipeline.
  destruct (dict_get mt _) as [ct|]; [|reflexivity].
  destruct (dict_get mn _) as [cn|]; [|reflexivity].
  repeat match goal with |- context [if ?b then Ok None else _] =>
                           destruct b; [reflexivity|] end.
  destruct (groupby_sum T _ ct); [|reflexivity]. cbn [bind].
  destruct (reset_index _ _ teller_name); [|reflexivity]. cbn [bind].
  destruct (groupby_sum N _ cn); [|reflexivity]. cbn [bind].
  destruct (reset_index _ _ noemer_name); [|reflexivity]. cbn [bind].
  destruct (merge_inner _ _ _); [|reflexivity]. cbn [bind].
  destruct (add_percentage _); reflexivity.
Qed.

Lemma label_resolved_dec T m label :
  label_resolved T m label \/ ~ label_resolved T m label.
Proof.
  unfold label_resolved. destruct (dict_get m label) as [c|].
  - destruct (String.eqb_spec c "") as [->|Hne].
    + right. intros (c' & E & Hc & _). injection E as <-. congruence.
    + destruct (in_dec String.string_dec c (columns T)) as [Hin|Hnin].
      * left. eauto.
      * right. intros (c' & E & _ & Hc). injection E as <-. contradiction.
  - right. intros (c' & E & _). discriminate.
Qed.

(** When the guards pass the function runs the pipeline; otherwise it
    returns [None]. *)
Lemma combine_call_pass T N mt mn L :
  guards_pass T N mt mn L ->
  exists ct cn,
    dict_get mt "aantal_ho_instromers" = Some ct
    /\ dict_get mn "aantal_mbo_gediplomeerden" = Some cn
    /\ In ct (columns T) /\ In cn (columns N)
    /\ combine_call T N mt mn L
       = let* J := pipeline T N ct cn
                     (resolve_join_cols (columns T) mt L)
                     (resolve_join_cols (columns N) mn L) L L in
         Ok (Some J).
Proof.
  intros ((ct & Et & Hct & Hint) & (cn & En & Hcn & Hinn) & Hne & Hlen).
  exists ct, cn. repeat split; auto.
  unfold combine_call. rewrite combine_teller_noemer_unfold, Et, En.
  apply truthy_Some in Hct, Hcn. rewrite Hct, Hcn.
  apply has_column_In in Hint, Hinn. rewrite Hint, Hinn. cbn [negb orb].
  rewrite <- Hlen, Nat.eqb_refl.
  destruct (resolve_join_cols (columns T) mt L); [congruence|reflexivity].
Qed.

Lemma combine_call_fail T N mt mn L :
  ~ guards_pass T N mt mn L -> combine_call T N mt mn L = Ok None.
Proof.
  intros Hg. unfold combine_call. rewrite combine_teller_noemer_unfold.
  destruct (dict_get mt _) as [ct|] eqn:Et; [|reflexivity].
  destruct (dict_get mn _) as [cn|] eqn:En; [|reflexivity].
  destruct (PyStr.truthy (Some ct)) eqn:Tt; [|reflexivity].
  destruct (PyStr.truthy (Some cn)) eqn:Tn; [|reflexivity].
  destruct (has_column ct (columns T)) eqn:Ht; [|reflexivity].
  destruct (has_column cn (columns N)) eqn:Hn; [|reflexivity].
  cbn [negb orb].
  destruct (Nat.eqb_spec (length (resolve_join_cols (columns T) mt L)) 0)
    as [E0|E0]; [reflexivity|].
  destruct (Nat.eqb_spec (length (resolve_join_cols (columns T) mt L))
                         (length (resolve_join_cols (columns N) mn L)))
    as [E1|E1]; [|reflexivity].
  exfalso. apply Hg. unfold guards_pass, label_resolved.
  apply truthy_Some in Tt, Tn. apply has_column_In in Ht, Hn.
  repeat split; eauto.
  intros E. rewrite E in E0. apply E0. reflexivity.
Qed.

Lemma combine_call_None_iff T N mt mn L :
  combine_call T N mt mn L = Ok None <-> ~ guards_pass T N mt mn L.
Proof.
  split; [|apply combine_call_fail].
  intros H Hg. destruct (combine_call_pass _ _ _ _ _ Hg) as (ct & cn & _ & _ & _ & _ & E).
  rewrite E in H. destruct (pipeline _ _ _ _ _ _ _ _); discriminate.
Qed.

Lemma guards_pass_dec T N mt mn L :
  guards_pass T N mt mn L \/ ~ guards_pass T N mt mn L.
Proof.
  unfold guards_pass.
  destruct (label_resolved_dec T mt "aantal_ho_instromers");
    [|right; tauto].
  destruct (label_resolved_dec N mn "aantal_mbo_gediplomeerden");
    [|right; tauto].
  destruct (resolve_join_cols (columns T) mt L) as [|c cs] eqn:E;
    [right; tauto|].
  destruct (Nat.eq_dec (length (c :: cs))
                       (length (resolve_join_cols (columns N) mn L)));
    [left|right].
  - repeat split; auto; discriminate.
  - intros (_ & _ & _ & Hl). contradiction.
Qed.

Lemma combine_call_Some_inv T N mt mn L J :
  combine_call T N mt mn L = Ok (Some J) ->
  exists ct cn,
    dict_get mt "aantal_ho_instromers" = Some ct
    /\ dict_get mn "aantal_mbo_gediplomeerden" = Some cn
    /\ In ct (columns T) /\ In cn (columns N)
    /\ guards_pass T N mt mn L
    /\ pipeline T N ct cn (resolve_join_cols (columns T) mt L)
         (resolve_join_cols (columns N) mn L) L L = Ok J.
Proof.
  intros H. destruct (guards_pass_dec T N mt mn L) as [Hg|Hg].
  - destruct (combine_call_pass _ _ _ _ _ Hg) as (ct & cn & Et & En & Ht & Hn & E).
    exists ct, cn. do 5 (split; [assumption|]).
    rewrite E in H. destruct (pipeline _ _ _ _ _ _ _ _); cbn in H; congruence.
  - rewrite (combine_call_fail _ _ _ _ _ Hg) in H. discriminate.
Qed.



(* ===================================================================== *)
(** ** Lists, [mapM] and column names *)
(* ===================================================================== *)

Lemma mapM_Ok_map {A B} (f : A -> result B) (g : A -> B) (l : list A) :
  (forall x, In x l -> f x = Ok (g x)) -> mapM f l = Ok (map g l).
Proof.
  induction l as [|x l IH]; intros H; cbn; [reflexivity|].
  rewrite (H x) by (left; reflexivity). cbn [bind].
  rewrite IH by (intros y Hy; apply H; right; exact Hy). reflexivity.
Qed.

Lemma mapM_inv {A B} (f : A -> result B) (l : list A) (l' : list B) :
  mapM f l = Ok l' -> Forall2 (fun x y => f x = Ok y) l l'.
Proof.
  revert l'. induction l as [|x l IH]; intros l' H; cbn in H.
  - injection H as <-. constructor.
  - apply bind_Ok_inv in H. destruct H as (y & Hy & H).
    apply bind_Ok_inv in H. destruct H as (ys & Hys & H).
    injection H as <-. constructor; auto.
Qed.

Lemma mapM_ext_in {A B} (f g : A -> result B) (l : list A) :
  (forall x, In x l -> f x = g x) -> mapM f l = mapM g l.
Proof.
  induction l as [|x l IH]; intros H; cbn; [reflexivity|].
  rewrite (H x) by (left; reflexivity).
  rewrite IH by (intros y Hy; apply H; right; exact Hy). reflexivity.
Qed.

Lemma mapM_length {A B} (f : A -> result B) (l : list A) (l' : list B) :
  mapM f l = Ok l' -> length l' = length l.
Proof.
  intros H. apply mapM_inv in H. symmetry. eapply Forall2_length. exact H.
Qed.

Lemma mapM_map {A B C} (f : B -> result C) (g : A -> B) (l : list A) :
  mapM f (map g l) = mapM (fun x => f (g x)) l.
Proof.
  induction l as [|x l IH]; cbn; [reflexivity|]. rewrite IH. reflexivity.
Qed.

Lemma rev_ind2 {A B} (P : list A -> list B -> Prop) :
  P [] [] ->
  (forall l1 l2 a b, length l1 = length l2 -> P l1 l2 ->
                     P (l1 ++ [a]) (l2 ++ [b])) ->
  forall l1 l2, length l1 = length l2 -> P l1 l2.
Proof.
  intros H0 Hs l1. induction l1 as [|a l1 IH] using rev_ind; intros l2 Hl.
  - destruct l2; [exact H0|discriminate].
  - destruct l2 as [|b l2 _] using rev_ind.
    + rewrite length_app in Hl. cbn in Hl. lia.
    + rewrite !length_app in Hl. cbn in Hl.
      apply Hs; [lia|]. apply IH. lia.
Qed.

Lemma combine_snoc {A B} (l1 : list A) (l2 : list B) a b :
  length l1 = length l2 ->
  List.combine (l1 ++ [a]) (l2 ++ [b]) = List.combine l1 l2 ++ [(a, b)].
Proof.
  revert l2. induction l1 as [|x l1 IH]; intros [|y l2] H; cbn in *;
    try discriminate; [reflexivity|].
  rewrite IH by lia. reflexivity.
Qed.

Lemma count_column_app l a b :
  count_column l (a ++ b) = (count_column l a + count_column l b)%nat.
Proof. unfold count_column. rewrite filter_app, length_app. reflexivity. Qed.

Lemma count_column_zero l cols : count_column l cols = 0%nat <-> ~ In l cols.
Proof.
  unfold count_column. induction cols as [|c cols IH]; cbn; [tauto|].
  destruct (String.eqb_spec l c) as [->|Hne]; cbn.
  - split; [discriminate|tauto].
  - rewrite IH. split; [intros H [E|E]; [congruence|tauto]|tauto].
Qed.

Lemma count_column_NoDup l cols :
  NoDup cols -> In l cols -> count_column l cols = 1%nat.
Proof.
  unfold count_column. induction cols as [|c cols IH]; intros Hnd Hin;
    [destruct Hin|].
  inversion Hnd as [|? ? Hc Hnd']; subst. cbn.
  destruct (String.eqb_spec l c) as [->|Hne]; cbn.
  - f_equal. apply count_column_zero. exact Hc.
  - apply IH; [exact Hnd'|]. destruct Hin; [congruence|assumption].
Qed.

Lemma chain_app gl1 gl2 x : chain (gl1 ++ gl2) x = chain gl2 (chain gl1 x).
Proof. unfold chain. apply fold_left_app. Qed.

Lemma chain_notin gl x : ~ In x (map snd gl) -> chain gl x = x.
Proof.
  revert x. induction gl as [|[l c] gl IH]; intros x H; [reflexivity|].
  change (chain ((l, c) :: gl) x) with (chain gl (rename_step c l x)).
  cbn in H. unfold rename_step.
  destruct (String.eqb_spec x c) as [->|Hne]; [tauto|].
  apply IH. tauto.
Qed.

Lemma map_snd_combine {A B} (l1 : list A) (l2 : list B) :
  length l1 = length l2 -> map snd (List.combine l1 l2) = l2.
Proof.
  revert l2. induction l1 as [|x l1 IH]; intros [|y l2] H; cbn in *;
    try discriminate; [reflexivity|].
  rewrite IH by lia. reflexivity.
Qed.

Lemma map_fst_combine {A B} (l1 : list A) (l2 : list B) :
  length l1 = length l2 -> map fst (List.combine l1 l2) = l1.
Proof.
  revert l2. induction l1 as [|x l1 IH]; intros [|y l2] H; cbn in *;
    try discriminate; [reflexivity|].
  rewrite IH by lia. reflexivity.
Qed.

(** If, after the renamings, every label names exactly one column, then the
    renamings gave each key column its own label and left the measure
    column alone. *)
Lemma rename_inv (m : string) :
  forall ls cs, length ls = length cs ->
    NoDup ls -> NoDup cs -> ~ In m cs ->
    (forall l, In l ls ->
       count_column l (map (chain (List.combine ls cs)) (cs ++ [m])) = 1%nat) ->
    map (chain (List.combine ls cs)) (cs ++ [m]) = ls ++ [m].
Proof.
  apply (rev_ind2 (fun ls cs =>
    NoDup ls -> NoDup cs -> ~ In m cs ->
    (forall l, In l ls ->
       count_column l (map (chain (List.combine ls cs)) (cs ++ [m])) = 1%nat) ->
    map (chain (List.combine ls cs)) (cs ++ [m]) = ls ++ [m])).
  - intros _ _ _ _. reflexivity.
  - intros ls cs lk ck Hlen IH Hndl Hndc Hm Hcount.
    apply NoDup_remove in Hndl. rewrite app_nil_r in Hndl.
    destruct Hndl as [Hndl Hlk].
    apply NoDup_remove in Hndc. rewrite app_nil_r in Hndc.
    destruct Hndc as [Hndc Hck].
    assert (Hmk : m <> ck) by (intros ->; apply Hm; apply in_or_app; right; left; reflexivity).
    assert (Hm' : ~ In m cs) by (intros H; apply Hm; apply in_or_app; left; exact H).
    rewrite combine_snoc in * by exact Hlen.
    set (gl := List.combine ls cs) in *.
    assert (Hsnd : map snd gl = cs) by (apply map_snd_combine; exact Hlen).
    assert (Hch : forall x, chain (gl ++ [(lk, ck)]) x
                            = rename_step ck lk (chain gl x))
      by (intros x; rewrite chain_app; reflexivity).
    assert (Hck' : chain (gl ++ [(lk, ck)]) ck = lk).
    { rewrite Hch, chain_notin by (rewrite Hsnd; exact Hck).
      unfold rename_step. rewrite String.eqb_refl. reflexivity. }
    assert (Hmm : chain (gl ++ [(lk, ck)]) m = m).
    { apply chain_notin. rewrite map_app, Hsnd. cbn.
      intros H. apply in_app_or in H. destruct H as [H|[H|[]]]; [tauto|].
      cbn in H. congruence. }
    assert (Hmm0 : chain gl m = m) by (apply chain_notin; rewrite Hsnd; exact Hm').
    assert (Hfinal : map (chain (gl ++ [(lk, ck)])) ((cs ++ [ck]) ++ [m])
                     = map (chain (gl ++ [(lk, ck)])) cs ++ [lk] ++ [m]).
    { rewrite !map_app. cbn [map]. rewrite Hck', Hmm, <- app_assoc. reflexivity. }
    rewrite Hfinal in Hcount. rewrite Hfinal.
    assert (Hlk1 : count_column lk [lk] = 1%nat)
      by (unfold count_column; cbn; rewrite String.eqb_refl; reflexivity).
    (* the last label occurs once: no earlier column ends on it *)
    assert (Hin_lk : In lk (ls ++ [lk]))
      by (apply in_or_app; right; left; reflexivity).
    pose proof (Hcount lk Hin_lk) as Hone.
    rewrite !count_column_app, Hlk1 in Hone.
    assert (Hzero : count_column lk (map (chain (gl ++ [(lk, ck)])) cs) = 0%nat)
      by lia.
    rewrite count_column_zero in Hzero.
    assert (Hsame : map (chain (gl ++ [(lk, ck)])) cs = map (chain gl) cs).
    { apply map_ext_in. intros c Hc. rewrite Hch. unfold rename_step.
      destruct (String.eqb_spec (chain gl c) ck) as [E|E]; [|reflexivity].
      exfalso. apply Hzero. apply in_map_iff. exists c. split; [|exact Hc].
      rewrite Hch. unfold rename_step. rewrite E, String.eqb_refl. reflexivity. }
    rewrite Hsame in Hcount. rewrite Hsame.
    assert (IH' : map (chain gl) (cs ++ [m]) = ls ++ [m]).
    { apply IH; auto. intros l Hl.
      assert (Hne : l <> lk) by (intros ->; contradiction).
      assert (Hin_l : In l (ls ++ [lk])) by (apply in_or_app; left; exact Hl).
      pose proof (Hcount l Hin_l) as Hc.
      rewrite map_app. cbn [map]. rewrite Hmm0.
      rewrite !count_column_app in Hc. rewrite count_column_app.
      assert (H0 : count_column l [lk] = 0%nat).
      { apply count_column_zero. intros [E|[]]. congruence. }
      lia. }
    rewrite map_app in IH'. cbn [map] in IH'. rewrite Hmm0 in IH'.
    apply app_inj_tail in IH'. destruct IH' as [-> _].
    rewrite <- app_assoc. reflexivity.
Qed.


Lemma rename_forward (m : string) :
  forall ls cs, length ls = length cs ->
    NoDup cs -> ~ In m cs -> no_capture ls cs ->
    map (chain (List.combine ls cs)) (cs ++ [m]) = ls ++ [m].
Proof.
  induction ls as [|l ls IH]; intros [|c cs] Hlen Hnd Hm Hcap; cbn in Hlen;
    try discriminate; [reflexivity|].
  inversion Hnd as [|? ? Hc Hnd']; subst. destruct Hcap as [Hl Hcap].
  assert (Hstep : forall x, chain ((l, c) :: List.combine ls cs) x
                            = chain (List.combine ls cs) (rename_step c l x))
    by reflexivity.
  cbn [List.combine app map]. rewrite Hstep. unfold rename_step at 1.
  rewrite String.eqb_refl.
  rewrite (chain_notin _ l) by (rewrite map_snd_combine by lia; exact Hl).
  f_equal. rewrite <- (IH cs) by (auto; try lia; intros H; apply Hm; right; exact H).
  apply map_ext_in. intros x Hx. rewrite Hstep. unfold rename_step.
  destruct (String.eqb_spec x c) as [->|Hne]; [|reflexivity].
  exfalso. apply in_app_or in Hx. destruct Hx as [Hx|[Hx|[]]]; [contradiction|].
  apply Hm. left. congruence.
Qed.

Lemma insert_levels_Ok levels base cols :
  insert_levels levels base = Ok cols <->
  cols = levels ++ base /\ NoDup levels /\ (forall c, In c levels -> ~ In c base).
Proof.
  revert cols. induction levels as [|n levels IH]; intros cols; cbn.
  - split.
    + intros H. injection H as <-. repeat split; [constructor|tauto].
    + intros (-> & _). reflexivity.
  - split.
    + intros H. apply bind_Ok_inv in H. destruct H as (cols' & Hc & H).
      apply IH in Hc. destruct Hc as (-> & Hnd & Hdis).
      destruct (has_column n (levels ++ base)) eqn:E; [discriminate|].
      injection H as <-. apply has_column_false in E.
      repeat split.
      * constructor; [|exact Hnd]. intros Hin. apply E. apply in_or_app. tauto.
      * intros c [<-|Hc] Hb; [apply E; apply in_or_app; tauto|].
        apply (Hdis c Hc Hb).
    + intros (-> & Hnd & Hdis). inversion Hnd as [|? ? Hn Hnd']; subst.
      assert (Hrec : insert_levels levels base = Ok (levels ++ base)).
      { apply IH. repeat split; auto; intros c Hc; apply Hdis; right; exact Hc. }
      rewrite Hrec. cbn [bind].
      assert (E : has_column n (levels ++ base) = false).
      { apply has_column_false. intros H. apply in_app_or in H.
        destruct H as [H|H]; [contradiction|]. apply (Hdis n); [left; reflexivity|exact H]. }
      rewrite E. reflexivity.
Qed.

Lemma reset_index_Ok levels s name df :
  reset_index levels s name = Ok df <->
  NoDup (levels ++ [name])
  /\ df = mkDataFrame (levels ++ [name]) (map (fun kv => fst kv ++ [snd kv]) s).
Proof.
  unfold reset_index. split.
  - intros H. apply bind_Ok_inv in H. destruct H as (cols & Hc & H).
    injection H as <-. apply insert_levels_Ok in Hc.
    destruct Hc as (-> & Hnd & Hdis). split; [|reflexivity].
    apply NoDup_app; [exact Hnd|repeat constructor; tauto|].
    intros x Hx. exact (Hdis x Hx).
  - intros (Hnd & ->).
    assert (E : insert_levels levels [name] = Ok (levels ++ [name])).
    { apply insert_levels_Ok. split; [reflexivity|].
      split.
      - apply NoDup_app_remove_r in Hnd. exact Hnd.
      - intros c Hc [<-|[]]. apply NoDup_remove_2 in Hnd.
        rewrite app_nil_r in Hnd. contradiction. }
    rewrite E. reflexivity.
Qed.



Lemma rename_if_present_eq df kol generieke :
  rename_if_present df kol generieke
  = mkDataFrame (map (rename_step kol generieke) (columns df)) (rows df).
Proof.
  unfold rename_if_present, rename_column.
  destruct (has_column kol (columns df)) eqn:E; [reflexivity|].
  apply has_column_false in E. destruct df as [cols rs]. cbn in *. f_equal.
  transitivity (map (fun c : string => c) cols); [symmetry; apply map_id|].
  apply map_ext_in. intros c Hc. unfold rename_step.
  destruct (String.eqb_spec c kol) as [->|]; [contradiction|reflexivity].
Qed.

Lemma fold_rename_teller (gl : list (string * string * string)) df :
  rename_teller_keys gl df
  = mkDataFrame
      (map (chain (map (fun g => (fst (fst g), snd (fst g))) gl)) (columns df))
      (rows df).
Proof.
  unfold rename_teller_keys, rename_noemer_keys.
  revert df. induction gl as [|[[ge kt] kn] gl IH]; intros df; cbn [fold_left map].
  - destruct df. cbn. rewrite map_id. reflexivity.
  - rewrite IH, rename_if_present_eq. cbn [columns rows fst snd].
    rewrite map_map. reflexivity.
Qed.

Lemma fold_rename_noemer (gl : list (string * string * string)) df :
  rename_noemer_keys gl df
  = mkDataFrame
      (map (chain (map (fun g => (fst (fst g), snd g)) gl)) (columns df))
      (rows df).
Proof.
  unfold rename_teller_keys, rename_noemer_keys.
  revert df. induction gl as [|[[ge kt] kn] gl IH]; intros df; cbn [fold_left map].
  - destruct df. cbn. rewrite map_id. reflexivity.
  - rewrite IH, rename_if_present_eq. cbn [columns rows fst snd].
    rewrite map_map. reflexivity.
Qed.

Lemma generieke_labels_proj (L cs ds : list string) :
  length cs = length ds ->
  map (fun g => (fst (fst g), snd (fst g))) (generieke_labels L L cs ds)
  = List.combine L cs
  /\ map (fun g => (fst (fst g), snd g)) (generieke_labels L L cs ds)
     = List.combine L ds
  /\ map (fun g => match g with (generieke, _, _) => generieke end)
         (generieke_labels L L cs ds)
     = firstn (length cs) L.
Proof.
  unfold generieke_labels. revert cs ds.
  induction L as [|l L IH]; intros [|c cs] [|d ds] Hlen; cbn in *;
    try discriminate; auto.
  destruct (IH cs ds) as (H1 & H2 & H3); [lia|].
  rewrite H1, H2, H3. auto.
Qed.

Lemma combine_firstn {A B} (L : list A) (cs : list B) :
  List.combine L cs = List.combine (firstn (length cs) L) cs.
Proof.
  revert cs. induction L as [|l L IH]; intros [|c cs]; cbn; auto.
  f_equal. apply IH.
Qed.

Lemma resolve_join_cols_length cols m L :
  (length (resolve_join_cols cols m L) <= length L)%nat.
Proof.
  induction L as [|l L IH]; cbn; [lia|].
  destruct (dict_get m l) as [k|]; [|lia].
  destruct (_ && _); cbn; lia.
Qed.

Lemma resolve_join_cols_In cols m L c :
  In c (resolve_join_cols cols m L) -> In c cols.
Proof.
  induction L as [|l L IH]; cbn; [tauto|].
  destruct (dict_get m l) as [k|]; [|exact IH].
  destruct (PyStr.truthy (Some k) && has_column k cols) eqn:E; [|exact IH].
  intros [<-|H]; [|auto]. apply andb_true_iff in E. destruct E as [_ E].
  apply has_column_In. exact E.
Qed.

Lemma index_of_app_r name pre post :
  ~ In name pre ->
  index_of name (pre ++ name :: post) = Some (length pre).
Proof.
  induction pre as [|c pre IH]; intros H; cbn.
  - rewrite String.eqb_refl. reflexivity.
  - destruct (String.eqb_spec c name) as [->|Hne]; [exfalso; apply H; left; reflexivity|].
    rewrite IH; [reflexivity|]. intros Hin. apply H. right. exact Hin.
Qed.

Lemma key_position_NoDup name pre post :
  NoDup (pre ++ name :: post) ->
  key_position (pre ++ name :: post) name = Ok (length pre).
Proof.
  intros Hnd. unfold key_position.
  rewrite count_column_NoDup; [|exact Hnd|apply in_or_app; right; left; reflexivity].
  unfold column_position. rewrite index_of_app_r; [reflexivity|].
  apply NoDup_remove_2 in Hnd. intros H. apply Hnd. apply in_or_app. left. exact H.
Qed.

Lemma key_positions_seq pre ls post :
  NoDup (pre ++ ls ++ post) ->
  mapM (key_position (pre ++ ls ++ post)) ls = Ok (seq (length pre) (length ls)).
Proof.
  revert pre. induction ls as [|l ls IH]; intros pre Hnd; [reflexivity|].
  cbn [mapM length seq].
  change (pre ++ (l :: ls) ++ post) with (pre ++ l :: (ls ++ post)) in *.
  rewrite key_position_NoDup by exact Hnd. cbn [bind].
  assert (E : pre ++ l :: ls ++ post = (pre ++ [l]) ++ ls ++ post)
    by (rewrite <- app_assoc; reflexivity).
  rewrite E in *. rewrite IH by exact Hnd.
  rewrite length_app. cbn. replace (length pre + 1)%nat with (S (length pre)) by lia.
  reflexivity.
Qed.

Lemma key_position_count cols name i :
  key_position cols name = Ok i -> count_column name cols = 1%nat.
Proof.
  unfold key_position. destruct (count_column name cols) as [|[|n]];
    [discriminate|reflexivity|discriminate].
Qed.

Lemma project_seq_app (k : list value) (rest : list value) :
  project (seq 0 (length k)) (k ++ rest) = k.
Proof.
  unfold project, cell.
  assert (H : forall pre, map (fun i => nth i (pre ++ k ++ rest) VNa)
                              (seq (length pre) (length k)) = k).
  { induction k as [|x k IH]; intros pre; [reflexivity|].
    cbn [length seq map]. f_equal.
    - rewrite app_nth2 by lia. rewrite Nat.sub_diag. reflexivity.
    - specialize (IH (pre ++ [x])). rewrite length_app in IH. cbn in IH.
      replace (length pre + 1)%nat with (S (length pre)) in IH by lia.
      rewrite <- app_assoc in IH. exact IH. }
  exact (H []).
Qed.

Lemma cell_app_r (k : list value) (rest : list value) (j : nat) :
  cell (length k + j) (k ++ rest) = cell j rest.
Proof.
  unfold cell. rewrite app_nth2 by lia. f_equal. lia.
Qed.


Lemma rest_positions (k : nat) :
  filter (fun j => negb (existsb (Nat.eqb j) (seq 0 k))) (seq 0 (k + 1)) = [k].
Proof.
  assert (Hin : forall j, existsb (Nat.eqb j) (seq 0 k) = true <-> (j < k)%nat).
  { intros j. rewrite existsb_exists. split.
    - intros (x & Hx & E). apply Nat.eqb_eq in E. subst. apply in_seq in Hx. lia.
    - intros H. exists j. split; [apply in_seq; lia|apply Nat.eqb_refl]. }
  rewrite seq_app, filter_app. cbn [seq filter Nat.add].
  rewrite (filter_ext_in _ (fun _ => false)), filter_false.
  - destruct (existsb (Nat.eqb k) (seq 0 k)) eqn:E; [|reflexivity].
    apply Hin in E. lia.
  - intros j Hj. apply in_seq in Hj. apply negb_false_iff, Hin. lia.
Qed.

Lemma mapM_with_percentage (k : nat) (rs : list row) (pcts : list value) :
  mapM (fun r => percentage (cell k r) (cell (S k) r)) rs = Ok pcts ->
  mapM (with_percentage k) rs
  = Ok (map (fun rv => fst rv ++ [snd rv]) (List.combine rs pcts)).
Proof.
  revert pcts. induction rs as [|r rs IH]; intros pcts H; cbn in H.
  - injection H as <-. reflexivity.
  - apply bind_Ok_inv in H. destruct H as (p & Hp & H).
    apply bind_Ok_inv in H. destruct H as (ps & Hps & H).
    injection H as <-. cbn [mapM List.combine map fst snd].
    unfold with_percentage at 1. rewrite Hp. cbn [bind].
    rewrite (IH ps Hps). reflexivity.
Qed.

Lemma mapM_with_percentage_inv (k : nat) (rs rs' : list row) :
  mapM (with_percentage k) rs = Ok rs' ->
  exists pcts,
    mapM (fun r => percentage (cell k r) (cell (S k) r)) rs = Ok pcts.
Proof.
  revert rs'. induction rs as [|r rs IH]; intros rs' H; cbn in H.
  - exists []. reflexivity.
  - apply bind_Ok_inv in H. destruct H as (r' & Hr & H).
    apply bind_Ok_inv in H. destruct H as (rs1 & Hrs & H).
    unfold with_percentage in Hr. apply bind_Ok_inv in Hr.
    destruct Hr as (p & Hp & _). destruct (IH _ Hrs) as [ps Hps].
    exists (p :: ps). cbn. rewrite Hp. cbn. rewrite Hps. reflexivity.
Qed.

Lemma percentage_raise_mapM (k : nat) (rs : list row) e :
  mapM (fun r => percentage (cell k r) (cell (S k) r)) rs = Raise e ->
  mapM (with_percentage k) rs = Raise e.
Proof.
  induction rs as [|r rs IH]; cbn [mapM]; [discriminate|].
  unfold with_percentage at 1.
  destruct (percentage (cell k r) (cell (S k) r)) as [p|e'] eqn:Hp; cbn [bind].
  - destruct (mapM (fun r => percentage (cell k r) (cell (S k) r)) rs) eqn:E;
      cbn [bind]; intros H; [discriminate H|].
    rewrite (IH H). reflexivity.
  - intros H. injection H as <-. reflexivity.
Qed.



Lemma NoDup_snoc_notin {A} (l : list A) (x : A) :
  NoDup (l ++ [x]) -> NoDup l /\ ~ In x l.
Proof.
  intros H. split.
  - apply NoDup_app_remove_r in H. exact H.
  - apply NoDup_remove_2 in H. rewrite app_nil_r in H. exact H.
Qed.

Lemma flat_map_ext_in {A B} (f g : A -> list B) (l : list A) :
  (forall x, In x l -> f x = g x) -> flat_map f l = flat_map g l.
Proof.
  induction l as [|x l IH]; intros H; cbn; [reflexivity|].
  rewrite (H x) by (left; reflexivity).
  rewrite IH by (intros y Hy; apply H; right; exact Hy). reflexivity.
Qed.

(** [merge] on two grouped tables whose key columns carry the labels. *)
Lemma merge_grouped (ls : list string) (st sn : list (list value * value)) :
  NoDup (ls ++ [teller_name]) -> NoDup (ls ++ [noemer_name]) ->
  (forall a, In a st -> length (fst a) = length ls) ->
  (forall b, In b sn -> length (fst b) = length ls) ->
  merge_inner (mkDataFrame (ls ++ [teller_name]) (map series_row st))
              (mkDataFrame (ls ++ [noemer_name]) (map series_row sn)) ls
  = if keys_clash (length ls) (map series_row st) (map series_row sn)
    then Raise ValueError
    else Ok (mkDataFrame (ls ++ [teller_name; noemer_name]) (inner_join st sn)).
Proof.
  intros Hndt Hndn Hst Hsn. unfold merge_inner. cbn [columns rows].
  pose proof (key_positions_seq [] ls [teller_name] Hndt) as Hl.
  pose proof (key_positions_seq [] ls [noemer_name] Hndn) as Hr.
  cbn [app length] in Hl, Hr. rewrite Hl, Hr. clear Hl Hr.
  cbn [bind length]. fold (keys_clash (length ls) (map series_row st) (map series_row sn)).
  destruct (keys_clash _ _ _); [reflexivity|].
  rewrite length_app. cbn [length]. rewrite rest_positions.
  destruct (NoDup_snoc_notin _ _ Hndt) as [Hnd Ht].
  destruct (NoDup_snoc_notin _ _ Hndn) as [_ Hn].
  f_equal. f_equal.
  - (* columns *)
    cbn [map]. rewrite app_nth2 by lia. rewrite Nat.sub_diag. cbn [nth].
    assert (Hlnon : filter (fun c => negb (has_column c ls)) (ls ++ [teller_name])
                    = [teller_name]).
    { rewrite filter_app. rewrite (filter_ext_in _ (fun _ => false)), filter_false.
      - cbn. apply has_column_false in Ht. rewrite Ht. reflexivity.
      - intros c Hc. apply negb_false_iff. apply has_column_In. exact Hc. }
    rewrite Hlnon.
    assert (Hov : forall c, has_column c [teller_name] && has_column c [noemer_name]
                            = false).
    { intros c. unfold has_column. cbn.
      destruct (String.eqb_spec c teller_name) as [->|]; reflexivity. }
    rewrite Hov.
    rewrite (map_ext _ (fun c => c)), map_id.
    + rewrite <- app_assoc. reflexivity.
    + intros c. rewrite Hov, andb_false_r. reflexivity.
  - (* rows *)
    unfold inner_join. rewrite flat_map_concat_map, map_map, <- flat_map_concat_map.
    apply flat_map_ext_in. intros a Ha.
    rewrite filter_map_swap, map_map.
    assert (Hka : project (seq 0 (length ls)) (series_row a) = fst a).
    { unfold series_row. rewrite <- (Hst a Ha). apply project_seq_app. }
    rewrite Hka.
    rewrite (filter_ext_in _ (fun b => key_eqb (fst a) (fst b))).
    + apply map_ext_in. intros b Hb. apply filter_In in Hb. destruct Hb as [Hb _].
      unfold joined_row, series_row, project. cbn [map].
      rewrite <- (Hsn b Hb). rewrite <- (Nat.add_0_r (length (fst b))).
      rewrite cell_app_r. cbn. rewrite <- app_assoc. reflexivity.
    + intros b Hb. unfold series_row. rewrite <- (Hsn b Hb) at 1.
      rewrite project_seq_app. reflexivity.
Qed.



Lemma add_percentage_grouped (ls : list string) (rs : list row) :
  ~ In teller_name ls -> ~ In noemer_name ls -> ~ In pct_name ls ->
  add_percentage (mkDataFrame (ls ++ [teller_name; noemer_name]) rs)
  = let* rs' := mapM (with_percentage (length ls)) rs in
    Ok (mkDataFrame (ls ++ [teller_name; noemer_name; pct_name]) rs').
Proof.
  intros Ht Hn Hp. unfold add_percentage, column_position. cbn [columns rows].
  rewrite (index_of_app_r teller_name ls [noemer_name]) by exact Ht.
  assert (Hni : index_of noemer_name (ls ++ [teller_name; noemer_name])
                = Some (S (length ls))).
  { change (ls ++ [teller_name; noemer_name])
      with (ls ++ [teller_name] ++ noemer_name :: []).
    rewrite app_assoc, index_of_app_r.
    - rewrite length_app. cbn. f_equal. lia.
    - intros H. apply in_app_or in H. destruct H as [H|[H|[]]]; [tauto|discriminate]. }
  rewrite Hni. cbn [bind].
  destruct (mapM (fun r => percentage (cell (length ls) r) (cell (S (length ls)) r)) rs)
    as [pcts|e] eqn:E; cbn [bind].
  - rewrite (mapM_with_percentage _ _ _ E). cbn [bind].
    unfold set_column. cbn [columns rows].
    assert (Hpi : index_of pct_name (ls ++ [teller_name; noemer_name]) = None).
    { apply index_of_None. intros H. apply in_app_or in H.
      destruct H as [H|[H|[H|[]]]]; [tauto|discriminate|discriminate]. }
    rewrite Hpi, <- app_assoc. reflexivity.
  - rewrite (percentage_raise_mapM _ _ _ E). reflexivity.
Qed.

Lemma positions_length names cols idxs :
  positions names cols = Ok idxs -> length idxs = length names.
Proof. apply mapM_length. Qed.

Lemma groupby_sum_keys df keys col s :
  groupby_sum df keys col = Ok s ->
  exists idxs ci,
    positions keys (columns df) = Ok idxs
    /\ column_position col (columns df) = Ok ci
    /\ map fst s = group_keys idxs (filter (complete_key idxs) (rows df))
    /\ forall kv, In kv s ->
         sum_values (map (cell ci)
                       (filter (fun r => key_eqb (project idxs r) (fst kv))
                               (filter (complete_key idxs) (rows df))))
         = Ok (snd kv).
Proof.
  unfold groupby_sum. intros H.
  apply bind_Ok_inv in H. destruct H as (idxs & Hi & H).
  apply bind_Ok_inv in H. destruct H as (ci & Hc & H).
  exists idxs, ci. split; [exact Hi|]. split; [exact Hc|].
  apply mapM_inv in H. revert H. generalize (group_keys idxs (filter (complete_key idxs) (rows df))).
  intros ks H. induction H as [|k kv ks s Hk _ IH]; cbn.
  - split; [reflexivity|]. intros kv [].
  - destruct IH as [IH1 IH2].
    apply bind_Ok_inv in Hk. destruct Hk as (v & Hv & Hk). injection Hk as <-.
    cbn [fst snd]. split; [f_equal; exact IH1|].
    intros kv [<-|Hin]; [exact Hv|apply IH2; exact Hin].
Qed.

Lemma group_keys_In idxs rs k :
  In k (group_keys idxs rs) <-> exists r, In r rs /\ project idxs r = k.
Proof.
  unfold group_keys. rewrite sort_by_In, (unique_by_In _ key_eqb_eq), in_map_iff.
  split; intros (r & H1 & H2); exists r; auto.
Qed.

Lemma group_keys_NoDup idxs rs : NoDup (group_keys idxs rs).
Proof.
  unfold group_keys. apply sort_by_NoDup. apply (unique_by_NoDup _ key_eqb_eq).
Qed.

Lemma groupby_sum_key_length df keys col s :
  groupby_sum df keys col = Ok s ->
  forall kv, In kv s -> length (fst kv) = length keys.
Proof.
  intros H kv Hkv. destruct (groupby_sum_keys _ _ _ _ H) as (idxs & ci & Hi & _ & Hk & _).
  assert (Hin : In (fst kv) (map fst s)) by (apply in_map; exact Hkv).
  rewrite Hk in Hin. apply group_keys_In in Hin. destruct Hin as (r & _ & <-).
  unfold project. rewrite length_map. apply positions_length in Hi. exact Hi.
Qed.

(** The pipeline once the names are in order: the two series are joined
    and the percentage is appended to every joined row. *)
Lemma pipeline_eq T N ct cn cs ds L st sn :
  let ls := firstn (length cs) L in
  length ds = length cs ->
  (length cs <= length L)%nat ->
  groupby_sum T cs ct = Ok st ->
  groupby_sum N ds cn = Ok sn ->
  NoDup (cs ++ [teller_name]) -> NoDup (ds ++ [noemer_name]) ->
  map (chain (List.combine L cs)) (cs ++ [teller_name]) = ls ++ [teller_name] ->
  map (chain (List.combine L ds)) (ds ++ [noemer_name]) = ls ++ [noemer_name] ->
  NoDup ls ->
  ~ In teller_name ls -> ~ In noemer_name ls -> ~ In pct_name ls ->
  pipeline T N ct cn cs ds L L
  = if keys_clash (length cs) (map series_row st) (map series_row sn)
    then Raise ValueError
    else let* rs := mapM (with_percentage (length cs)) (inner_join st sn) in
         Ok (mkDataFrame (ls ++ [teller_name; noemer_name; pct_name]) rs).
Proof.
  intros ls Hlen HL Hst Hsn Hndt Hndn Hrt Hrn Hnd Ht Hn Hp.
  assert (Hlls : length ls = length cs) by (unfold ls; rewrite length_firstn; lia).
  unfold pipeline. rewrite Hst. cbn [bind].
  rewrite (proj2 (reset_index_Ok cs st teller_name _) (conj Hndt eq_refl)). cbn [bind].
  rewrite Hsn. cbn [bind].
  rewrite (proj2 (reset_index_Ok ds sn noemer_name _) (conj Hndn eq_refl)). cbn [bind].
  rewrite fold_rename_teller, fold_rename_noemer. cbn [columns rows].
  destruct (generieke_labels_proj L cs ds (eq_sym Hlen)) as (P1 & P2 & P3).
  rewrite P1, P2, P3, Hrt, Hrn. fold ls.
  fold series_row.
  rewrite merge_grouped.
  - rewrite Hlls. destruct (keys_clash _ _ _); [reflexivity|]. cbn [bind].
    rewrite add_percentage_grouped by assumption. rewrite Hlls. reflexivity.
  - apply NoDup_app; [exact Hnd|repeat constructor; tauto|].
    intros x Hx [<-|[]]. contradiction.
  - apply NoDup_app; [exact Hnd|repeat constructor; tauto|].
    intros x Hx [<-|[]]. contradiction.
  - intros a Ha. rewrite Hlls. eapply groupby_sum_key_length; eauto.
  - intros b Hb. rewrite Hlls, <- Hlen. eapply groupby_sum_key_length; eauto.
Qed.


Lemma mapM_Ok_all {A B} (f : A -> result B) (l : list A) (l' : list B) :
  mapM f l = Ok l' -> forall x, In x l -> exists y, f x = Ok y.
Proof.
  intros H. apply mapM_inv in H. induction H as [|x y l l' Hxy _ IH].
  - intros x [].
  - intros z [<-|Hz]; [eauto|apply IH; exact Hz].
Qed.

Lemma merge_inner_counts A B on M :
  merge_inner A B on = Ok M ->
  forall l, In l on ->
    count_column l (columns A) = 1%nat /\ count_column l (columns B) = 1%nat.
Proof.
  unfold merge_inner. intros H.
  apply bind_Ok_inv in H. destruct H as (li & Hli & H).
  apply bind_Ok_inv in H. destruct H as (ri & Hri & _).
  intros l Hl.
  destruct (mapM_Ok_all _ _ _ Hli l Hl) as [i Hi].
  destruct (mapM_Ok_all _ _ _ Hri l Hl) as [j Hj].
  split; eapply key_position_count; eauto.
Qed.

Lemma selection_not_measure L :
  incl L mogelijke_join_labels ->
  ~ In teller_name L /\ ~ In noemer_name L /\ ~ In pct_name L.
Proof.
  intros H. repeat split; intros Hin; apply H in Hin; cbn in Hin;
    repeat (destruct Hin as [Hin|Hin]; [discriminate Hin|]); exact Hin.
Qed.

Lemma firstn_In {A} (n : nat) (l : list A) x : In x (firstn n l) -> In x l.
Proof.
  revert n. induction l as [|y l IH]; intros [|n]; cbn; try tauto.
  intros [H|H]; [left; exact H|right; apply (IH n); exact H].
Qed.

Lemma firstn_NoDup {A} (n : nat) (l : list A) : NoDup l -> NoDup (firstn n l).
Proof.
  revert n. induction l as [|y l IH]; intros [|n] H; cbn; try constructor.
  - inversion H; subst. intros Hin. apply firstn_In in Hin. contradiction.
  - inversion H; subst. apply IH. assumption.
Qed.

(** What a successful run of the pipeline did. *)
Lemma pipeline_inv T N ct cn cs ds L J :
  join_key_selection L ->
  length ds = length cs -> (length cs <= length L)%nat ->
  pipeline T N ct cn cs ds L L = Ok J ->
  exists st sn rs,
    groupby_sum T cs ct = Ok st
    /\ groupby_sum N ds cn = Ok sn
    /\ NoDup (cs ++ [teller_name]) /\ NoDup (ds ++ [noemer_name])
    /\ map (chain (List.combine L cs)) (cs ++ [teller_name])
       = firstn (length cs) L ++ [teller_name]
    /\ map (chain (List.combine L ds)) (ds ++ [noemer_name])
       = firstn (length cs) L ++ [noemer_name]
    /\ keys_clash (length cs) (map series_row st) (map series_row sn) = false
    /\ mapM (with_percentage (length cs)) (inner_join st sn) = Ok rs
    /\ J = mkDataFrame
             (firstn (length cs) L ++ [teller_name; noemer_name; pct_name]) rs.
Proof.
  intros [HndL Hvoc] Hlen HL H.
  set (ls := firstn (length cs) L).
  assert (Hlls : length ls = length cs) by (unfold ls; rewrite length_firstn; lia).
  assert (Hnd : NoDup ls) by (apply firstn_NoDup; exact HndL).
  destruct (selection_not_measure L Hvoc) as (Ht & Hn & Hp).
  assert (Ht' : ~ In teller_name ls) by (intros Hin; apply Ht; eapply firstn_In; exact Hin).
  assert (Hn' : ~ In noemer_name ls) by (intros Hin; apply Hn; eapply firstn_In; exact Hin).
  assert (Hp' : ~ In pct_name ls) by (intros Hin; apply Hp; eapply firstn_In; exact Hin).
  pose proof H as H0. unfold pipeline in H.
  apply bind_Ok_inv in H. destruct H as (st & Hst & H).
  apply bind_Ok_inv in H. destruct H as (tg & Htg & H).
  apply bind_Ok_inv in H. destruct H as (sn & Hsn & H).
  apply bind_Ok_inv in H. destruct H as (ng & Hng & H).
  apply bind_Ok_inv in H. destruct H as (M & HM & _).
  apply reset_index_Ok in Htg. destruct Htg as [Hndt ->].
  apply reset_index_Ok in Hng. destruct Hng as [Hndn ->].
  rewrite fold_rename_teller, fold_rename_noemer in HM. cbn [columns rows] in HM.
  destruct (generieke_labels_proj L cs ds (eq_sym Hlen)) as (P1 & P2 & P3).
  rewrite P1, P2, P3 in HM. fold ls in HM.
  pose proof (merge_inner_counts _ _ _ _ HM) as Hcounts. cbn [columns] in Hcounts.
  destruct (NoDup_snoc_notin _ _ Hndt) as [Hndc Htc].
  destruct (NoDup_snoc_notin _ _ Hndn) as [Hndd Hnd'].
  assert (Hrt : map (chain (List.combine L cs)) (cs ++ [teller_name])
                = ls ++ [teller_name]).
  { rewrite (combine_firstn L cs). fold ls.
    apply rename_inv; auto.
    intros l Hl. unfold ls. rewrite <- (combine_firstn L cs).
    apply Hcounts. exact Hl. }
  assert (Hrn : map (chain (List.combine L ds)) (ds ++ [noemer_name])
                = ls ++ [noemer_name]).
  { rewrite (combine_firstn L ds). rewrite Hlen. fold ls.
    apply rename_inv; auto; [lia|].
    intros l Hl. unfold ls. rewrite <- Hlen, <- (combine_firstn L ds).
    apply Hcounts. exact Hl. }
  exists st, sn.
  rewrite (pipeline_eq T N ct cn cs ds L st sn) in H0 by assumption.
  destruct (keys_clash _ _ _); [discriminate|].
  apply bind_Ok_inv in H0. destruct H0 as (rs & Hrs & H0). injection H0 as <-.
  exists rs. repeat split; assumption.
Qed.


Lemma Forall2_In_l {A B} (R : A -> B -> Prop) l l' x :
  Forall2 R l l' -> In x l -> exists y, In y l' /\ R x y.
Proof.
  induction 1 as [|a b l l' Hab _ IH]; intros Hin; [destruct Hin|].
  destruct Hin as [<-|Hin].
  - exists b. split; [left; reflexivity|exact Hab].
  - destruct (IH Hin) as (y & Hy & Hxy). exists y. split; [right; exact Hy|exact Hxy].
Qed.

Lemma Forall2_In_r {A B} (R : A -> B -> Prop) l l' y :
  Forall2 R l l' -> In y l' -> exists x, In x l /\ R x y.
Proof.
  induction 1 as [|a b l l' Hab _ IH]; intros Hin; [destruct Hin|].
  destruct Hin as [<-|Hin].
  - exists a. split; [left; reflexivity|exact Hab].
  - destruct (IH Hin) as (x & Hx & Hxy). exists x. split; [right; exact Hx|exact Hxy].
Qed.

Lemma inner_join_In st sn r :
  In r (inner_join st sn) <->
  exists k t n, In (k, t) st /\ In (k, n) sn /\ r = k ++ [t; n].
Proof.
  unfold inner_join. rewrite in_flat_map. split.
  - intros ([k t] & Ha & Hr). apply in_map_iff in Hr.
    destruct Hr as ([k' n] & <- & Hb). apply filter_In in Hb.
    destruct Hb as [Hb E]. cbn in E. apply key_eqb_eq in E. subst k'.
    exists k, t, n. auto.
  - intros (k & t & n & Ha & Hb & ->). exists (k, t). split; [exact Ha|].
    apply in_map_iff. exists (k, n). split; [reflexivity|].
    apply filter_In. split; [exact Hb|]. cbn. apply key_eqb_refl.
Qed.

Lemma with_percentage_joined (k : list value) (t n : value) :
  with_percentage (length k) (k ++ [t; n])
  = let* p := percentage t n in Ok (k ++ [t; n; p]).
Proof.
  unfold with_percentage.
  rewrite <- (Nat.add_0_r (length k)) at 1. rewrite cell_app_r.
  replace (S (length k)) with (length k + 1)%nat by lia. rewrite cell_app_r.
  cbn [cell nth]. destruct (percentage t n); cbn [bind]; [|reflexivity].
  rewrite <- app_assoc. reflexivity.
Qed.

(** The rows of a joined table: one for each key that both series hold. *)
Lemma joined_rows_In (len : nat) st sn rs :
  (forall a, In a st -> length (fst a) = len) ->
  mapM (with_percentage len) (inner_join st sn) = Ok rs ->
  forall r, In r rs <->
    exists k t n p, In (k, t) st /\ In (k, n) sn /\ percentage t n = Ok p
                    /\ r = k ++ [t; n; p].
Proof.
  intros Hlen H r. apply mapM_inv in H. split.
  - intros Hr. destruct (Forall2_In_r _ _ _ _ H Hr) as (x & Hx & Hxr).
    apply inner_join_In in Hx. destruct Hx as (k & t & n & Ha & Hb & ->).
    rewrite <- (Hlen _ Ha) in Hxr. cbn [fst] in Hxr.
    rewrite with_percentage_joined in Hxr.
    apply bind_Ok_inv in Hxr. destruct Hxr as (p & Hp & E). injection E as <-.
    exists k, t, n, p. auto.
  - intros (k & t & n & p & Ha & Hb & Hp & ->).
    assert (Hx : In (k ++ [t; n]) (inner_join st sn))
      by (apply inner_join_In; exists k, t, n; auto).
    destruct (Forall2_In_l _ _ _ _ H Hx) as (y & Hy & Hxy).
    rewrite <- (Hlen _ Ha) in Hxy. cbn [fst] in Hxy.
    rewrite with_percentage_joined, Hp in Hxy. cbn in Hxy. injection Hxy as <-.
    exact Hy.
Qed.

Lemma cell_of_app (ls post : list string) (k rest : list value) (name : string)
    (rs : list row) (j : nat) :
  length k = length ls -> ~ In name ls -> index_of name post = Some j ->
  cell_of (mkDataFrame (ls ++ post) rs) name (k ++ rest) = cell j rest.
Proof.
  intros Hlen Hnin Hj. unfold cell_of. cbn [columns].
  assert (E : index_of name (ls ++ post) = Some (length ls + j)%nat).
  { clear Hlen. induction ls as [|c ls IH]; cbn; [exact Hj|].
    destruct (String.eqb_spec c name) as [->|Hne]; [exfalso; apply Hnin; left; reflexivity|].
    rewrite IH; [reflexivity|]. intros H. apply Hnin. right. exact H. }
  rewrite E, <- Hlen. apply cell_app_r.
Qed.

Lemma key_of_app (ls post : list string) (k rest : list value) (rs : list row) :
  length k = length ls -> NoDup ls ->
  key_of (mkDataFrame (ls ++ post) rs) ls (k ++ rest) = k.
Proof.
  intros Hlen Hnd. unfold key_of, cell_of. cbn [columns].
  assert (H : forall pre kpre, length kpre = length pre -> NoDup (pre ++ ls) ->
              map (fun name => match index_of name (pre ++ ls ++ post) with
                               | Some i => cell i (kpre ++ k ++ rest)
                               | None => VNa
                               end) ls = k).
  { clear Hnd. revert k Hlen. induction ls as [|l ls IH]; intros [|x k] Hlen pre kpre Hp Hnd;
      cbn in Hlen; try discriminate; [reflexivity|].
    cbn [map]. f_equal.
    - change (pre ++ (l :: ls) ++ post) with (pre ++ l :: (ls ++ post)).
      rewrite index_of_app_r.
      + rewrite <- Hp. rewrite <- (Nat.add_0_r (length kpre)). rewrite cell_app_r.
        reflexivity.
      + apply NoDup_remove_2 in Hnd. intros H. apply Hnd. apply in_or_app. left. exact H.
    - specialize (IH k ltac:(lia) (pre ++ [l]) (kpre ++ [x])).
      rewrite <- !app_assoc in IH. cbn [app] in IH. apply IH.
      + rewrite !length_app. cbn. lia.
      + exact Hnd. }
  apply (H [] []); [reflexivity|exact Hnd].
Qed.


(** What a call that returned a table did. *)
Lemma combine_call_Some_shape T N mt mn L J :
  join_key_selection L ->
  combine_call T N mt mn L = Ok (Some J) ->
  exists ct cn st sn rs,
    dict_get mt "aantal_ho_instromers" = Some ct
    /\ dict_get mn "aantal_mbo_gediplomeerden" = Some cn
    /\ guards_pass T N mt mn L
    /\ groupby_sum T (resolve_join_cols (columns T) mt L) ct = Ok st
    /\ groupby_sum N (resolve_join_cols (columns N) mn L) cn = Ok sn
    /\ NoDup (resolve_join_cols (columns T) mt L ++ [teller_name])
    /\ NoDup (resolve_join_cols (columns N) mn L ++ [noemer_name])
    /\ map (chain (List.combine L (resolve_join_cols (columns T) mt L)))
           (resolve_join_cols (columns T) mt L ++ [teller_name])
       = firstn (length (resolve_join_cols (columns T) mt L)) L ++ [teller_name]
    /\ map (chain (List.combine L (resolve_join_cols (columns N) mn L)))
           (resolve_join_cols (columns N) mn L ++ [noemer_name])
       = firstn (length (resolve_join_cols (columns T) mt L)) L ++ [noemer_name]
    /\ mapM (with_percentage (length (resolve_join_cols (columns T) mt L)))
            (inner_join st sn) = Ok rs
    /\ J = mkDataFrame
             (firstn (length (resolve_join_cols (columns T) mt L)) L
              ++ [teller_name; noemer_name; pct_name]) rs.
Proof.
  intros Hsel H.
  destruct (combine_call_Some_inv _ _ _ _ _ _ H)
    as (ct & cn & Et & En & _ & _ & Hg & Hp).
  pose proof Hg as (_ & _ & _ & Hlen).
  apply pipeline_inv in Hp; auto using resolve_join_cols_length.
  destruct Hp as (st & sn & rs & H1 & H2 & H3 & H4 & H5 & H6 & _ & H8 & H9).
  exists ct, cn, st, sn, rs. do 10 (split; [assumption|]). assumption.
Qed.

Lemma selection_firstn n L :
  join_key_selection L ->
  NoDup (firstn n L)
  /\ ~ In teller_name (firstn n L) /\ ~ In noemer_name (firstn n L)
  /\ ~ In pct_name (firstn n L).
Proof.
  intros [Hnd Hvoc]. destruct (selection_not_measure L Hvoc) as (Ht & Hn & Hp).
  split; [apply firstn_NoDup; exact Hnd|].
  repeat split; intros H; apply firstn_In in H; contradiction.
Qed.





Lemma sum_values_counts (l : list value) :
  forallb is_count l = true -> sum_values l = Ok (VInt (sum_ints l)).
Proof.
  intros H. unfold sum_values.
  assert (Hfold : forall vs a, forallb is_count vs = true ->
            fold_left (fun acc x => let* a := acc in value_add a x)
                      (dropna vs) (Ok (VInt a))
            = Ok (VInt (a + sum_ints vs))).
  { induction vs as [|v vs IH]; intros a Hvs; cbn.
    - rewrite Z.add_0_r. reflexivity.
    - cbn in Hvs. apply andb_true_iff in Hvs. destruct Hvs as [Hv Hvs].
      destruct v; cbn in Hv; try discriminate; cbn.
      + apply IH. exact Hvs.
      + rewrite IH by exact Hvs. rewrite Z.add_assoc. reflexivity. }
  induction l as [|v l IH]; [reflexivity|].
  cbn in H. apply andb_true_iff in H. destruct H as [Hv Hl].
  destruct v; cbn in Hv; try discriminate; cbn.
  - apply IH. exact Hl.
  - apply Hfold. exact Hl.
Qed.

Lemma positions_Ok names cols :
  (forall c, In c names -> In c cols) ->
  exists idxs, positions names cols = Ok idxs
               /\ Forall2 (fun c i => index_of c cols = Some i) names idxs.
Proof.
  unfold positions. induction names as [|c names IH]; intros H.
  - exists []. split; [reflexivity|constructor].
  - destruct IH as (idxs & Hi & Hf); [intros x Hx; apply H; right; exact Hx|].
    destruct (index_of c cols) as [i|] eqn:E.
    + exists (i :: idxs). cbn. rewrite E. cbn. unfold positions in Hi. rewrite Hi.
      split; [reflexivity|constructor; assumption].
    + apply index_of_None in E. exfalso. apply E. apply H. left. reflexivity.
Qed.

Lemma positions_inv names cols idxs :
  positions names cols = Ok idxs ->
  Forall2 (fun c i => index_of c cols = Some i) names idxs.
Proof.
  intros H. apply mapM_inv in H.
  induction H as [|c i names idxs Hc _ IH]; constructor; [|exact IH].
  destruct (index_of c cols); [congruence|discriminate].
Qed.

(** With counts in the metric column, [groupby_sum] succeeds and every
    group sums to an integer. *)
Lemma groupby_sum_counts df keys col :
  (forall c, In c keys -> In c (columns df)) ->
  In col (columns df) ->
  count_column_cells df col ->
  exists idxs ci,
    positions keys (columns df) = Ok idxs
    /\ index_of col (columns df) = Some ci
    /\ groupby_sum df keys col
       = Ok (map (fun k =>
                    (k, VInt (sum_ints
                                (map (cell ci)
                                     (filter (fun r => key_eqb (project idxs r) k)
                                             (filter (complete_key idxs) (rows df)))))))
                 (group_keys idxs (filter (complete_key idxs) (rows df)))).
Proof.
  intros Hkeys Hcol Hcount.
  destruct (positions_Ok keys (columns df) Hkeys) as (idxs & Hi & _).
  destruct (index_of col (columns df)) as [ci|] eqn:Eci;
    [|apply index_of_None in Eci; contradiction].
  exists idxs, ci. split; [exact Hi|]. split; [reflexivity|].
  unfold groupby_sum, column_position. rewrite Hi, Eci. cbn [bind].
  apply mapM_Ok_map. intros k _.
  rewrite sum_values_counts; [reflexivity|].
  apply forallb_forall. intros v Hv. apply in_map_iff in Hv.
  destruct Hv as (r & <- & Hr). apply filter_In in Hr. destruct Hr as [Hr _].
  apply filter_In in Hr. destruct Hr as [Hr _].
  specialize (Hcount r Hr). unfold cell_of in Hcount. rewrite Eci in Hcount.
  exact Hcount.
Qed.

Lemma percentage_counts (t n : Z) : exists p, percentage (VInt t) (VInt n) = Ok p.
Proof.
  unfold percentage. cbn. destruct (Z.eqb n 0); eauto.
Qed.



Lemma existsb_all {A} (f : A -> bool) (l : list A) (b : bool) :
  l <> [] -> (forall x, In x l -> f x = b) -> existsb f l = b.
Proof.
  intros Hne H. destruct b.
  - destruct l as [|x l]; [congruence|]. cbn. rewrite (H x) by (left; reflexivity).
    reflexivity.
  - destruct (existsb f l) eqn:E; [|reflexivity].
    apply existsb_exists in E. destruct E as (x & Hx & E). rewrite (H x Hx) in E.
    discriminate.
Qed.

Lemma kinds_clash_same (l r : list value) (b : bool) :
  (forall v, In v l -> is_str v = b) -> (forall v, In v r -> is_str v = b) ->
  kinds_clash l r = false.
Proof.
  intros Hl Hr. unfold kinds_clash. destruct l as [|x l]; [reflexivity|].
  destruct r as [|y r]; [reflexivity|].
  rewrite (existsb_all is_str (x :: l) b), (existsb_all is_str (y :: r) b);
    auto; try discriminate.
  destruct b; reflexivity.
Qed.

Lemma combine_seq_In (k s i j : nat) :
  In (i, j) (List.combine (seq s k) (seq s k)) ->
  i = j /\ (s <= i < s + k)%nat.
Proof.
  revert s. induction k as [|k IH]; intros s H; cbn in H; [destruct H|].
  destruct H as [H|H].
  - injection H as <- <-. split; [reflexivity|lia].
  - apply IH in H. destruct H as [-> H]. split; [reflexivity|lia].
Qed.

Lemma Forall2_nth_both {A B} (R : A -> B -> Prop) l l' (da : A) (db : B) i :
  Forall2 R l l' -> (i < length l)%nat -> R (nth i l da) (nth i l' db).
Proof.
  intros H. revert i. induction H as [|a b l l' Hab _ IH]; intros i Hi;
    cbn in Hi; [lia|].
  destruct i as [|i]; cbn; [exact Hab|]. apply IH. lia.
Qed.

(** The cells of the [i]-th key column of a grouped series are cells, not
    missing, of the [i]-th key column of the table. *)
Lemma grouped_key_cells df keys col s i v :
  groupby_sum df keys col = Ok s ->
  (i < length keys)%nat ->
  In v (map (cell i) (map series_row s)) ->
  exists r, In r (rows df)
            /\ v = cell_of df (nth i keys "") r /\ is_na v = false.
Proof.
  intros H Hi Hv.
  destruct (groupby_sum_keys _ _ _ _ H) as (idxs & ci & Hpos & _ & Hk & _).
  pose proof (positions_length _ _ _ Hpos) as Hlen.
  rewrite map_map in Hv. apply in_map_iff in Hv. destruct Hv as ([k x] & <- & Hkx).
  assert (Hkin : In k (map fst s)) by (apply in_map_iff; exists (k, x); auto).
  rewrite Hk in Hkin. apply group_keys_In in Hkin. destruct Hkin as (r & Hr & <-).
  apply filter_In in Hr. destruct Hr as [Hr Hc].
  exists r. split; [exact Hr|].
  assert (Hcell : cell i (series_row (project idxs r, x)) = cell (nth i idxs 0%nat) r).
  { unfold series_row. cbn [fst snd]. unfold cell at 1.
    rewrite app_nth1 by (unfold project; rewrite length_map; lia).
    unfold project. rewrite (nth_indep _ VNa (cell 0%nat r))
      by (rewrite length_map; lia).
    rewrite (map_nth (fun j => cell j r)). reflexivity. }
  rewrite Hcell. split.
  - unfold cell_of.
    pose proof (Forall2_nth_both _ _ _ "" 0%nat i (positions_inv _ _ _ Hpos) Hi) as E.
    cbn in E. rewrite E. reflexivity.
  - unfold complete_key in Hc. rewrite forallb_forall in Hc.
    apply negb_true_iff. apply Hc. apply nth_In. lia.
Qed.

Lemma keys_no_clash T N cs ds ct cn st sn :
  groupby_sum T cs ct = Ok st -> groupby_sum N ds cn = Ok sn ->
  length ds = length cs ->
  Forall2 (same_kind T N) cs ds ->
  keys_clash (length cs) (map series_row st) (map series_row sn) = false.
Proof.
  intros Hst Hsn Hlen Hkind. unfold keys_clash.
  destruct (existsb _ _) eqn:E; [exfalso|reflexivity].
  apply existsb_exists in E. destruct E as ([i j] & Hij & E).
  apply combine_seq_In in Hij. destruct Hij as [<- Hi]. cbn [fst snd] in E.
  assert (Hic : (i < length cs)%nat) by lia.
  assert (Hid : (i < length ds)%nat) by lia.
  destruct (Forall2_nth_both _ _ _ "" "" i Hkind Hic) as (b & Hb1 & Hb2).
  rewrite (kinds_clash_same _ _ b) in E; [discriminate| |].
  - intros v Hv.
    destruct (grouped_key_cells _ _ _ _ _ _ Hst Hic Hv) as (r & Hr & -> & Hna).
    apply Hb1; assumption.
  - intros v Hv.
    destruct (grouped_key_cells _ _ _ _ _ _ Hsn Hid Hv) as (r & Hr & -> & Hna).
    apply Hb2; assumption.
Qed.


Lemma mapM_Ok_exists {A B} (f : A -> result B) (l : list A) :
  (forall x, In x l -> exists y, f x = Ok y) -> exists l', mapM f l = Ok l'.
Proof.
  induction l as [|x l IH]; intros H; [exists []; reflexivity|].
  destruct (H x (or_introl eq_refl)) as [y Hy].
  destruct IH as [l' Hl']; [intros z Hz; apply H; right; exact Hz|].
  exists (y :: l'). cbn. rewrite Hy. cbn. rewrite Hl'. reflexivity.
Qed.

(** A well-formed call returns a table: the inner join of the two
    aggregates with the percentage appended. *)
Lemma combine_call_returns T N mt mn L :
  well_formed_call T N mt mn L ->
  exists ct cn st sn rs,
    dict_get mt "aantal_ho_instromers" = Some ct
    /\ dict_get mn "aantal_mbo_gediplomeerden" = Some cn
    /\ groupby_sum T (resolve_join_cols (columns T) mt L) ct = Ok st
    /\ groupby_sum N (resolve_join_cols (columns N) mn L) cn = Ok sn
    /\ mapM (with_percentage (length (resolve_join_cols (columns T) mt L)))
            (inner_join st sn) = Ok rs
    /\ combine_call T N mt mn L
       = Ok (Some (mkDataFrame
                     (firstn (length (resolve_join_cols (columns T) mt L)) L
                      ++ [teller_name; noemer_name; pct_name]) rs)).
Proof.
  unfold well_formed_call.
  set (cs := resolve_join_cols (columns T) mt L).
  set (ds := resolve_join_cols (columns N) mn L).
  intros (Hsel & Hg & Hndt & Hndn & Hct & Hcn & Hkind & Hmt & Hmn).
  destruct (combine_call_pass _ _ _ _ _ Hg) as (ct & cn & Et & En & Hint & Hinn & E).
  fold cs ds in E.
  pose proof Hg as (_ & _ & _ & Hlen). fold cs ds in Hlen.
  pose proof (resolve_join_cols_length (columns T) mt L) as HL. fold cs in HL.
  destruct (groupby_sum_counts T cs ct) as (ix & ci & _ & _ & Hst);
    [intros c Hc; eapply resolve_join_cols_In; exact Hc|exact Hint|auto|].
  destruct (groupby_sum_counts N ds cn) as (jx & cj & _ & _ & Hsn);
    [intros c Hc; eapply resolve_join_cols_In; exact Hc|exact Hinn|auto|].
  set (st := map _ _) in Hst. set (sn := map _ _) in Hsn.
  destruct (selection_firstn (length cs) L Hsel) as (Hnd & Ht & Hn & Hp).
  destruct (NoDup_snoc_notin _ _ Hndt) as [Hndc Htc].
  destruct (NoDup_snoc_notin _ _ Hndn) as [Hndd Hnd'].
  assert (Hlls : length (firstn (length cs) L) = length cs)
    by (rewrite length_firstn; lia).
  assert (Hrs : exists rs, mapM (with_percentage (length cs)) (inner_join st sn)
                           = Ok rs).
  { apply mapM_Ok_exists. intros x Hx. apply inner_join_In in Hx.
    destruct Hx as (k & t & n & Ha & Hb & ->).
    assert (Hk : length k = length cs)
      by (apply (groupby_sum_key_length _ _ _ _ Hst (k, t) Ha)).
    rewrite <- Hk, with_percentage_joined.
    unfold st in Ha. apply in_map_iff in Ha. destruct Ha as (? & Ea & _).
    unfold sn in Hb. apply in_map_iff in Hb. destruct Hb as (? & Eb & _).
    injection Ea as _ <-. injection Eb as _ <-.
    destruct (percentage_counts
                (sum_ints (map (cell ci)
                   (filter (fun r => key_eqb (project ix r) x)
                           (filter (complete_key ix) (rows T)))))
                (sum_ints (map (cell cj)
                   (filter (fun r => key_eqb (project jx r) x0)
                           (filter (complete_key jx) (rows N))))))
      as [p Hpct].
    rewrite Hpct. cbn. eauto. }
  destruct Hrs as [rs Hrs].
  exists ct, cn, st, sn, rs. do 5 (split; [assumption|]).
  rewrite E, (pipeline_eq T N ct cn cs ds L st sn); auto.
  - rewrite (keys_no_clash T N cs ds ct cn st sn) by auto.
    rewrite Hrs. reflexivity.
  - rewrite (combine_firstn L cs). apply rename_forward; auto.
  - rewrite (combine_firstn L ds). rewrite <- Hlen.
    apply rename_forward; auto. lia.
Qed.



(* --------------------------------------------------------------------- *)
(** *** Example mappings *)

Lemma selection_jaar_sector : join_key_selection ["jaar"; "sector_mbo"].
Proof.
  split.
  - repeat constructor; cbn; intuition discriminate.
  - intros l [<-|[<-|[]]]; cbn; auto.
Qed.




Lemma resolve_all cols m L :
  Forall (fun l => exists c, dict_get m l = Some c /\ c <> "" /\ In c cols) L ->
  length (resolve_join_cols cols m L) = length L.
Proof.
  induction 1 as [|l L (c & E & Hc & Hin) _ IH]; cbn; [reflexivity|].
  rewrite E. apply truthy_Some in Hc. apply has_column_In in Hin.
  rewrite Hc, Hin. cbn. rewrite IH. reflexivity.
Qed.

Lemma join_key_columns_labels (ls : list string) (rs : list row) :
  ~ In teller_name ls -> ~ In noemer_name ls -> ~ In pct_name ls ->
  join_key_columns
    (mkDataFrame (ls ++ [teller_name; noemer_name; pct_name]) rs) = ls.
Proof.
  intros Ht Hn Hp. unfold join_key_columns. cbn [columns].
  rewrite filter_app.
  rewrite (filter_ext_in _ (fun _ => true) ls), filter_true.
  - cbn. rewrite app_nil_r. reflexivity.
  - intros c Hc. apply negb_true_iff. apply has_column_false.
    intros [<-|[<-|[<-|[]]]]; contradiction.
Qed.

(** C1 as stated fails: a label that neither side maps is skipped, and the
    returned table has no key column for it. *)
Lemma combine_call_skips_unmapped_label :
  ~ (forall T N mt mn L J,
        combine_call T N mt mn L = Ok (Some J) ->
        forall l, In l L <-> In l (join_key_columns J)).
Proof.
  intros H.
  assert (Hc : combine_call sc_teller sc_noemer jaar_only_teller jaar_only_noemer
                 ["jaar"; "sector_mbo"]
               = Ok (Some (mkDataFrame
                             ["jaar"; teller_name; noemer_name; pct_name]
                             [[VInt 2021; VInt 50; VInt 200;
                               VFloat (inject_Z 50 / inject_Z 200 * 100)]])))
    by (vm_compute; reflexivity).
  specialize (H _ _ _ _ _ _ Hc "sector_mbo").
  destruct H as [H _]. specialize (H (or_intror (or_introl eq_refl))).
  cbn in H. destruct H as [H|[]]. discriminate H.
Qed.

(** C1, amended.  When [combine_call] returns a table and every join label
    resolves on both sides, the key columns of the table are the join
    labels, in their order, and each renaming loop turns the grouped table
    whose key columns are the resolved columns into the table with the same
    rows whose [i]-th key column is called by the [i]-th label. *)
Theorem join_keys_are_labels T N mt mn L J :
  join_key_selection L ->
  Forall (label_resolved T mt) L ->
  Forall (label_resolved N mn) L ->
  combine_call T N mt mn L = Ok (Some J) ->
  let cs := resolve_join_cols (columns T) mt L in
  let ds := resolve_join_cols (columns N) mn L in
  join_key_columns J = L
  /\ (forall l, In l L <-> In l (join_key_columns J))
  /\ length cs = length L /\ length ds = length L
  /\ exists ct cn st sn,
       dict_get mt "aantal_ho_instromers" = Some ct
       /\ dict_get mn "aantal_mbo_gediplomeerden" = Some cn
       /\ groupby_sum T cs ct = Ok st
       /\ groupby_sum N ds cn = Ok sn
       /\ rename_teller_keys (generieke_labels L L cs ds)
         (mkDataFrame (cs ++ [teller_name]) (map series_row st))
       = mkDataFrame (L ++ [teller_name]) (map series_row st)
       /\ rename_noemer_keys (generieke_labels L L cs ds)
            (mkDataFrame (ds ++ [noemer_name]) (map series_row sn))
          = mkDataFrame (L ++ [noemer_name]) (map series_row sn)
       /\ forall r, In r (rows J) ->
            exists k t n p,
              In (k, t) st /\ In (k, n) sn /\ r = k ++ [t; n; p].
Proof.
  intros Hsel Hrt Hrn H cs ds.
  assert (Hlc : length cs = length L) by (apply resolve_all; exact Hrt).
  assert (Hld : length ds = length L) by (apply resolve_all; exact Hrn).
  destruct (combine_call_Some_shape _ _ _ _ _ _ Hsel H)
    as (ct & cn & st & sn & rs & Hct & Hcn & _ & Hst & Hsn & _ & _ & Et & En & Hrs & ->).
  fold cs ds in Hst, Hsn, Et, En, Hrs |- *.
  rewrite Hlc, firstn_all in *.
  destruct Hsel as [_ Hvoc].
  destruct (selection_not_measure L Hvoc) as (Ht & Hn & Hp).
  assert (Hk : join_key_columns
                 (mkDataFrame (L ++ [teller_name; noemer_name; pct_name]) rs) = L)
    by (apply join_key_columns_labels; assumption).
  split; [exact Hk|]. split; [rewrite Hk; tauto|].
  split; [reflexivity|]. split; [exact Hld|].
  exists ct, cn, st, sn. do 4 (split; [assumption|]).
  destruct (generieke_labels_proj L cs ds) as (P1 & P2 & _); [lia|].
  split; [|split].
  - rewrite fold_rename_teller. cbn [columns rows]. rewrite P1, Et. reflexivity.
  - rewrite fold_rename_noemer. cbn [columns rows]. rewrite P2, En. reflexivity.
  - intros r Hr. cbn [rows] in Hr.
    assert (Hklen : forall a, In a st -> length (fst a) = length L).
    { intros a Ha. rewrite <- Hlc. eapply groupby_sum_key_length; eauto. }
    apply (joined_rows_In _ _ _ _ Hklen Hrs) in Hr.
    destruct Hr as (k & t & n & p & Ha & Hb & _ & ->).
    exists k, t, n, p. auto.
Qed.

Lemma join_keys_are_labels_witness :
  join_key_selection ["jaar"; "sector_mbo"]
  /\ Forall (label_resolved sc_teller sc_map_teller) ["jaar"; "sector_mbo"]
  /\ Forall (label_resolved sc_noemer sc_map_noemer) ["jaar"; "sector_mbo"]
  /\ join_key_columns
       (mkDataFrame ["jaar"; "sector_mbo"; teller_name; noemer_name; pct_name]
          [[VInt 2021; VStr "Zorg"; VInt 50; VInt 200;
            VFloat (inject_Z 50 / inject_Z 200 * 100)]])
     = ["jaar"; "sector_mbo"].
Proof.
  assert (Ht : Forall (label_resolved sc_teller sc_map_teller) ["jaar"; "sector_mbo"]).
  { repeat constructor.
    - exists "jaar". repeat split; [discriminate|cbn; auto].
    - exists "sector". repeat split; [discriminate|cbn; auto]. }
  assert (Hn : Forall (label_resolved sc_noemer sc_map_noemer) ["jaar"; "sector_mbo"]).
  { repeat constructor.
    - exists "jaar". repeat split; [discriminate|cbn; auto].
    - exists "sector". repeat split; [discriminate|cbn; auto]. }
  split; [exact selection_jaar_sector|]. split; [exact Ht|]. split; [exact Hn|].
  exact (proj1 (join_keys_are_labels _ _ _ _ _ _ selection_jaar_sector Ht Hn
                  scenario_1)).
Defined.

(** C2.  The teller maps [jaar] and not [niveau_mbo], the noemer maps
    [niveau_mbo] and not [jaar]: each side resolves one column, the counts
    agree, and the function joins the years of the teller with the levels of
    the noemer under the name [jaar] instead of returning [None]. *)
Theorem combine_call_joins_different_labels :
  label_resolved mis_teller mis_map_teller "jaar"
  /\ dict_get mis_map_noemer "jaar" = None
  /\ combine_call mis_teller mis_noemer mis_map_teller mis_map_noemer
       ["jaar"; "niveau_mbo"]
     = Ok (Some (mkDataFrame
                   ["jaar"; teller_name; noemer_name; pct_name]
                   [[VInt 4; VInt 7; VInt 200;
                     VFloat (inject_Z 7 / inject_Z 200 * 100)]])).
Proof.
  split; [|split].
  - exists "jaar". repeat split; [discriminate|cbn; auto].
  - reflexivity.
  - vm_compute. reflexivity.
Qed.

(** C3 as stated fails: with two labels mapped to one column none of the
    failure conditions holds, and the call raises. *)
Lemma combine_call_shared_column_raises :
  guards_pass sc_teller sc_noemer twice_jaar_teller twice_jaar_noemer
    ["jaar"; "sector_mbo"]
  /\ combine_call sc_teller sc_noemer twice_jaar_teller twice_jaar_noemer
       ["jaar"; "sector_mbo"]
     = Raise ValueError.
Proof.
  split; [|vm_compute; reflexivity].
  repeat split.
  - exists "n_ho". repeat split; [discriminate|cbn; auto].
  - exists "n_mbo". repeat split; [discriminate|cbn; auto].
  - discriminate.
Qed.

(** C3, amended.  [combine_call] returns [None] exactly when a metric label
    does not resolve, the two sides resolve different numbers of key
    columns, or no key column resolves; and it returns a table on every
    well-formed call. *)
Theorem combine_call_outcomes T N mt mn L :
  (combine_call T N mt mn L = Ok None <->
   ~ label_resolved T mt "aantal_ho_instromers"
   \/ ~ label_resolved N mn "aantal_mbo_gediplomeerden"
   \/ length (resolve_join_cols (columns T) mt L)
      <> length (resolve_join_cols (columns N) mn L)
   \/ resolve_join_cols (columns T) mt L = [])
  /\ (well_formed_call T N mt mn L ->
      exists J, combine_call T N mt mn L = Ok (Some J)).
Proof.
  split.
  - rewrite combine_call_None_iff. unfold guards_pass. split.
    + intros H.
      destruct (label_resolved_dec T mt "aantal_ho_instromers"); [|tauto].
      destruct (label_resolved_dec N mn "aantal_mbo_gediplomeerden"); [|tauto].
      destruct (resolve_join_cols (columns T) mt L) as [|c cs] eqn:E; [tauto|].
      destruct (Nat.eq_dec (length (c :: cs))
                           (length (resolve_join_cols (columns N) mn L)));
        [|tauto].
      exfalso. apply H. repeat split; auto; discriminate.
    + intros [H|[H|[H|H]]] (H1 & H2 & H3 & H4); tauto.
  - intros Hwf. destruct (combine_call_returns _ _ _ _ _ Hwf)
      as (ct & cn & st & sn & rs & _ & _ & _ & _ & _ & E).
    eauto.
Qed.



Lemma scenario_well_formed (teller noemer : DataFrame) :
  columns teller = ["jaar"; "sector"; "n_ho"] ->
  (forall r, In r (rows teller) ->
     exists j s n, r = [VInt j; VStr s; VInt n]) ->
  columns noemer = ["jaar"; "sector"; "n_mbo"] ->
  (forall r, In r (rows noemer) ->
     exists j s n, r = [VInt j; VStr s; VInt n]) ->
  well_formed_call teller noemer sc_map_teller sc_map_noemer
    ["jaar"; "sector_mbo"].
Proof.
  intros Hct Hrt Hc Hr. unfold well_formed_call. rewrite Hct, Hc.
  change (resolve_join_cols ["jaar"; "sector"; "n_ho"] sc_map_teller
            ["jaar"; "sector_mbo"])
    with ["jaar"; "sector"].
  change (resolve_join_cols ["jaar"; "sector"; "n_mbo"] sc_map_noemer
            ["jaar"; "sector_mbo"])
    with ["jaar"; "sector"].
  split; [exact selection_jaar_sector|].
  split.
  { unfold guards_pass. rewrite Hct, Hc. repeat split.
    - exists "n_ho". repeat split; [discriminate|rewrite Hct; cbn; auto].
    - exists "n_mbo". repeat split; [discriminate|rewrite Hc; cbn; auto].
    - discriminate. }
  split; [repeat constructor; cbn; intuition discriminate|].
  split; [repeat constructor; cbn; intuition discriminate|].
  split; [cbn; intuition discriminate|].
  split; [cbn; intuition discriminate|].
  split.
  { repeat constructor.
    - exists false. split.
      + intros r Hin _. destruct (Hrt r Hin) as (j & s & n & ->).
        unfold cell_of. rewrite Hct. reflexivity.
      + intros r Hin _. destruct (Hr r Hin) as (j & s & n & ->).
        unfold cell_of. rewrite Hc. reflexivity.
    - exists true. split.
      + intros r Hin _. destruct (Hrt r Hin) as (j & s & n & ->).
        unfold cell_of. rewrite Hct. reflexivity.
      + intros r Hin _. destruct (Hr r Hin) as (j & s & n & ->).
        unfold cell_of. rewrite Hc. reflexivity. }
  split.
  - intros ct E. injection E as <-. intros r Hin.
    destruct (Hrt r Hin) as (j & s & n & ->). unfold cell_of. rewrite Hct.
    reflexivity.
  - intros cn E. injection E as <-. intros r Hin.
    destruct (Hr r Hin) as (j & s & n & ->). unfold cell_of. rewrite Hc. reflexivity.
Qed.

Lemma combine_call_outcomes_witness :
  well_formed_call sc_teller sc_noemer sc_map_teller sc_map_noemer
    ["jaar"; "sector_mbo"]
  /\ exists J,
       combine_call sc_teller sc_noemer sc_map_teller sc_map_noemer
         ["jaar"; "sector_mbo"] = Ok (Some J).
Proof.
  assert (Hwf : well_formed_call sc_teller sc_noemer sc_map_teller sc_map_noemer
                  ["jaar"; "sector_mbo"]).
  { apply scenario_well_formed; [reflexivity| |reflexivity|].
    - intros r [<-|[]]. exists 2021%Z, "Zorg", 50%Z. reflexivity.
    - intros r [<-|[]]. exists 2021%Z, "Zorg", 200%Z. reflexivity. }
  split; [exact Hwf|].
  exact (proj2 (combine_call_outcomes _ _ _ _ _) Hwf).
Defined.





(* ===================================================================== *)
(** ** Regrouping a joined table *)
(* ===================================================================== *)

Lemma project_key_of df keys idxs r :
  positions keys (columns df) = Ok idxs -> project idxs r = key_of df keys r.
Proof.
  intros H. apply positions_inv in H. unfold project, key_of, cell_of.
  induction H as [|c i keys idxs Hc _ IH]; cbn; [reflexivity|].
  rewrite Hc, IH. reflexivity.
Qed.

Lemma complete_key_row df keys idxs r :
  positions keys (columns df) = Ok idxs ->
  complete_key idxs r = complete_row df keys r.
Proof.
  intros H. unfold complete_key, complete_row.
  rewrite <- (project_key_of df keys idxs r H). unfold project.
  clear H. induction idxs as [|i idxs IH]; cbn; [reflexivity|].
  rewrite IH. reflexivity.
Qed.

Lemma groupby_sum_named df keys col :
  (forall c, In c keys -> In c (columns df)) ->
  In col (columns df) ->
  count_column_cells df col ->
  groupby_sum df keys col
  = Ok (map (fun k => (k, VInt (key_sum df keys col k))) (table_keys df keys)).
Proof.
  intros Hk Hc Hcount.
  destruct (groupby_sum_counts df keys col Hk Hc Hcount)
    as (idxs & ci & Hpos & Hci & ->).
  assert (Hkept : filter (complete_key idxs) (rows df)
                  = filter (complete_row df keys) (rows df)).
  { apply filter_ext. intros r. apply complete_key_row. exact Hpos. }
  rewrite Hkept. unfold table_keys, group_keys. f_equal.
  rewrite (map_ext _ _ (fun r => project_key_of df keys idxs r Hpos)).
  apply map_ext. intros k. f_equal. f_equal. unfold key_sum. f_equal.
  rewrite (filter_ext _ (fun r => key_eqb (key_of df keys r) k))
    by (intros r; rewrite (project_key_of df keys idxs r Hpos); reflexivity).
  apply map_ext. intros r. unfold cell_of. rewrite Hci. reflexivity.
Qed.


Lemma table_keys_In df on k :
  In k (table_keys df on) <->
  exists r, In r (rows df) /\ complete_row df on r = true /\ key_of df on r = k.
Proof.
  unfold table_keys. rewrite sort_by_In, (unique_by_In _ key_eqb_eq), in_map_iff.
  split.
  - intros (r & E & Hr). apply filter_In in Hr. destruct Hr. eauto.
  - intros (r & Hr & Hc & E). exists r. split; [exact E|].
    apply filter_In. auto.
Qed.

Lemma table_keys_NoDup df on : NoDup (table_keys df on).
Proof.
  unfold table_keys. apply sort_by_NoDup. apply (unique_by_NoDup _ key_eqb_eq).
Qed.

Lemma table_keys_length df on k :
  In k (table_keys df on) -> length k = length on.
Proof.
  intros H. apply table_keys_In in H. destruct H as (r & _ & _ & <-).
  unfold key_of. apply length_map.
Qed.

Lemma table_keys_complete df on k :
  In k (table_keys df on) -> forallb (fun v => negb (is_na v)) k = true.
Proof.
  intros H. apply table_keys_In in H. destruct H as (r & _ & Hc & <-). exact Hc.
Qed.

Lemma existsb_key_In k K : existsb (key_eqb k) K = true <-> In k K.
Proof.
  rewrite existsb_exists. split.
  - intros (x & Hx & E). apply key_eqb_eq in E. subst. exact Hx.
  - intros H. exists k. split; [exact H|apply key_eqb_refl].
Qed.

Lemma filter_key_NoDup (K : list (list value)) (k : list value) :
  NoDup K ->
  filter (key_eqb k) K = if existsb (key_eqb k) K then [k] else [].
Proof.
  induction K as [|x K IH]; intros Hnd; [reflexivity|].
  inversion Hnd as [|? ? Hx Hnd']; subst. cbn.
  destruct (key_eqb k x) eqn:E; cbn.
  - apply key_eqb_eq in E. subst x. rewrite IH by exact Hnd'.
    destruct (existsb (key_eqb k) K) eqn:E'; [|reflexivity].
    apply existsb_key_In in E'. contradiction.
  - apply IH. exact Hnd'.
Qed.

Lemma flat_map_if {A B} (p : A -> bool) (f : A -> B) (l : list A) :
  flat_map (fun x => if p x then [f x] else []) l = map f (filter p l).
Proof.
  induction l as [|x l IH]; cbn; [reflexivity|].
  destruct (p x); cbn; rewrite IH; reflexivity.
Qed.

Lemma flat_map_map {A B C} (f : A -> B) (g : B -> list C) (l : list A) :
  flat_map g (map f l) = flat_map (fun x => g (f x)) l.
Proof.
  induction l as [|x l IH]; cbn; [reflexivity|]. rewrite IH. reflexivity.
Qed.

(** The inner join of two series of integer sums. *)
Lemma inner_join_counts (KT KN : list (list value)) (tsum nsum : list value -> Z) :
  NoDup KN ->
  inner_join (map (fun k => (k, VInt (tsum k))) KT)
             (map (fun k => (k, VInt (nsum k))) KN)
  = map (fun k => k ++ [VInt (tsum k); VInt (nsum k)])
        (filter (fun k => existsb (key_eqb k) KN) KT).
Proof.
  intros Hnd. unfold inner_join. rewrite flat_map_map.
  rewrite <- flat_map_if. apply flat_map_ext. intros k. cbn [fst].
  rewrite filter_map_swap.
  rewrite (filter_ext _ (key_eqb k)) by (intros x; reflexivity).
  rewrite (filter_key_NoDup KN k Hnd).
  destruct (existsb (key_eqb k) KN); reflexivity.
Qed.

Lemma percentage_int (t n : Z) : percentage (VInt t) (VInt n) = Ok (pct_int t n).
Proof.
  unfold percentage, pct_int. cbn. destruct (Z.eqb n 0); reflexivity.
Qed.

Lemma with_percentage_counts (len : nat) (K : list (list value))
    (tsum nsum : list value -> Z) :
  (forall k, In k K -> length k = len) ->
  mapM (with_percentage len)
       (map (fun k => k ++ [VInt (tsum k); VInt (nsum k)]) K)
  = Ok (map (fun k => k ++ [VInt (tsum k); VInt (nsum k);
                            pct_int (tsum k) (nsum k)]) K).
Proof.
  intros Hlen. rewrite mapM_map. apply mapM_Ok_map. intros k Hk.
  rewrite <- (Hlen k Hk), with_percentage_joined, percentage_int. reflexivity.
Qed.

(** A well-formed call, written out: one row for each shared key
    combination, with the two sums of counts and their percentage. *)
Lemma combine_call_counts T N mt mn L :
  well_formed_call T N mt mn L ->
  let cs := resolve_join_cols (columns T) mt L in
  let ds := resolve_join_cols (columns N) mn L in
  exists ct cn,
    dict_get mt "aantal_ho_instromers" = Some ct
    /\ dict_get mn "aantal_mbo_gediplomeerden" = Some cn
    /\ combine_call T N mt mn L
       = Ok (Some (mkDataFrame
                     (firstn (length cs) L ++ [teller_name; noemer_name; pct_name])
                     (map (joined_count_row T N cs ds ct cn)
                          (shared_keys T N cs ds)))).
Proof.
  intros Hwf cs ds.
  destruct (combine_call_returns _ _ _ _ _ Hwf)
    as (ct & cn & st & sn & rs & Et & En & Hst & Hsn & Hrs & E).
  fold cs ds in Hst, Hsn, Hrs, E.
  destruct Hwf as (_ & Hg & _ & _ & _ & _ & _ & Hmt & Hmn).
  destruct Hg as ((ct' & Et' & _ & Hint) & (cn' & En' & _ & Hinn) & _ & _).
  rewrite Et in Et'. injection Et' as <-. rewrite En in En'. injection En' as <-.
  rewrite groupby_sum_named in Hst;
    [|intros c Hc; eapply resolve_join_cols_In; exact Hc|exact Hint|auto].
  rewrite groupby_sum_named in Hsn;
    [|intros c Hc; eapply resolve_join_cols_In; exact Hc|exact Hinn|auto].
  injection Hst as <-. injection Hsn as <-.
  rewrite (inner_join_counts _ _ (key_sum T cs ct) (key_sum N ds cn))
    in Hrs by apply table_keys_NoDup.
  rewrite with_percentage_counts in Hrs.
  - injection Hrs as <-. exists ct, cn. auto.
  - intros k Hk. apply filter_In in Hk. destruct Hk as [Hk _].
    apply table_keys_length in Hk. exact Hk.
Qed.



Lemma column_position_In name cols :
  In name cols -> exists i, column_position name cols = Ok i
                            /\ index_of name cols = Some i.
Proof.
  intros H. unfold column_position.
  destruct (index_of name cols) as [i|] eqn:E; [eauto|].
  apply index_of_None in E. contradiction.
Qed.

(** The summary of a table of counts, written out. *)
Lemma group_summary_counts df by_ :
  (forall c, In c by_ -> In c (columns df)) ->
  In teller_name (columns df) -> In noemer_name (columns df) ->
  count_column_cells df teller_name -> count_column_cells df noemer_name ->
  NoDup by_ ->
  ~ In teller_name by_ -> ~ In noemer_name by_ -> ~ In pct_name by_ ->
  group_summary df by_
  = Ok (mkDataFrame
          (by_ ++ [teller_name; noemer_name; pct_name])
          (map (fun k => k ++ [VInt (key_sum df by_ teller_name k);
                               VInt (key_sum df by_ noemer_name k);
                               pct_int (key_sum df by_ teller_name k)
                                       (key_sum df by_ noemer_name k)])
               (table_keys df by_))).
Proof.
  intros Hby Ht Hn Hct Hcn Hnd Htb Hnb Hpb. unfold group_summary.
  destruct (positions_Ok by_ (columns df) Hby) as (idxs & Hpos & _).
  destruct (column_position_In _ _ Ht) as (ti & Hti & Eti).
  destruct (column_position_In _ _ Hn) as (ni & Hni & Eni).
  rewrite Hpos, Hti, Hni. cbn [bind].
  assert (Hkept : filter (complete_key idxs) (rows df)
                  = filter (complete_row df by_) (rows df)).
  { apply filter_ext. intros r. apply complete_key_row. exact Hpos. }
  assert (Hkeys : group_keys idxs (filter (complete_key idxs) (rows df))
                  = table_keys df by_).
  { rewrite Hkept. unfold group_keys, table_keys. f_equal. f_equal.
    apply map_ext. intros r. apply project_key_of. exact Hpos. }
  rewrite Hkeys.
  rewrite (mapM_Ok_map _ (fun k => k ++ [VInt (key_sum df by_ teller_name k);
                                         VInt (key_sum df by_ noemer_name k)])).
  - cbn [bind].
    assert (Hins : insert_levels by_ [teller_name; noemer_name]
                   = Ok (by_ ++ [teller_name; noemer_name])).
    { apply insert_levels_Ok. split; [reflexivity|]. split; [exact Hnd|].
      intros c Hc [<-|[<-|[]]]; contradiction. }
    rewrite Hins. cbn [bind].
    rewrite add_percentage_grouped by assumption.
    rewrite (with_percentage_counts (length by_) (table_keys df by_)
               (key_sum df by_ teller_name) (key_sum df by_ noemer_name)).
    + reflexivity.
    + intros k Hk. apply table_keys_length in Hk. exact Hk.
  - intros k _.
    assert (Hgrp : filter (fun r => key_eqb (project idxs r) k)
                          (filter (complete_key idxs) (rows df))
                   = filter (fun r => key_eqb (key_of df by_ r) k)
                            (filter (complete_row df by_) (rows df))).
    { rewrite Hkept. apply filter_ext. intros r.
      rewrite (project_key_of df by_ idxs r Hpos). reflexivity. }
    rewrite Hgrp.
    assert (Hsum : forall col i, index_of col (columns df) = Some i ->
              count_column_cells df col ->
              sum_values (map (cell i)
                (filter (fun r => key_eqb (key_of df by_ r) k)
                        (filter (complete_row df by_) (rows df))))
              = Ok (VInt (key_sum df by_ col k))).
    { intros col i Ei Hc. rewrite sum_values_counts.
      - unfold key_sum. do 3 f_equal. apply map_ext. intros r.
        unfold cell_of. rewrite Ei. reflexivity.
      - apply forallb_forall. intros v Hv. apply in_map_iff in Hv.
        destruct Hv as (r & <- & Hr). apply filter_In in Hr. destruct Hr as [Hr _].
        apply filter_In in Hr. destruct Hr as [Hr _].
        specialize (Hc r Hr). unfold cell_of in Hc. rewrite Ei in Hc. exact Hc. }
    rewrite (Hsum teller_name ti Eti Hct), (Hsum noemer_name ni Eni Hcn).
    reflexivity.
Qed.

Lemma map_select {A B} (f : A -> B) (mask : list bool) (l : list A) :
  map f (select mask l) = select mask (map f l).
Proof.
  revert l. induction mask as [|b mask IH]; intros [|x l]; cbn; try reflexivity.
  - destruct b; reflexivity.
  - destruct b; cbn; rewrite IH; reflexivity.
Qed.

Lemma select_In {A} (mask : list bool) (l : list A) x :
  In x (select mask l) -> In x l.
Proof.
  revert l. induction mask as [|b mask IH]; intros [|y l]; cbn; try tauto.
  - destruct b; cbn; tauto.
  - destruct b; cbn; intros H; [destruct H as [H|H]; [left; exact H|]|];
      right; apply IH; exact H.
Qed.

Lemma select_NoDup {A} (mask : list bool) (l : list A) :
  NoDup l -> NoDup (select mask l).
Proof.
  revert l. induction mask as [|b mask IH]; intros [|y l] H; cbn;
    try constructor.
  - destruct b; constructor.
  - inversion H; subst. destruct b; [constructor|]; auto.
    intros Hin. apply select_In in Hin. contradiction.
Qed.

Lemma select_length {A B} (mask : list bool) (l : list A) (l' : list B) :
  length l = length l' -> length (select mask l) = length (select mask l').
Proof.
  revert l l'. induction mask as [|b mask IH]; intros [|x l] [|y l'] H; cbn in *;
    try discriminate; try reflexivity.
  - destruct b; reflexivity.
  - destruct b; cbn; rewrite (IH l l') by lia; reflexivity.
Qed.

Lemma select_Forall2 {A B} (R : A -> B -> Prop) (mask : list bool) l l' :
  Forall2 R l l' -> Forall2 R (select mask l) (select mask l').
Proof.
  intros H. revert mask. induction H as [|x y l l' Hxy _ IH]; intros [|b mask]; cbn;
    try constructor.
  - destruct b; constructor.
  - destruct b; [constructor|]; auto.
Qed.

Lemma select_forallb {A} (p : A -> bool) (mask : list bool) (l : list A) :
  forallb p l = true -> forallb p (select mask l) = true.
Proof.
  revert l. induction mask as [|b mask IH]; intros [|x l] H; cbn; try reflexivity.
  - destruct b; reflexivity.
  - cbn in H. apply andb_true_iff in H. destruct H as [Hx Hl].
    destruct b; cbn; [rewrite Hx|]; apply IH; exact Hl.
Qed.

Lemma no_capture_select (mask : list bool) (ls cs : list string) :
  length ls = length cs ->
  no_capture ls cs -> no_capture (select mask ls) (select mask cs).
Proof.
  revert ls cs. induction mask as [|b mask IH]; intros [|l ls] [|c cs] Hlen H;
    cbn in *; try discriminate; auto.
  - destruct b; exact I.
  - destruct H as [Hl H]. destruct b.
    + cbn. split.
      * intros Hin. apply select_In in Hin. contradiction.
      * apply IH; [lia|exact H].
    + apply IH; [lia|exact H].
Qed.


Lemma sum_ints_cons v l : sum_ints (v :: l) = (int_of v + sum_ints l)%Z.
Proof. destruct v; cbn; lia. Qed.

Lemma sum_ints_VInt {A} (f : A -> Z) (l : list A) :
  sum_ints (map (fun x => VInt (f x)) l) = sum_Z (map f l).
Proof. induction l as [|x l IH]; cbn; [reflexivity|]. rewrite IH. reflexivity. Qed.

Lemma sum_Z_cons (z : Z) (l : list Z) : sum_Z (z :: l) = (z + sum_Z l)%Z.
Proof. reflexivity. Qed.

Lemma sum_Z_one (K : list (list value)) (k : list value) (z : Z)
    (f : list value -> Z) :
  NoDup K ->
  sum_Z (map (fun x => if key_eqb k x then (z + f x)%Z else f x) K)
  = ((if existsb (key_eqb k) K then z else 0) + sum_Z (map f K))%Z.
Proof.
  induction K as [|x K IH]; intros Hnd; [reflexivity|].
  cbn [map existsb]. rewrite !sum_Z_cons.
  inversion Hnd as [|? ? Hx Hnd']; subst. rewrite IH by exact Hnd'.
  destruct (key_eqb k x) eqn:E; cbn [orb].
  - apply key_eqb_eq in E. subst x.
    destruct (existsb (key_eqb k) K) eqn:E'; [|lia].
    apply existsb_key_In in E'. contradiction.
  - destruct (existsb (key_eqb k) K); lia.
Qed.

(** Summing per key and adding up is summing over the rows of all keys. *)
Lemma sum_partition (rs : list row) (c : row -> value) (key : row -> list value)
    (compl : row -> bool) (K : list (list value)) :
  NoDup K ->
  (forall r, In (key r) K -> compl r = true) ->
  sum_ints (map c (filter (fun r => existsb (key_eqb (key r)) K) rs))
  = sum_Z (map (fun k => sum_ints
                           (map c (filter (fun r => key_eqb (key r) k)
                                          (filter compl rs)))) K).
Proof.
  intros Hnd Hcompl. induction rs as [|r rs IH].
  - cbn [filter map]. clear. induction K as [|k K IHK]; [reflexivity|].
    cbn [map]. rewrite sum_Z_cons, <- IHK. reflexivity.
  - set (z := if existsb (key_eqb (key r)) K then int_of (c r) else 0%Z).
    assert (HL : sum_ints (map c (filter (fun r => existsb (key_eqb (key r)) K)
                                         (r :: rs)))
                 = (z + sum_ints (map c (filter (fun r => existsb (key_eqb (key r)) K)
                                                rs)))%Z).
    { unfold z. cbn [filter]. destruct (existsb (key_eqb (key r)) K); [|reflexivity].
      cbn [map]. apply sum_ints_cons. }
    rewrite HL, IH. clear HL IH. unfold z.
    rewrite <- (sum_Z_one K (key r) (int_of (c r)) _ Hnd).
    f_equal. apply map_ext_in. intros k Hk.
    cbn [filter].
    destruct (key_eqb (key r) k) eqn:E.
    + assert (Hc : compl r = true).
      { apply Hcompl. apply key_eqb_eq in E. rewrite E. exact Hk. }
      rewrite Hc. cbn [filter]. rewrite E. cbn [map].
      rewrite sum_ints_cons. reflexivity.
    + destruct (compl r); [|reflexivity]. cbn [filter]. rewrite E. reflexivity.
Qed.

Lemma sort_unique_const (l : list (list value)) (g : list value) :
  l <> [] -> (forall x, In x l -> x = g) ->
  sort_by key_leb (unique_by key_eqb l) = [g].
Proof.
  intros Hne Hall. destruct l as [|x l]; [congruence|].
  assert (x = g) by (apply Hall; left; reflexivity). subst x.
  cbn [unique_by].
  rewrite (filter_ext_in _ (fun _ => false)), filter_false; [reflexivity|].
  intros y Hy. apply (proj1 (unique_by_In _ key_eqb_eq y l)) in Hy.
  rewrite (Hall y (or_intror Hy)), key_eqb_refl. reflexivity.
Qed.

Lemma key_of_restrict df on K on' r :
  key_of (restrict_to_keys df on K) on' r = key_of df on' r.
Proof. reflexivity. Qed.

(** Restricting a table to keys that all project to [g] leaves the one key
    [g] for the selected columns. *)
Lemma restricted_keys df on mask K g :
  K <> [] ->
  (forall k, In k K -> In k (table_keys df on) /\ select mask k = g) ->
  table_keys (restrict_to_keys df on K) (select mask on) = [g].
Proof.
  intros Hne HK. unfold table_keys. apply sort_unique_const.
  - destruct K as [|k0 K']; [congruence|].
    destruct (HK k0 (or_introl eq_refl)) as [Hk0 _].
    apply table_keys_In in Hk0. destruct Hk0 as (r & Hr & Hc & Ek).
    intros E. apply (f_equal (@length _)) in E. rewrite length_map in E.
    assert (Hin : In r (filter (complete_row (restrict_to_keys df on (k0 :: K'))
                                             (select mask on))
                               (rows (restrict_to_keys df on (k0 :: K'))))).
    { apply filter_In. split.
      - cbn [rows restrict_to_keys]. apply filter_In. split; [exact Hr|].
        apply existsb_key_In. left. symmetry. exact Ek.
      - unfold complete_row. rewrite key_of_restrict.
        unfold key_of. rewrite map_select. apply select_forallb. exact Hc. }
    destruct (filter _ _); [destruct Hin|discriminate E].
  - intros x Hx. apply in_map_iff in Hx. destruct Hx as (r & <- & Hr).
    apply filter_In in Hr. destruct Hr as [Hr _].
    cbn [rows restrict_to_keys] in Hr. apply filter_In in Hr.
    destruct Hr as [_ Hr]. apply existsb_key_In in Hr.
    destruct (HK _ Hr) as [_ <-].
    rewrite key_of_restrict. unfold key_of. apply map_select.
Qed.

(** ... and the sum for that key is the total of the sums of the keys. *)
Lemma restricted_sum df on mask K g col :
  NoDup K ->
  (forall k, In k K -> In k (table_keys df on) /\ select mask k = g) ->
  key_sum (restrict_to_keys df on K) (select mask on) col g
  = sum_Z (map (key_sum df on col) K).
Proof.
  intros Hnd HK. unfold key_sum at 1.
  assert (Hall : forall r, In r (rows (restrict_to_keys df on K)) ->
            complete_row (restrict_to_keys df on K) (select mask on) r = true
            /\ key_eqb (key_of (restrict_to_keys df on K) (select mask on) r) g
               = true).
  { intros r Hr. cbn [rows restrict_to_keys] in Hr. apply filter_In in Hr.
    destruct Hr as [_ Hr]. apply existsb_key_In in Hr.
    destruct (HK _ Hr) as [Hk Hg]. split.
    - unfold complete_row. rewrite key_of_restrict. unfold key_of.
      rewrite map_select. apply select_forallb.
      apply (table_keys_complete df on). exact Hk.
    - apply key_eqb_eq. rewrite key_of_restrict. unfold key_of.
      rewrite map_select. exact Hg. }
  rewrite (filter_ext_in _ (fun _ => true)
             (rows (restrict_to_keys df on K))), filter_true
    by (intros r Hr; apply (Hall r Hr)).
  rewrite (filter_ext_in _ (fun _ => true)), filter_true
    by (intros r Hr; apply (Hall r Hr)).
  cbn [rows restrict_to_keys].
  change (cell_of (restrict_to_keys df on K) col) with (cell_of df col).
  apply (sum_partition (rows df) (cell_of df col) (key_of df on)
           (complete_row df on) K Hnd).
  intros r Hr. destruct (HK _ Hr) as [Hk _].
  apply (table_keys_complete df on). exact Hk.
Qed.



Lemma resolve_select cols m L mask :
  Forall (fun l => exists c, dict_get m l = Some c /\ c <> "" /\ In c cols) L ->
  resolve_join_cols cols m (select mask L)
  = select mask (resolve_join_cols cols m L).
Proof.
  intros H. revert mask. induction H as [|l L (c & E & Hc & Hin) _ IH];
    intros mask.
  - destruct mask as [|[] mask]; reflexivity.
  - apply truthy_Some in Hc. apply has_column_In in Hin.
    assert (Hl : forall L', resolve_join_cols cols m (l :: L')
                            = c :: resolve_join_cols cols m L').
    { intros L'. cbn [resolve_join_cols]. rewrite E, Hc, Hin. reflexivity. }
    rewrite Hl. destruct mask as [|[] mask]; cbn [select].
    + reflexivity.
    + rewrite Hl, IH. reflexivity.
    + apply IH.
Qed.

Lemma restrict_rows_In df on K r :
  In r (rows (restrict_to_keys df on K)) -> In r (rows df).
Proof. cbn. intros H. apply filter_In in H. tauto. Qed.

Lemma same_kind_restrict T N on on' K K' c d :
  same_kind T N c d ->
  same_kind (restrict_to_keys T on K) (restrict_to_keys N on' K') c d.
Proof.
  intros (b & H1 & H2). exists b. split; intros r Hr; apply restrict_rows_In in Hr.
  - apply (H1 r Hr).
  - apply (H2 r Hr).
Qed.

Lemma Forall2_impl {A B} (R R' : A -> B -> Prop) l l' :
  (forall x y, R x y -> R' x y) -> Forall2 R l l' -> Forall2 R' l l'.
Proof. intros H. induction 1; constructor; auto. Qed.

(** A well-formed call stays well-formed when the tables are restricted to
    some keys and the join labels to a sub-list. *)
Lemma well_formed_restricted T N mt mn L mask K K' :
  well_formed_call T N mt mn L ->
  Forall (label_resolved T mt) L -> Forall (label_resolved N mn) L ->
  select mask L <> [] ->
  well_formed_call
    (restrict_to_keys T (resolve_join_cols (columns T) mt L) K)
    (restrict_to_keys N (resolve_join_cols (columns N) mn L) K')
    mt mn (select mask L).
Proof.
  intros Hwf Hrt Hrn Hne. unfold well_formed_call in *.
  cbn [columns restrict_to_keys].
  set (cs := resolve_join_cols (columns T) mt L) in *.
  set (ds := resolve_join_cols (columns N) mn L) in *.
  destruct Hwf as ((HndL & Hvoc) & Hg & Hndt & Hndn & Hct & Hcn & Hkind & Hmt & Hmn).
  assert (Hlc : length cs = length L) by (apply resolve_all; exact Hrt).
  assert (Hld : length ds = length L) by (apply resolve_all; exact Hrn).
  rewrite (resolve_select (columns T) mt L mask Hrt).
  rewrite (resolve_select (columns N) mn L mask Hrn). fold cs ds.
  assert (Hlsc : length (select mask cs) = length (select mask L))
    by (apply select_length; exact Hlc).
  assert (Hlsd : length (select mask ds) = length (select mask L))
    by (apply select_length; exact Hld).
  rewrite Hlc, firstn_all in Hct, Hcn.
  rewrite Hlsc, firstn_all.
  destruct (NoDup_snoc_notin _ _ Hndt) as [Hndc Htc].
  destruct (NoDup_snoc_notin _ _ Hndn) as [Hndd Hnd'].
  split; [|split; [|split; [|split; [|split; [|split; [|split; [|split]]]]]]].
  - split; [apply select_NoDup; exact HndL|].
    intros l Hl. apply Hvoc. eapply select_In. exact Hl.
  - destruct Hg as (Ht & Hn & _ & _). unfold guards_pass.
    cbn [columns restrict_to_keys].
    rewrite (resolve_select (columns T) mt L mask Hrt).
    rewrite (resolve_select (columns N) mn L mask Hrn). fold cs ds.
    split; [exact Ht|]. split; [exact Hn|]. split; [|congruence].
    intros E. rewrite E in Hlsc. destruct (select mask L); [congruence|discriminate].
  - apply NoDup_app; [apply select_NoDup; exact Hndc|repeat constructor; tauto|].
    intros x Hx [<-|[]]. apply select_In in Hx. contradiction.
  - apply NoDup_app; [apply select_NoDup; exact Hndd|repeat constructor; tauto|].
    intros x Hx [<-|[]]. apply select_In in Hx. contradiction.
  - apply no_capture_select; [congruence|exact Hct].
  - apply no_capture_select; [congruence|exact Hcn].
  - apply select_Forall2. eapply Forall2_impl; [|exact Hkind].
    intros c d. apply same_kind_restrict.
  - intros ct E r Hr. apply restrict_rows_In in Hr. apply (Hmt ct E r Hr).
  - intros cn E r Hr. apply restrict_rows_In in Hr. apply (Hmn cn E r Hr).
Qed.


Section JoinedTable.
Variables (L : list string) (K : list (list value)).
Variables (tsum nsum : list value -> Z).
Hypothesis L_NoDup : NoDup L.
Hypothesis L_teller : ~ In teller_name L.
Hypothesis L_noemer : ~ In noemer_name L.
Hypothesis L_pct : ~ In pct_name L.
Hypothesis K_length : forall k, In k K -> length k = length L.
Hypothesis K_complete :
  forall k, In k K -> forallb (fun v => negb (is_na v)) k = true.

Local Abbreviation jrow := (count_row tsum nsum).
Local Abbreviation J := (count_table L K tsum nsum).

Lemma joined_key_of_select mask k :
  In k K -> key_of J (select mask L) (jrow k) = select mask k.
Proof.
  intros Hk. unfold key_of. rewrite map_select. f_equal.
  apply (key_of_app L _ k _ (map jrow K)); auto.
Qed.

Lemma joined_key_of k : In k K -> key_of J L (jrow k) = k.
Proof. intros Hk. apply (key_of_app L _ k _ (map jrow K)); auto. Qed.

Lemma joined_teller k : In k K -> cell_of J teller_name (jrow k) = VInt (tsum k).
Proof.
  intros Hk. unfold count_table, count_row.
  rewrite (cell_of_app L _ k _ teller_name _ 0); auto.
Qed.

Lemma joined_noemer k : In k K -> cell_of J noemer_name (jrow k) = VInt (nsum k).
Proof.
  intros Hk. unfold count_table, count_row.
  rewrite (cell_of_app L _ k _ noemer_name _ 1); auto.
Qed.

Lemma joined_complete mask k :
  In k K -> complete_row J (select mask L) (jrow k) = true.
Proof.
  intros Hk. unfold complete_row. rewrite joined_key_of_select by exact Hk.
  apply select_forallb. apply K_complete. exact Hk.
Qed.

Lemma joined_kept mask :
  filter (complete_row J (select mask L)) (rows J) = rows J.
Proof.
  rewrite (filter_ext_in _ (fun _ => true)), filter_true; [reflexivity|].
  intros r Hr. cbn [rows count_table] in Hr. apply in_map_iff in Hr.
  destruct Hr as (k & <- & Hk). apply joined_complete. exact Hk.
Qed.

Lemma joined_group mask g :
  filter (fun r => key_eqb (key_of J (select mask L) r) g) (rows J)
  = map jrow (filter (fun k => key_eqb (select mask k) g) K).
Proof.
  cbn [rows count_table]. rewrite filter_map_swap. f_equal.
  apply filter_ext_in. intros k Hk.
  rewrite joined_key_of_select by exact Hk. reflexivity.
Qed.

Lemma joined_table_keys mask :
  table_keys J (select mask L)
  = sort_by key_leb (unique_by key_eqb (map (select mask) K)).
Proof.
  unfold table_keys. rewrite joined_kept. cbn [rows count_table]. rewrite map_map.
  do 2 f_equal. apply map_ext_in. intros k Hk. apply joined_key_of_select.
  exact Hk.
Qed.

Lemma joined_subgroup_keys mask g :
  subgroup_keys J L (select mask L) g
  = filter (fun k => key_eqb (select mask k) g) K.
Proof.
  unfold subgroup_keys. rewrite joined_group, map_map.
  rewrite <- (map_id (filter _ K)) at 2. apply map_ext_in.
  intros k Hk. apply filter_In in Hk. apply joined_key_of. tauto.
Qed.

Lemma joined_key_sum_teller mask g :
  key_sum J (select mask L) teller_name g
  = sum_Z (map tsum (filter (fun k => key_eqb (select mask k) g) K)).
Proof.
  unfold key_sum. rewrite joined_kept, joined_group, map_map.
  rewrite <- sum_ints_VInt. f_equal. apply map_ext_in.
  intros k Hk. apply filter_In in Hk. apply joined_teller. tauto.
Qed.

Lemma joined_key_sum_noemer mask g :
  key_sum J (select mask L) noemer_name g
  = sum_Z (map nsum (filter (fun k => key_eqb (select mask k) g) K)).
Proof.
  unfold key_sum. rewrite joined_kept, joined_group, map_map.
  rewrite <- sum_ints_VInt. f_equal. apply map_ext_in.
  intros k Hk. apply filter_In in Hk. apply joined_noemer. tauto.
Qed.

Lemma joined_group_nonempty mask g :
  In g (table_keys J (select mask L)) ->
  filter (fun k => key_eqb (select mask k) g) K <> [].
Proof.
  rewrite joined_table_keys, sort_by_In, (unique_by_In _ key_eqb_eq), in_map_iff.
  intros (k & E & Hk) Hnil.
  assert (Hin : In k (filter (fun k => key_eqb (select mask k) g) K)).
  { apply filter_In. split; [exact Hk|]. apply key_eqb_eq. exact E. }
  rewrite Hnil in Hin. destruct Hin.
Qed.

Lemma joined_summary mask :
  group_summary J (select mask L)
  = Ok (mkDataFrame
          (select mask L ++ [teller_name; noemer_name; pct_name])
          (map (summary_row J (select mask L))
               (table_keys J (select mask L)))).
Proof.
  apply group_summary_counts.
  - intros c Hc. apply select_In in Hc. cbn [columns count_table]. apply in_or_app. tauto.
  - cbn [columns count_table]. apply in_or_app. right. left. reflexivity.
  - cbn [columns count_table]. apply in_or_app. right. right. left. reflexivity.
  - intros r Hr. cbn [rows count_table] in Hr. apply in_map_iff in Hr.
    destruct Hr as (k & <- & Hk). rewrite joined_teller by exact Hk. reflexivity.
  - intros r Hr. cbn [rows count_table] in Hr. apply in_map_iff in Hr.
    destruct Hr as (k & <- & Hk). rewrite joined_noemer by exact Hk. reflexivity.
  - apply select_NoDup. exact L_NoDup.
  - intros H. apply select_In in H. contradiction.
  - intros H. apply select_In in H. contradiction.
  - intros H. apply select_In in H. contradiction.
Qed.

End JoinedTable.



Lemma shared_keys_In T N cs ds k :
  In k (shared_keys T N cs ds) <->
  In k (table_keys T cs) /\ In k (table_keys N ds).
Proof.
  unfold shared_keys. rewrite filter_In, existsb_key_In. reflexivity.
Qed.

Lemma shared_keys_NoDup T N cs ds : NoDup (shared_keys T N cs ds).
Proof. apply NoDup_filter. apply table_keys_NoDup. Qed.


(** Without the restriction to the key combinations of the group the two
    computations differ: the inner join has dropped the teller rows whose
    key the noemer lacks, a join on the coarser label has not. *)
Example rerun_on_all_rows_differs :
  combine_call avg_teller sc_noemer sc_map_teller sc_map_noemer
    ["jaar"; "sector_mbo"]
  = Ok (Some (mkDataFrame
                ["jaar"; "sector_mbo"; teller_name; noemer_name; pct_name]
                [[VInt 2021; VStr "Zorg"; VInt 50; VInt 200;
                  VFloat (inject_Z 50 / inject_Z 200 * 100)]]))
  /\ combine_call avg_teller sc_noemer sc_map_teller sc_map_noemer ["jaar"]
     = Ok (Some (mkDataFrame
                   ["jaar"; teller_name; noemer_name; pct_name]
                   [[VInt 2021; VInt 80; VInt 200;
                     VFloat (inject_Z 80 / inject_Z 200 * 100)]])).
Proof. split; vm_compute; reflexivity. Qed.


Lemma index_of_In name cols :
  In name cols -> exists i, index_of name cols = Some i.
Proof.
  intros H. destruct (index_of name cols) eqn:E; [eauto|].
  apply index_of_None in E. contradiction.
Qed.

Lemma default_index_Ok default_col available_cols :
  exists i, default_index default_col available_cols = Ok i.
Proof.
  unfold default_index. destruct default_col as [c|]; [|eauto].
  destruct (has_column c available_cols) eqn:E; [|eauto].
  apply has_column_In in E. unfold py_index.
  destruct (index_of_In c (geen :: available_cols)) as [i ->]; [right; exact E|].
  eauto.
Qed.

(** The option stored for one label. *)
Lemma mapping_entry_Ok selectbox cols key m label :
  exists v,
    mapping_entry selectbox cols key m label = Ok (<[label := v]> m)
    /\ (answers_an_option selectbox ->
        v = None \/ exists c, v = Some c /\ In c cols /\ c <> geen).
Proof.
  unfold mapping_entry.
  destruct (default_index_Ok (dict_get_or m label (suggest_default label cols))
              cols) as [i ->].
  cbn [bind]. eexists. split; [reflexivity|]. intros Hsel.
  specialize (Hsel (key ++ "_" ++ label)%string cols i).
  destruct (String.eqb _ geen) eqn:E; [left; reflexivity|right].
  apply String.eqb_neq in E. eexists. split; [reflexivity|].
  split; [|exact E]. destruct Hsel as [Hs|Hs]; [congruence|exact Hs].
Qed.

Lemma mapping_loop_cons selectbox cols key item items m :
  mapping_loop selectbox cols key (item :: items) m
  = let* m' := mapping_entry selectbox cols key m (fst item) in
    mapping_loop selectbox cols key items m'.
Proof.
  unfold mapping_loop. cbn [fold_left bind].
  destruct (mapping_entry selectbox cols key m (fst item)) as [m'|e];
    [reflexivity|].
  cbn [bind]. induction items as [|x xs IH]; [reflexivity|exact IH].
Qed.

Lemma mapping_loop_app selectbox cols key l1 l2 m :
  mapping_loop selectbox cols key (l1 ++ l2) m
  = let* m' := mapping_loop selectbox cols key l1 m in
    mapping_loop selectbox cols key l2 m'.
Proof.
  revert m. induction l1 as [|x l1 IH]; intros m; [reflexivity|].
  cbn [app]. rewrite !mapping_loop_cons.
  destruct (mapping_entry selectbox cols key m (fst x)) as [m'|e];
    [cbn [bind]; apply IH|reflexivity].
Qed.

(** The two loops of [mapping_ui] are one loop over all the labels. *)
Lemma mapping_ui_loop selectbox s df key labels :
  mapping_ui selectbox s df key labels
  = let* m := mapping_loop selectbox (columns df) key labels
                (stored_mapping s key) in
    Ok (m, <[key := m]> s).
Proof.
  unfold mapping_ui.
  rewrite <- (firstn_skipn (Nat.div (length labels) 2) labels) at 3.
  rewrite mapping_loop_app.
  assert (Hst : stored_mapping
                  match s !! key with
                  | Some _ => s
                  | None => <[key:=∅]> s
                  end key = stored_mapping s key).
  { unfold stored_mapping. destruct (s !! key) eqn:E; cbv beta iota.
    - rewrite E. reflexivity.
    - rewrite lookup_insert_eq. reflexivity. }
  rewrite Hst.
  destruct (mapping_loop selectbox (columns df) key
              (firstn (Nat.div (length labels) 2) labels)
              (stored_mapping s key)) as [m1|e]; [|reflexivity].
  cbn [bind].
  destruct (mapping_loop selectbox (columns df) key
              (skipn (Nat.div (length labels) 2) labels) m1) as [m2|e];
    [|reflexivity].
  cbn [bind]. do 2 f_equal.
  destruct (s !! key); [reflexivity|apply insert_insert_eq].
Qed.

(** What the loop leaves in the mapping, for any select box. *)
Lemma mapping_loop_entries selectbox cols key items :
  forall m,
  exists m',
    mapping_loop selectbox cols key items m = Ok m'
    /\ (forall label, ~ In label (map fst items) -> m' !! label = m !! label)
    /\ (answers_an_option selectbox ->
        forall label, In label (map fst items) ->
          m' !! label = Some None
          \/ exists c, m' !! label = Some (Some c) /\ In c cols /\ c <> geen).
Proof.
  induction items as [|item items IH]; intros m.
  - exists m. split; [reflexivity|]. split; [reflexivity|]. intros _ l [].
  - rewrite mapping_loop_cons.
    destruct (mapping_entry_Ok selectbox cols key m (fst item)) as (v & -> & Hv).
    cbn [bind].
    destruct (IH (<[fst item := v]> m)) as (m' & E & Hout & Hin).
    exists m'. split; [exact E|]. split.
    + intros label Hl. cbn [map] in Hl.
      rewrite Hout by (intros H; apply Hl; right; exact H).
      apply lookup_insert_ne. intros Heq. apply Hl. left. exact Heq.
    + intros Hsel label Hl.
      destruct (in_dec string_dec label (map fst items)) as [Hi|Hi].
      * apply Hin; assumption.
      * rewrite Hout by exact Hi.
        destruct Hl as [<-|Hl]; [|contradiction].
        rewrite lookup_insert_eq.
        destruct (Hv Hsel) as [->|(c & -> & Hc)]; [left; reflexivity|].
        right. exists c. split; [reflexivity|exact Hc].
Qed.

Lemma suggest_default_In label cols c :
  suggest_default label cols = Some c -> In c cols.
Proof.
  induction cols as [|x cols IH]; cbn; [discriminate|].
  destruct (suggest_hit label x).
  - intros [= ->]. left. reflexivity.
  - intros H. right. apply IH. exact H.
Qed.

(** The select box of a column that is offered shows that column. *)
Lemma untouched_index c cols key :
  In c cols ->
  exists i, py_index c (geen :: cols) = Ok i
            /\ untouched key (geen :: cols) i = c.
Proof.
  intros Hc. unfold py_index. cbn [index_of].
  destruct (String.eqb geen c) eqn:E.
  - apply String.eqb_eq in E. exists 0%nat. split; [reflexivity|]. exact E.
  - destruct (index_of_In c cols Hc) as [j Ej]. rewrite Ej.
    exists (S j). split; [reflexivity|].
    unfold untouched. cbn [nth].
    destruct (index_of_Some c cols j Ej) as [Hlt Hn].
    rewrite (nth_indep cols geen "" Hlt). exact Hn.
Qed.

Lemma mapping_entry_untouched cols key m label :
  mapping_entry untouched cols key m label
  = Ok (<[label := settled cols (m !! label) label]> m).
Proof.
  assert (Hin : forall c, In c cols ->
            (let* index := default_index (Some c) cols in
             Ok (<[label := if String.eqb
                                 (untouched (key ++ "_" ++ label)%string
                                            (geen :: cols) index) geen
                            then None
                            else Some (untouched (key ++ "_" ++ label)%string
                                                 (geen :: cols) index)]> m))
            = Ok (<[label := if String.eqb c geen then None else Some c]> m)).
  { intros c Hc. unfold default_index.
    rewrite (proj2 (has_column_In c cols) Hc).
    destruct (untouched_index c cols (key ++ "_" ++ label)%string Hc)
      as (i & -> & Hi).
    cbn [bind]. rewrite Hi. reflexivity. }
  unfold mapping_entry, dict_get_or, settled. cbv zeta.
  destruct (m !! label) as [[c|]|].
  - destruct (has_column c cols) eqn:Hc.
    + rewrite (Hin c (proj1 (has_column_In c cols) Hc)). cbn [andb].
      destruct (String.eqb c geen); reflexivity.
    + unfold default_index. rewrite Hc. reflexivity.
  - reflexivity.
  - destruct (suggest_default label cols) as [c|] eqn:Es; [|reflexivity].
    apply Hin. eapply suggest_default_In. exact Es.
Qed.

(** Settling a settled entry changes nothing. *)
Lemma settled_idem cols stored label :
  settled cols (Some (settled cols stored label)) label
  = settled cols stored label.
Proof.
  assert (H : forall c, In c cols ->
            settled cols (Some (if String.eqb c geen then None else Some c)) label
            = if String.eqb c geen then None else Some c).
  { intros c Hc. destruct (String.eqb c geen) eqn:E; [reflexivity|].
    cbn [settled]. rewrite (proj2 (has_column_In c cols) Hc), E. reflexivity. }
  destruct stored as [[c|]|]; cbn [settled].
  - destruct (has_column c cols && negb (String.eqb c geen)) eqn:E;
      [|reflexivity].
    cbn [settled]. rewrite E. reflexivity.
  - reflexivity.
  - destruct (suggest_default label cols) as [c|] eqn:Es; [|reflexivity].
    apply H. eapply suggest_default_In. exact Es.
Qed.

Lemma mapping_loop_untouched cols key items :
  forall m,
  exists m',
    mapping_loop untouched cols key items m = Ok m'
    /\ forall label,
         m' !! label
         = if in_dec string_dec label (map fst items)
           then Some (settled cols (m !! label) label)
           else m !! label.
Proof.
  induction items as [|item items IH]; intros m.
  - exists m. split; [reflexivity|]. intros label. reflexivity.
  - rewrite mapping_loop_cons, mapping_entry_untouched. cbn [bind].
    destruct (IH (<[fst item := settled cols (m !! fst item) (fst item)]> m))
      as (m' & E & Hm').
    exists m'. split; [exact E|]. intros label. rewrite Hm'.
    destruct (string_dec (fst item) label) as [<-|Hne].
    + rewrite lookup_insert_eq.
      destruct (in_dec string_dec (fst item) (map fst (item :: items)))
        as [_|Hn]; [|exfalso; apply Hn; left; reflexivity].
      destruct (in_dec string_dec (fst item) (map fst items));
        [rewrite settled_idem|]; reflexivity.
    + rewrite lookup_insert_ne by exact Hne.
      destruct (in_dec string_dec label (map fst items)) as [Hi|Hi];
        destruct (in_dec string_dec label (map fst (item :: items)))
          as [Hj|Hj]; try reflexivity.
      * exfalso. apply Hj. right. exact Hi.
      * exfalso. destruct Hj as [Hj|Hj]; [exact (Hne Hj)|exact (Hi Hj)].
Qed.

(** X1.  [mapping_ui] raises nothing, whatever the select boxes answer: the
    guard [default_col in available_cols] keeps [list.index] from failing.
    The mapping it returns is also what it leaves in the session state under
    [mapping_key]; entries of labels that are not functional labels are
    kept as they were stored.  When every select box answers one of its
    options, each functional label ends up with [None] or with a column of
    the table, and that column is never one called [(geen)]. *)
Theorem mapping_ui_entries (selectbox : selectbox_widget)
    (session_state : gmap string (gmap string (option string)))
    (df : DataFrame) (mapping_key : string)
    (functionele_labels : list (string * string)) :
  exists mapping,
    mapping_ui selectbox session_state df mapping_key functionele_labels
    = Ok (mapping, <[mapping_key := mapping]> session_state)
    /\ (forall label, ~ In label (map fst functionele_labels) ->
          mapping !! label = stored_mapping session_state mapping_key !! label)
    /\ (answers_an_option selectbox ->
        forall label, In label (map fst functionele_labels) ->
          mapping !! label = Some None
          \/ exists c, mapping !! label = Some (Some c)
                       /\ In c (columns df) /\ c <> geen).
Proof.
  rewrite mapping_ui_loop.
  destruct (mapping_loop_entries selectbox (columns df) mapping_key
              functionele_labels (stored_mapping session_state mapping_key))
    as (m & -> & Hout & Hin).
  exists m. split; [reflexivity|]. split; [exact Hout|exact Hin].
Qed.

Lemma untouched_answers : answers_an_option untouched.
Proof.
  intros key cols index. unfold untouched.
  destruct (Nat.lt_ge_cases index (length (geen :: cols))) as [H|H].
  - apply nth_In. exact H.
  - rewrite nth_overflow by exact H. left. reflexivity.
Qed.

Lemma mapping_ui_entries_witness :
  answers_an_option untouched
  /\ exists mapping,
       mapping_ui untouched ∅ sc_teller "mapping_teller" labels_teller
       = Ok (mapping, <["mapping_teller" := mapping]> ∅)
       /\ forall label, In label (map fst labels_teller) ->
            mapping !! label = Some None
            \/ exists c, mapping !! label = Some (Some c)
                         /\ In c (columns sc_teller) /\ c <> geen.
Proof.
  split; [exact untouched_answers|].
  destruct (mapping_ui_entries untouched ∅ sc_teller "mapping_teller"
              labels_teller) as (m & E & _ & Hin).
  exists m. split; [exact E|exact (Hin untouched_answers)].
Defined.

(** X2.  When the select boxes are left as they are shown, the entry of
    every functional label is settled by what the session state held for
    it: a stored column is kept if the table still has it (and it is not
    called [(geen)]); a stored [None], or a stored column the table no
    longer has, gives [None], the suggestion is not consulted; only a label
    without a stored entry gets the suggestion of [suggest_default]. *)
Theorem mapping_ui_untouched
    (session_state : gmap string (gmap string (option string)))
    (df : DataFrame) (mapping_key : string)
    (functionele_labels : list (string * string)) :
  exists mapping,
    mapping_ui untouched session_state df mapping_key functionele_labels
    = Ok (mapping, <[mapping_key := mapping]> session_state)
    /\ forall label, In label (map fst functionele_labels) ->
         mapping !! label
         = Some (match stored_mapping session_state mapping_key !! label with
                 | Some (Some c) =>
                     if has_column c (columns df) && negb (String.eqb c geen)
                     then Some c else None
                 | Some None => None
                 | None =>
                     match suggest_default label (columns df) with
                     | Some c => if String.eqb c geen then None else Some c
                     | None => None
                     end
                 end).
Proof.
  rewrite mapping_ui_loop.
  destruct (mapping_loop_untouched (columns df) mapping_key functionele_labels
              (stored_mapping session_state mapping_key)) as (m & -> & Hm).
  exists m. split; [reflexivity|]. intros label Hl. rewrite Hm.
  destruct (in_dec string_dec label (map fst functionele_labels));
    [reflexivity|contradiction].
Qed.

(** X3.  With the select boxes left untouched a second run of [mapping_ui]
    on the session state of the first run returns the same mapping and
    leaves the session state as it is. *)
Theorem mapping_ui_rerun
    (session_state : gmap string (gmap string (option string)))
    (df : DataFrame) (mapping_key : string)
    (functionele_labels : list (string * string)) :
  exists mapping session_state',
    mapping_ui untouched session_state df mapping_key functionele_labels
    = Ok (mapping, session_state')
    /\ mapping_ui untouched session_state' df mapping_key functionele_labels
       = Ok (mapping, session_state').
Proof.
  rewrite mapping_ui_loop.
  destruct (mapping_loop_untouched (columns df) mapping_key functionele_labels
              (stored_mapping session_state mapping_key)) as (m & -> & Hm).
  exists m, (<[mapping_key := m]> session_state). split; [reflexivity|].
  rewrite mapping_ui_loop.
  assert (Hst : stored_mapping (<[mapping_key := m]> session_state) mapping_key
                = m).
  { unfold stored_mapping. rewrite lookup_insert_eq. reflexivity. }
  rewrite Hst.
  destruct (mapping_loop_untouched (columns df) mapping_key functionele_labels m)
    as (m2 & -> & Hm2).
  cbn [bind].
  assert (E : m2 = m).
  { apply map_eq. intros label. rewrite Hm2, Hm.
    destruct (in_dec string_dec label (map fst functionele_labels));
      [rewrite settled_idem|]; reflexivity. }
  rewrite E, insert_insert_eq. reflexivity.
Qed.


Lemma mapped_resolved df m Ls label :
  entries_in (columns df) m Ls -> In label Ls ->
  (label_resolved df m label <-> mapped m label = true).
Proof.
  intros He Hl. unfold label_resolved, mapped, dict_get.
  destruct (He label Hl) as [E|(c & E & Hc & _)]; rewrite E.
  - split; [intros (c & H & _); discriminate|discriminate].
  - cbn [PyStr.truthy]. split.
    + intros (c' & [= <-] & Hne & _). apply negb_true_iff.
      apply String.eqb_neq. exact Hne.
    + intros H. exists c. split; [reflexivity|]. split; [|exact Hc].
      apply String.eqb_neq. apply negb_true_iff. exact H.
Qed.

Lemma mapped_resolve_length df m Ls L :
  entries_in (columns df) m Ls -> incl L Ls ->
  length (resolve_join_cols (columns df) m L) = length (filter (mapped m) L).
Proof.
  intros He. induction L as [|l L IH]; intros Hi; [reflexivity|].
  assert (Hl : In l Ls) by (apply Hi; left; reflexivity).
  assert (HL : incl L Ls) by (intros x Hx; apply Hi; right; exact Hx).
  cbn [resolve_join_cols filter]. unfold mapped at 1.
  destruct (He l Hl) as [E|(c & E & Hc & _)].
  - assert (Hd : dict_get m l = None) by (unfold dict_get; rewrite E; reflexivity).
    rewrite Hd. cbn [PyStr.truthy]. apply IH. exact HL.
  - assert (Hd : dict_get m l = Some c)
      by (unfold dict_get; rewrite E; reflexivity).
    rewrite Hd, (proj2 (has_column_In c (columns df)) Hc), andb_true_r.
    destruct (PyStr.truthy (Some c)); cbn [length]; rewrite (IH HL);
      reflexivity.
Qed.

(** X4.  The mappings the application hands to [combine_teller_noemer] come
    from [mapping_ui] on the same two tables.  Every column they name is
    then a column of its table, so the membership tests of
    [combine_teller_noemer] reject nothing: a label resolves exactly when it
    is mapped, and the call returns [None] exactly when a measure is not
    mapped, no selected label is mapped in the teller, or the two sides map
    different numbers of selected labels. *)
Theorem combine_after_mapping (select_teller select_noemer : selectbox_widget)
    (session_state : gmap string (gmap string (option string)))
    (df_teller df_noemer : DataFrame) :
  answers_an_option select_teller -> answers_an_option select_noemer ->
  exists map_teller map_noemer s1 s2,
    mapping_ui select_teller session_state df_teller "mapping_teller"
      labels_teller = Ok (map_teller, s1)
    /\ mapping_ui select_noemer s1 df_noemer "mapping_noemer" labels_noemer
       = Ok (map_noemer, s2)
    /\ s2 !! "mapping_teller" = Some map_teller
    /\ s2 !! "mapping_noemer" = Some map_noemer
    /\ forall geselecteerde_labels,
         incl geselecteerde_labels mogelijke_join_labels ->
         let nt := length (filter (mapped map_teller) geselecteerde_labels) in
         let nn := length (filter (mapped map_noemer) geselecteerde_labels) in
         (forall label, In label geselecteerde_labels ->
            (label_resolved df_teller map_teller label
             <-> mapped map_teller label = true)
            /\ (label_resolved df_noemer map_noemer label
                <-> mapped map_noemer label = true))
         /\ (combine_call df_teller df_noemer map_teller map_noemer
               geselecteerde_labels = Ok None
             <-> mapped map_teller "aantal_ho_instromers" = false
                 \/ mapped map_noemer "aantal_mbo_gediplomeerden" = false
                 \/ nt = 0%nat \/ nt <> nn).
Proof.
  intros Ht Hn.
  destruct (mapping_loop_entries select_teller (columns df_teller)
              "mapping_teller" labels_teller
              (stored_mapping session_state "mapping_teller"))
    as (mt & Et & _ & Hint).
  specialize (Hint Ht).
  set (s1 := <["mapping_teller" := mt]> session_state).
  destruct (mapping_loop_entries select_noemer (columns df_noemer)
              "mapping_noemer" labels_noemer
              (stored_mapping s1 "mapping_noemer"))
    as (mn & En & _ & Hinn).
  specialize (Hinn Hn).
  exists mt, mn, s1, (<["mapping_noemer" := mn]> s1).
  split; [rewrite mapping_ui_loop, Et; reflexivity|].
  split; [rewrite mapping_ui_loop, En; reflexivity|].
  split; [unfold s1; rewrite lookup_insert_ne by discriminate;
          apply lookup_insert_eq|].
  split; [apply lookup_insert_eq|].
  intros L HL nt nn.
  assert (HLt : incl L (map fst labels_teller)).
  { intros l Hl. apply HL in Hl. cbn in Hl |- *. tauto. }
  assert (HLn : incl L (map fst labels_noemer)).
  { intros l Hl. apply HL in Hl. cbn in Hl |- *. tauto. }
  split.
  - intros label Hl. split.
    + apply (mapped_resolved df_teller mt (map fst labels_teller));
        [exact Hint|apply HLt; exact Hl].
    + apply (mapped_resolved df_noemer mn (map fst labels_noemer));
        [exact Hinn|apply HLn; exact Hl].
  - rewrite combine_call_None_iff. unfold guards_pass.
    rewrite (mapped_resolved df_teller mt (map fst labels_teller)
               "aantal_ho_instromers" Hint) by (cbn; tauto).
    rewrite (mapped_resolved df_noemer mn (map fst labels_noemer)
               "aantal_mbo_gediplomeerden" Hinn) by (cbn; tauto).
    pose proof (mapped_resolve_length df_teller mt (map fst labels_teller) L
                  Hint HLt) as Elt.
    pose proof (mapped_resolve_length df_noemer mn (map fst labels_noemer) L
                  Hinn HLn) as Eln.
    fold nt in Elt. fold nn in Eln. rewrite Elt, Eln.
    destruct (mapped mt "aantal_ho_instromers");
      destruct (mapped mn "aantal_mbo_gediplomeerden");
      destruct (resolve_join_cols (columns df_teller) mt L) as [|x xs] eqn:Er;
      cbn [length] in Elt;
      destruct (Nat.eq_dec nt nn) as [Enn|Enn];
      split; intros H; try tauto; try lia;
      try (exfalso; apply H; repeat split; auto; discriminate);
      try (destruct H as [H|[H|[H|H]]]; try discriminate; try lia;
           intros (_ & _ & _ & Hlen); try lia);
      try (intros (_ & _ & Hne & _); apply Hne; reflexivity);
      try (intros (Hf & _); discriminate);
      try (intros (_ & Hf & _); discriminate).
Qed.

Lemma combine_after_mapping_witness :
  answers_an_option untouched
  /\ exists map_teller map_noemer s1 s2,
       mapping_ui untouched ∅ sc_teller "mapping_teller" labels_teller
       = Ok (map_teller, s1)
       /\ mapping_ui untouched s1 sc_noemer "mapping_noemer" labels_noemer
          = Ok (map_noemer, s2)
       /\ s2 !! "mapping_teller" = Some map_teller
       /\ s2 !! "mapping_noemer" = Some map_noemer
       /\ forall geselecteerde_labels,
            incl geselecteerde_labels mogelijke_join_labels ->
            let nt := length (filter (mapped map_teller) geselecteerde_labels) in
            let nn := length (filter (mapped map_noemer) geselecteerde_labels) in
            (forall label, In label geselecteerde_labels ->
               (label_resolved sc_teller map_teller label
                <-> mapped map_teller label = true)
               /\ (label_resolved sc_noemer map_noemer label
                   <-> mapped map_noemer label = true))
            /\ (combine_call sc_teller sc_noemer map_teller map_noemer
                  geselecteerde_labels = Ok None
                <-> mapped map_teller "aantal_ho_instromers" = false
                    \/ mapped map_noemer "aantal_mbo_gediplomeerden" = false
                    \/ nt = 0%nat \/ nt <> nn).
Proof.
  split; [exact untouched_answers|].
  exact (combine_after_mapping untouched untouched ∅ sc_teller sc_noemer
           untouched_answers untouched_answers).
Defined.


Lemma result_fold_raise {A B} (f : A -> B -> result A) (l : list B) e :
  fold_left (fun acc x => let* a := acc in f a x) l (Raise e) = Raise e.
Proof. induction l as [|x l IH]; [reflexivity|exact IH]. Qed.

Lemma tab_filters_cons ms tab col cols df :
  tab_filters ms tab (col :: cols) df
  = let* df' := (if has_column col (columns df)
                 then apply_filter df col (ms (filter_key tab col))
                 else Ok df) in
    tab_filters ms tab cols df'.
Proof.
  unfold tab_filters. cbn [fold_left bind].
  destruct (if has_column col (columns df)
            then apply_filter df col (ms (filter_key tab col)) else Ok df)
    as [df'|e]; [reflexivity|].
  cbn [bind].
  apply (result_fold_raise
           (fun df col => if has_column col (columns df)
                          then apply_filter df col (ms (filter_key tab col))
                          else Ok df)).
Qed.

(** One filter keeps the columns and keeps or drops each row. *)
Lemma apply_filter_rows df col ui df' :
  apply_filter df col ui = Ok df' ->
  columns df' = columns df
  /\ exists p, rows df' = filter p (rows df).
Proof.
  unfold apply_filter.
  destruct (negb (has_column col (columns df))).
  - intros [= <-]. split; [reflexivity|].
    exists (fun _ => true). symmetry. apply forallb_filter_id.
    apply forallb_forall. reflexivity.
  - destruct (filter_options df col) as [u|e]; [|discriminate]. cbn [bind].
    destruct (ui u u) as [|v V].
    + intros [= <-]. split; [reflexivity|].
      exists (fun _ => true). symmetry. apply forallb_filter_id.
      apply forallb_forall. reflexivity.
    + intros [= <-]. split; [reflexivity|]. eexists. reflexivity.
Qed.

Lemma filter_filter {A} (p q : A -> bool) (l : list A) :
  filter p (filter q l) = filter (fun x => q x && p x) l.
Proof.
  induction l as [|x l IH]; [reflexivity|]. cbn [filter].
  destruct (q x); cbn [filter andb]; [destruct (p x)|]; rewrite IH; reflexivity.
Qed.

Lemma tab_filters_rows ms tab cols :
  forall df df',
    tab_filters ms tab cols df = Ok df' ->
    columns df' = columns df /\ exists p, rows df' = filter p (rows df).
Proof.
  induction cols as [|col cols IH]; intros df df'.
  - intros [= <-]. split; [reflexivity|].
    exists (fun _ => true). symmetry. apply forallb_filter_id.
    apply forallb_forall. reflexivity.
  - rewrite tab_filters_cons.
    destruct (if has_column col (columns df)
              then apply_filter df col (ms (filter_key tab col)) else Ok df)
      as [d|e] eqn:E; [|discriminate].
    cbn [bind]. intros H. destruct (IH d df' H) as (Hc & p & Hp).
    assert (Hd : columns d = columns df /\ exists q, rows d = filter q (rows df)).
    { destruct (has_column col (columns df)).
      - eapply apply_filter_rows. exact E.
      - injection E as <-. split; [reflexivity|].
        exists (fun _ => true). symmetry. apply forallb_filter_id.
        apply forallb_forall. reflexivity. }
    destruct Hd as (Hdc & q & Hq). split; [congruence|].
    exists (fun x => q x && p x). rewrite Hp, Hq. apply filter_filter.
Qed.

(** The loop of the KPI tab is the loop of the other tabs: the filter never
    changes the columns, so testing them beforehand or at each step makes
    no difference. *)
Lemma kpi_filters_tab ms df :
  kpi_filters ms df
  = tab_filters ms "kpi"
      ["jaar"; "sector_mbo"; "regio_mbo"; "instelling_mbo"; "niveau_mbo"] df.
Proof.
  unfold kpi_filters. cbv zeta.
  generalize ["jaar"; "sector_mbo"; "regio_mbo"; "instelling_mbo"; "niveau_mbo"].
  intros cols.
  assert (H : forall d, columns d = columns df ->
            fold_left (fun acc col =>
                         let* df_kpi := acc in
                         apply_filter df_kpi col (ms (filter_key "kpi" col)))
                      (filter (fun col => has_column col (columns df)) cols)
                      (Ok d)
            = tab_filters ms "kpi" cols d).
  { induction cols as [|col cols IH]; intros d Hd; [reflexivity|].
    rewrite tab_filters_cons, Hd. cbn [filter].
    destruct (has_column col (columns df)) eqn:Hc.
    - cbn [fold_left bind].
      destruct (apply_filter d col (ms (filter_key "kpi" col))) as [d'|e] eqn:E.
      + cbn [bind]. apply IH.
        destruct (apply_filter_rows d col _ d' E) as [Hc' _]. congruence.
      + cbn [bind].
        apply (result_fold_raise
                 (fun df_kpi col =>
                    apply_filter df_kpi col (ms (filter_key "kpi" col)))).
    - cbn [bind]. apply IH. exact Hd. }
  apply H. reflexivity.
Qed.

Lemma filter_true {A} (l : list A) : l = filter (fun _ => true) l.
Proof.
  symmetry. apply forallb_filter_id. apply forallb_forall. reflexivity.
Qed.

Lemma apply_filter_selection df col sel key df' :
  has_column col (columns df) = true ->
  apply_filter df col (selection_of sel key) = Ok df' ->
  columns df' = columns df
  /\ rows df'
     = filter (fun r => match sel key with
                        | [] => true
                        | _ :: _ => isin (cell_of df col r) (sel key)
                        end) (rows df).
Proof.
  intros Hc. unfold apply_filter, selection_of. rewrite Hc. cbn [negb].
  destruct (filter_options df col) as [u|e]; [|discriminate]. cbn [bind].
  destruct (sel key) as [|v V].
  - intros [= <-]. split; [reflexivity|apply filter_true].
  - intros [= <-]. split; reflexivity.
Qed.

Lemma forallb_pointwise {A} (f g : A -> bool) (l : list A) :
  (forall x, f x = g x) -> forallb f l = forallb g l.
Proof.
  intros H. induction l as [|x l IH]; [reflexivity|].
  cbn [forallb]. rewrite H, IH. reflexivity.
Qed.

Lemma passes_columns df d sel tab col r :
  columns d = columns df -> passes d sel tab col r = passes df sel tab col r.
Proof. intros H. unfold passes, cell_of. rewrite H. reflexivity. Qed.

Lemma tab_filters_selection sel tab cols :
  forall df df',
    tab_filters (selection_of sel) tab cols df = Ok df' ->
    columns df' = columns df
    /\ rows df'
       = filter (fun r => forallb (fun col => passes df sel tab col r) cols)
                (rows df).
Proof.
  induction cols as [|col cols IH]; intros df df'.
  - intros [= <-]. split; [reflexivity|apply filter_true].
  - rewrite tab_filters_cons.
    destruct (if has_column col (columns df)
              then apply_filter df col (selection_of sel (filter_key tab col))
              else Ok df) as [d|e] eqn:E; [|discriminate].
    cbn [bind]. intros H. destruct (IH d df' H) as (Hc & Hr).
    assert (Hd : columns d = columns df
                 /\ rows d = filter (passes df sel tab col) (rows df)).
    { unfold passes. destruct (has_column col (columns df)) eqn:Hcol.
      - cbn [negb orb]. eapply apply_filter_selection; eassumption.
      - injection E as <-. split; [reflexivity|apply filter_true]. }
    destruct Hd as (Hdc & Hdr). split; [congruence|].
    rewrite Hr, Hdr, filter_filter. apply filter_ext. intros r.
    cbn [forallb]. f_equal. apply forallb_pointwise. intros c.
    apply passes_columns. exact Hdc.
Qed.

(** X5.  The filters of a tab compose as a conjunction.  For a user whose
    selections are [sel], a filter loop that ends without exception keeps
    the columns and keeps exactly the rows that pass every filter, where a
    row passes the filter of a column when the column is absent, the
    selection is empty or the cell is selected; so the order of the filters
    does not matter.  The loop of the KPI tab, which lists the present
    columns beforehand, computes the same. *)
Theorem tab_filters_conjunction (sel : string -> list value) (tab : string)
    (cols : list string) (df df' : DataFrame) :
  tab_filters (selection_of sel) tab cols df = Ok df' ->
  columns df' = columns df
  /\ rows df'
     = filter (fun r => forallb (fun col => passes df sel tab col r) cols)
              (rows df)
  /\ (forall cols' df'',
        Permutation cols cols' ->
        tab_filters (selection_of sel) tab cols' df = Ok df'' -> df'' = df')
  /\ kpi_filters (selection_of sel) df
     = tab_filters (selection_of sel) "kpi"
         ["jaar"; "sector_mbo"; "regio_mbo"; "instelling_mbo"; "niveau_mbo"] df.
Proof.
  intros H. destruct (tab_filters_selection sel tab cols df df' H) as (Hc & Hr).
  split; [exact Hc|]. split; [exact Hr|]. split; [|apply kpi_filters_tab].
  intros cols' df'' Hp H'.
  destruct (tab_filters_selection sel tab cols' df df'' H') as (Hc' & Hr').
  destruct df' as [c1 r1], df'' as [c2 r2]. cbn [columns rows] in *.
  subst. f_equal. apply filter_ext. intros r.
  apply eq_true_iff_eq. rewrite !forallb_forall.
  split; intros Hall c Hin; apply Hall.
  - eapply Permutation_in; [exact Hp|exact Hin].
  - eapply Permutation_in; [symmetry; exact Hp|exact Hin].
Qed.

Lemma tab_filters_conjunction_witness :
  let df := mkDataFrame ["jaar"; "sector_mbo"; "n"]
              [[VInt 2021; VStr "Zorg"; VInt 5];
               [VInt 2020; VStr "Zorg"; VInt 7];
               [VInt 2021; VStr "Techniek"; VInt 1]] in
  let sel := fun key => if String.eqb key (filter_key "sector" "jaar")
                        then [VInt 2021] else [] in
  let df' := mkDataFrame ["jaar"; "sector_mbo"; "n"]
               [[VInt 2021; VStr "Zorg"; VInt 5];
                [VInt 2021; VStr "Techniek"; VInt 1]] in
  tab_filters (selection_of sel) "sector" ["jaar"; "regio_mbo"] df = Ok df'
  /\ columns df' = columns df
  /\ rows df'
     = filter (fun r => forallb (fun col => passes df sel "sector" col r)
                                ["jaar"; "regio_mbo"])
              (rows df).
Proof.
  intros df sel df'.
  assert (H : tab_filters (selection_of sel) "sector" ["jaar"; "regio_mbo"] df
              = Ok df') by (vm_compute; reflexivity).
  split; [exact H|].
  destruct (tab_filters_conjunction sel "sector" ["jaar"; "regio_mbo"] df df' H)
    as (Hc & Hr & _).
  split; [exact Hc|exact Hr].
Defined.


(** X8.  The columns of a joined table are join labels and the three
    measure columns, nothing else.  So the join never has a column
    [regio_ho], whatever the teller mapping holds for that label, and the
    tab per regio never builds the table of the movements to the ho
    regions. *)
Theorem regio_flow_unreachable (multiselect : multiselect_widget)
    (T N : DataFrame) (mt mn : gmap string (option string))
    (L : list string) (J : DataFrame) :
  join_key_selection L ->
  combine_call T N mt mn L = Ok (Some J) ->
  (forall c, In c (columns J) ->
     In c L \/ In c [teller_name; noemer_name; pct_name])
  /\ has_column "regio_ho" (columns J) = false
  /\ forall v, tab_regio multiselect J = Ok (Some v) -> snd v = None.
Proof.
  intros HL HJ.
  destruct (combine_call_Some_shape T N mt mn L J HL HJ)
    as (ct & cn & st & sn & rs & _ & _ & _ & _ & _ & _ & _ & _ & _ & _ & ->).
  cbn [columns].
  assert (Hcols : forall c,
            In c (firstn (length (resolve_join_cols (columns T) mt L)) L
                  ++ [teller_name; noemer_name; pct_name]) ->
            In c L \/ In c [teller_name; noemer_name; pct_name]).
  { intros c Hc. apply in_app_or in Hc. destruct Hc as [Hc|Hc]; [left|right].
    - eapply firstn_In. exact Hc.
    - exact Hc. }
  assert (Hno : has_column "regio_ho"
                  (firstn (length (resolve_join_cols (columns T) mt L)) L
                   ++ [teller_name; noemer_name; pct_name]) = false).
  { apply has_column_false. intros Hc. apply Hcols in Hc.
    destruct Hc as [Hc|Hc].
    - apply (proj2 HL) in Hc. cbn in Hc.
      repeat (destruct Hc as [Hc|Hc]; [discriminate|]). exact Hc.
    - cbn in Hc. repeat (destruct Hc as [Hc|Hc]; [discriminate|]). exact Hc. }
  split; [exact Hcols|]. split; [exact Hno|].
  intros v. unfold tab_regio. cbn [columns]. rewrite Hno.
  destruct (negb _); [discriminate|].
  destruct (tab_filters _ _ _ _) as [d|e]; [|discriminate]. cbn [bind].
  destruct (group_summary d ["regio_mbo"]) as [g|e]; [|discriminate].
  cbn [bind]. intros [= <-]. reflexivity.
Qed.

Lemma regio_flow_unreachable_witness :
  join_key_selection ["jaar"; "sector_mbo"]
  /\ exists J,
       combine_call sc_teller sc_noemer sc_map_teller sc_map_noemer
         ["jaar"; "sector_mbo"] = Ok (Some J)
       /\ has_column "regio_ho" (columns J) = false.
Proof.
  split; [exact selection_jaar_sector|].
  eexists. split; [exact scenario_1|].
  exact (proj1 (proj2 (regio_flow_unreachable (fun _ => keep_default) sc_teller
                         sc_noemer sc_map_teller sc_map_noemer
                         ["jaar"; "sector_mbo"] _ selection_jaar_sector
                         scenario_1))).
Defined.



Lemma mixed_kinds_same (l : list value) (b : bool) :
  (forall v, In v l -> is_str v = b) -> mixed_kinds l = false.
Proof.
  intros H. unfold mixed_kinds. destruct l as [|x l]; [reflexivity|].
  rewrite (existsb_all is_str (x :: l) b) by (discriminate || exact H).
  rewrite (existsb_all (fun v => negb (is_str v)) (x :: l) (negb b)).
  - destruct b; reflexivity.
  - discriminate.
  - intros v Hv. rewrite (H v Hv). reflexivity.
Qed.

Lemma DataFrame_eta (df : DataFrame) : mkDataFrame (columns df) (rows df) = df.
Proof. destruct df. reflexivity. Qed.

(** With everything selected the filter of a column without missing cells
    returns the table as it is. *)
Lemma apply_filter_default_identity (T : DataFrame) (C : string) (b : bool) :
  has_column C (columns T) = true ->
  (forall r, In r (rows T) ->
     is_na (cell_of T C r) = false /\ is_str (cell_of T C r) = b) ->
  apply_filter T C keep_default = Ok T.
Proof.
  intros Hc Hcells.
  assert (Hmix : mixed_kinds (dropna (column_values T C)) = false).
  { apply (mixed_kinds_same _ b). intros v Hv. apply dropna_In in Hv.
    destruct Hv as [Hv _]. unfold column_values in Hv. apply in_map_iff in Hv.
    destruct Hv as (r & <- & Hr). apply Hcells. exact Hr. }
  destruct (filter_options_ok T C Hc Hmix) as [u Hu].
  rewrite (apply_filter_present T C keep_default u Hc Hu).
  unfold keep_default. destruct u as [|v u]; [reflexivity|].
  f_equal. rewrite <- (DataFrame_eta T) at 3. f_equal.
  apply forallb_filter_id. apply forallb_forall. intros r Hr.
  apply isin_In. apply (filter_options_In T C _ Hu). split.
  - unfold column_values. apply in_map. exact Hr.
  - apply Hcells. exact Hr.
Qed.

Lemma tab_filters_default_identity (T : DataFrame) (tab : string)
    (cols : list string) :
  (forall col, In col cols -> has_column col (columns T) = true ->
     exists b, forall r, In r (rows T) ->
       is_na (cell_of T col r) = false /\ is_str (cell_of T col r) = b) ->
  tab_filters (fun _ => keep_default) tab cols T = Ok T.
Proof.
  induction cols as [|col cols IH]; intros H; [reflexivity|].
  rewrite tab_filters_cons.
  destruct (has_column col (columns T)) eqn:Hc.
  - destruct (H col (or_introl eq_refl) Hc) as [b Hb].
    rewrite (apply_filter_default_identity T col b Hc Hb). cbn [bind].
    apply IH. intros c Hin. apply H. right. exact Hin.
  - cbn [bind]. apply IH. intros c Hin. apply H. right. exact Hin.
Qed.

(** The cell of a key column in a row laid out as key, then the rest. *)
Lemma key_cell (ls post : list string) (rs : list row) (col : string) :
  NoDup ls -> In col ls ->
  exists i, (i < length ls)%nat /\ nth i ls "" = col
    /\ forall k rest, length k = length ls ->
         cell_of (mkDataFrame (ls ++ post) rs) col (k ++ rest) = nth i k VNa.
Proof.
  intros Hnd Hin. destruct (In_nth ls col "" Hin) as (i & Hi & Hn).
  exists i. split; [exact Hi|]. split; [exact Hn|]. intros k rest Hk.
  pose proof (key_of_app ls post k rest rs Hk Hnd) as E.
  unfold key_of in E.
  assert (E' : nth i (map (fun name => cell_of (mkDataFrame (ls ++ post) rs)
                                          name (k ++ rest)) ls) VNa
               = nth i k VNa) by (rewrite E; reflexivity).
  rewrite <- E'.
  rewrite (nth_indep _ VNa
             (cell_of (mkDataFrame (ls ++ post) rs) "" (k ++ rest)))
    by (rewrite length_map; exact Hi).
  rewrite (map_nth (fun name => cell_of (mkDataFrame (ls ++ post) rs) name
                                  (k ++ rest))).
  rewrite Hn. reflexivity.
Qed.

(** The joined table of a well-formed call, as a table of counts, with what
    is known of its keys: they are complete, as long as the key columns,
    and each key column holds cells of one kind. *)
Lemma joined_table_shape T N mt mn L J :
  well_formed_call T N mt mn L ->
  combine_call T N mt mn L = Ok (Some J) ->
  exists ls K tsum nsum,
    J = count_table ls K tsum nsum
    /\ ls = firstn (length (resolve_join_cols (columns T) mt L)) L
    /\ NoDup ls /\ incl ls mogelijke_join_labels
    /\ NoDup K
    /\ (forall k, In k K -> length k = length ls)
    /\ (forall k, In k K -> forallb (fun v => negb (is_na v)) k = true)
    /\ (forall i, (i < length ls)%nat ->
          exists b, forall k, In k K -> is_str (nth i k VNa) = b).
Proof.
  intros Hwf HJ.
  destruct (combine_call_counts T N mt mn L Hwf) as (ct & cn & _ & _ & E).
  rewrite E in HJ. injection HJ as <-.
  pose proof Hwf as ((HndL & Hvoc) & (_ & _ & _ & Hlen) & _ & _ & _ & _ & Hkind & _).
  set (cs := resolve_join_cols (columns T) mt L) in *.
  set (ds := resolve_join_cols (columns N) mn L) in *.
  assert (Hlcs : (length cs <= length L)%nat)
    by apply resolve_join_cols_length.
  assert (Hls : length (firstn (length cs) L) = length cs)
    by (rewrite length_firstn; lia).
  exists (firstn (length cs) L), (shared_keys T N cs ds),
    (key_sum T cs ct), (key_sum N ds cn).
  split; [reflexivity|]. split; [reflexivity|].
  split; [apply firstn_NoDup; exact HndL|].
  split; [intros c Hc; apply Hvoc; eapply firstn_In; exact Hc|].
  split; [apply shared_keys_NoDup|].
  assert (HK : forall k, In k (shared_keys T N cs ds) ->
            exists r, In r (rows T) /\ complete_row T cs r = true
                      /\ key_of T cs r = k).
  { intros k Hk. apply shared_keys_In in Hk. destruct Hk as [Hk _].
    apply table_keys_In. exact Hk. }
  split.
  { intros k Hk. apply shared_keys_In in Hk. destruct Hk as [Hk _].
    apply table_keys_length in Hk. lia. }
  split.
  { intros k Hk. apply shared_keys_In in Hk. destruct Hk as [Hk _].
    eapply table_keys_complete. exact Hk. }
  intros i Hi. rewrite Hls in Hi.
  assert (Hs : same_kind T N (nth i cs "") (nth i ds ""))
    by (apply Forall2_nth_both; [exact Hkind|exact Hi]).
  destruct Hs as (b & Hb & _). exists b. intros k Hk.
  destruct (HK k Hk) as (r & Hr & Hcompl & <-).
  unfold key_of.
  rewrite (nth_indep _ VNa (cell_of T "" r)) by (rewrite length_map; exact Hi).
  rewrite (map_nth (fun name => cell_of T name r)).
  apply Hb; [exact Hr|].
  unfold complete_row, key_of in Hcompl.
  rewrite forallb_forall in Hcompl.
  apply negb_true_iff. apply Hcompl. apply in_map_iff.
  exists (nth i cs ""). split; [reflexivity|]. apply nth_In. exact Hi.
Qed.

(** X6.  On the joined table of a well-formed call the filters left at
    their default (everything selected) drop nothing: a key column of the
    join holds no missing value, so the loss of rows that the default
    selection causes on a column with missing values does not occur in any
    of the tabs. *)
Theorem default_filters_keep_join (T N : DataFrame)
    (mt mn : gmap string (option string)) (L : list string) (J : DataFrame)
    (tab : string) (cols : list string) :
  well_formed_call T N mt mn L ->
  combine_call T N mt mn L = Ok (Some J) ->
  incl cols mogelijke_join_labels ->
  tab_filters (fun _ => keep_default) tab cols J = Ok J
  /\ kpi_filters (fun _ => keep_default) J = Ok J.
Proof.
  intros Hwf HJ Hcols.
  destruct (joined_table_shape T N mt mn L J Hwf HJ)
    as (ls & K & tsum & nsum & -> & _ & Hnd & Hvoc & _ & Hlen & Hcompl & Hkind).
  assert (H : forall tab cols, incl cols mogelijke_join_labels ->
            tab_filters (fun _ => keep_default) tab cols
              (count_table ls K tsum nsum)
            = Ok (count_table ls K tsum nsum)).
  { clear tab cols Hcols. intros tab cols Hcols.
    apply tab_filters_default_identity. intros col Hin Hc.
    assert (Hcol : In col ls).
    { apply has_column_In in Hc. cbn [columns count_table] in Hc.
      apply in_app_or in Hc. destruct Hc as [Hc|Hc]; [exact Hc|].
      exfalso. apply Hcols in Hin.
      destruct (selection_not_measure [col]) as (H1 & H2 & H3).
      - intros x [<-|[]]. exact Hin.
      - cbn in Hc. destruct Hc as [Hc|[Hc|[Hc|[]]]].
        + apply H1. left. symmetry. exact Hc.
        + apply H2. left. symmetry. exact Hc.
        + apply H3. left. symmetry. exact Hc. }
    destruct (key_cell ls [teller_name; noemer_name; pct_name]
                (map (count_row tsum nsum) K) col Hnd Hcol)
      as (i & Hi & _ & Hcell).
    destruct (Hkind i Hi) as [b Hb]. exists b. intros r Hr.
    cbn [rows count_table] in Hr. apply in_map_iff in Hr.
    destruct Hr as (k & <- & Hk).
    unfold count_table, count_row. rewrite (Hcell k _ (Hlen k Hk)).
    split; [|apply Hb; exact Hk].
    specialize (Hcompl k Hk). rewrite forallb_forall in Hcompl.
    apply negb_true_iff. apply Hcompl. apply nth_In.
    rewrite (Hlen k Hk). exact Hi. }
  split; [apply H; exact Hcols|].
  rewrite kpi_filters_tab. apply H.
  intros c Hc. cbn in Hc |- *. tauto.
Qed.

Lemma default_filters_keep_join_witness :
  well_formed_call sc_teller sc_noemer sc_map_teller sc_map_noemer
    ["jaar"; "sector_mbo"]
  /\ exists J,
       combine_call sc_teller sc_noemer sc_map_teller sc_map_noemer
         ["jaar"; "sector_mbo"] = Ok (Some J)
       /\ tab_filters (fun _ => keep_default) "sector"
            ["jaar"; "regio_mbo"; "instelling_mbo"; "niveau_mbo"] J = Ok J
       /\ kpi_filters (fun _ => keep_default) J = Ok J.
Proof.
  assert (Hwf : well_formed_call sc_teller sc_noemer sc_map_teller
                  sc_map_noemer ["jaar"; "sector_mbo"]).
  { apply scenario_well_formed; [reflexivity| |reflexivity|].
    - intros r [<-|[]]. exists 2021%Z, "Zorg", 50%Z. reflexivity.
    - intros r [<-|[]]. exists 2021%Z, "Zorg", 200%Z. reflexivity. }
  split; [exact Hwf|]. eexists. split; [exact scenario_1|].
  apply (default_filters_keep_join sc_teller sc_noemer sc_map_teller
           sc_map_noemer ["jaar"; "sector_mbo"] _ "sector"
           ["jaar"; "regio_mbo"; "instelling_mbo"; "niveau_mbo"] Hwf scenario_1).
  intros c Hc. cbn in Hc |- *. tauto.
Defined.



Lemma column_values_cells df name i :
  index_of name (columns df) = Some i ->
  column_values df name = map (cell i) (rows df).
Proof.
  intros E. unfold column_values. apply map_ext. intros r.
  unfold cell_of. rewrite E. reflexivity.
Qed.

Lemma count_cells_forallb df name :
  count_column_cells df name ->
  forallb is_count (column_values df name) = true.
Proof.
  intros H. apply forallb_forall. intros v Hv. unfold column_values in Hv.
  apply in_map_iff in Hv. destruct Hv as (r & <- & Hr). apply H. exact Hr.
Qed.

(** The two totals of a table of counts. *)
Lemma kpi_totals_counts df :
  In teller_name (columns df) -> In noemer_name (columns df) ->
  count_column_cells df teller_name -> count_column_cells df noemer_name ->
  kpi_totals df
  = Ok (VInt (sum_ints (column_values df teller_name)),
        VInt (sum_ints (column_values df noemer_name))).
Proof.
  intros Ht Hn Hct Hcn. unfold kpi_totals.
  destruct (column_position_In teller_name (columns df) Ht) as (ti & -> & Eti).
  destruct (column_position_In noemer_name (columns df) Hn) as (ni & -> & Eni).
  cbn [bind].
  rewrite <- (column_values_cells df teller_name ti Eti).
  rewrite <- (column_values_cells df noemer_name ni Eni).
  rewrite (sum_values_counts _ (count_cells_forallb df teller_name Hct)).
  rewrite (sum_values_counts _ (count_cells_forallb df noemer_name Hcn)).
  reflexivity.
Qed.

Lemma totaal_pct_counts (t n : Z) :
  totaal_pct (VInt t, VInt n)
  = Ok (if Z.eqb n 0 then None
        else Some (VFloat (inject_Z t / inject_Z n * 100))).
Proof.
  unfold totaal_pct. cbn [fst snd is_zero]. destruct (Z.eqb n 0); reflexivity.
Qed.

(** Grouping a table of counts by columns without missing cells loses
    nothing: the sums of the summary add up to the totals of the table. *)
Lemma summary_sums df by_ col :
  NoDup by_ ->
  (forall r, In r (rows df) -> complete_row df by_ r = true) ->
  sum_Z (map (key_sum df by_ col) (table_keys df by_))
  = sum_ints (column_values df col).
Proof.
  intros Hnd Hcompl.
  pose proof (sum_partition (rows df) (cell_of df col) (key_of df by_)
                (complete_row df by_) (table_keys df by_)
                (table_keys_NoDup df by_)) as H.
  unfold key_sum. rewrite <- H.
  - unfold column_values. do 2 f_equal.
    apply forallb_filter_id. apply forallb_forall. intros r Hr.
    apply existsb_key_In. apply table_keys_In.
    exists r. split; [exact Hr|]. split; [apply Hcompl; exact Hr|reflexivity].
  - intros r Hr. unfold complete_row.
    eapply table_keys_complete. exact Hr.
Qed.

Lemma summary_column_teller (by_ : list string) (K : list (list value))
    (a b : list value -> Z) (c : list value -> value) :
  ~ In teller_name by_ -> (forall k, In k K -> length k = length by_) ->
  column_values
    (mkDataFrame (by_ ++ [teller_name; noemer_name; pct_name])
       (map (fun k => k ++ [VInt (a k); VInt (b k); c k]) K)) teller_name
  = map (fun k => VInt (a k)) K.
Proof.
  intros Hn Hlen. unfold column_values. cbn [rows]. rewrite map_map.
  apply map_ext_in. intros k Hk.
  rewrite (cell_of_app by_ _ k _ teller_name _ 0%nat (Hlen k Hk) Hn);
    reflexivity.
Qed.

Lemma summary_column_noemer (by_ : list string) (K : list (list value))
    (a b : list value -> Z) (c : list value -> value) :
  ~ In noemer_name by_ -> (forall k, In k K -> length k = length by_) ->
  column_values
    (mkDataFrame (by_ ++ [teller_name; noemer_name; pct_name])
       (map (fun k => k ++ [VInt (a k); VInt (b k); c k]) K)) noemer_name
  = map (fun k => VInt (b k)) K.
Proof.
  intros Hn Hlen. unfold column_values. cbn [rows]. rewrite map_map.
  apply map_ext_in. intros k Hk.
  rewrite (cell_of_app by_ _ k _ noemer_name _ 1%nat (Hlen k Hk) Hn);
    reflexivity.
Qed.




Lemma filter_idem {A} (p : A -> bool) (l : list A) :
  filter p (filter p l) = filter p l.
Proof.
  rewrite filter_filter. apply filter_ext. intros x. destruct (p x); reflexivity.
Qed.

(** [groupby] does not see the rows that miss a key cell. *)
Lemma groupby_sum_dropna df keys col :
  groupby_sum (dropna_keys df keys) keys col = groupby_sum df keys col.
Proof.
  unfold groupby_sum. cbn [columns rows dropna_keys].
  destruct (positions keys (columns df)) as [idxs|e] eqn:Ep; [|reflexivity].
  cbn [bind].
  destruct (column_position col (columns df)) as [ci|e]; [|reflexivity].
  cbn [bind].
  assert (E : filter (complete_key idxs) (filter (complete_row df keys) (rows df))
              = filter (complete_key idxs) (rows df)).
  { rewrite <- (filter_ext (complete_key idxs) (complete_row df keys)
                  (fun r => complete_key_row df keys idxs r Ep)).
    apply filter_idem. }
  rewrite E. reflexivity.
Qed.

(** X12.  Rows that miss a cell in one of their table's resolved key
    columns take no part in the result: the call on the two tables without
    these rows returns what the call on the full tables returns, exceptions
    included.  The counts of such rows appear in no teller and no noemer. *)
Theorem missing_keys_ignored (T N : DataFrame)
    (mt mn : gmap string (option string)) (L : list string) :
  let cs := resolve_join_cols (columns T) mt L in
  let ds := resolve_join_cols (columns N) mn L in
  combine_call (dropna_keys T cs) (dropna_keys N ds) mt mn L
  = combine_call T N mt mn L.
Proof.
  intros cs ds. unfold combine_call.
  rewrite !combine_teller_noemer_unfold. cbn [columns dropna_keys].
  fold cs ds.
  destruct (dict_get mt "aantal_ho_instromers") as [ct|]; [|reflexivity].
  destruct (dict_get mn "aantal_mbo_gediplomeerden") as [cn|]; [|reflexivity].
  destruct (negb (PyStr.truthy (Some ct)) || negb (PyStr.truthy (Some cn)));
    [reflexivity|].
  destruct (negb (has_column ct (columns T)) || negb (has_column cn (columns N)));
    [reflexivity|].
  destruct (Nat.eqb (length cs) 0 || negb (Nat.eqb (length cs) (length ds)));
    [reflexivity|].
  unfold pipeline.
  change (mkDataFrame (columns T) (filter (complete_row T cs) (rows T)))
    with (dropna_keys T cs).
  change (mkDataFrame (columns N) (filter (complete_row N ds) (rows N)))
    with (dropna_keys N ds).
  rewrite !groupby_sum_dropna. reflexivity.
Qed.

Lemma key_match_complete df on k :
  forallb (fun v => negb (is_na v)) k = true ->
  filter (fun r => key_eqb (key_of df on r) k)
         (filter (complete_row df on) (rows df))
  = filter (fun r => key_eqb (key_of df on r) k) (rows df).
Proof.
  intros Hk. rewrite filter_filter. apply filter_ext. intros r.
  destruct (key_eqb (key_of df on r) k) eqn:E; [|apply andb_false_r].
  apply key_eqb_eq in E. unfold complete_row. rewrite E, Hk. reflexivity.
Qed.



(** X14.  None of the functional labels of the application ends in
    [_instelling], [_sector] or [_regio] (they are [instelling_mbo],
    [sector_ho], [regio_mbo], ...), so for these labels the three rules of
    [suggest_default] that test such an ending never apply, whatever the
    columns: the suggestion is the first column that contains the label, or
    that matches the rule of [jaar] or of [aantal...].  A column [BRIN],
    [Sectorkamer] or [Regio] is suggested for no label. *)
Theorem suffix_rules_never_apply (label : string) :
  In label functional_labels ->
  (forall c, rule_instelling label c = false
             /\ rule_sector label c = false
             /\ rule_regio label c = false)
  /\ (forall cols,
        suggest_default label cols
        = find (fun c => rule_generic label c || rule_jaar label c
                         || rule_aantal label c) cols)
  /\ suggest_default label ["BRIN"; "Sectorkamer"; "Regio"] = None.
Proof.
  intros Hl.
  assert (Hs : PyStr.endswith label "_instelling" = false
               /\ PyStr.endswith label "_sector" = false
               /\ PyStr.endswith label "_regio" = false
               /\ suggest_default label ["BRIN"; "Sectorkamer"; "Regio"] = None).
  { unfold functional_labels in Hl. cbn in Hl.
    repeat (destruct Hl as [<-|Hl];
            [repeat split; vm_compute; reflexivity|]).
    destruct Hl. }
  destruct Hs as (Hi & Hse & Hr & Hex).
  assert (Hrules : forall c, rule_instelling label c = false
                             /\ rule_sector label c = false
                             /\ rule_regio label c = false).
  { intros c. unfold rule_instelling, rule_sector, rule_regio.
    rewrite Hi, Hse, Hr. repeat split; reflexivity. }
  split; [exact Hrules|]. split; [|exact Hex].
  intros cols. induction cols as [|c cols IH]; [reflexivity|].
  cbn [suggest_default find]. rewrite suggest_hit_rule, IH.
  unfold rule_matches. destruct (Hrules c) as (-> & -> & ->).
  rewrite !orb_false_r. reflexivity.
Qed.

Lemma suffix_rules_never_apply_witness :
  In "instelling_mbo" functional_labels
  /\ suggest_default "instelling_mbo" ["BRIN"; "Sectorkamer"; "Regio"] = None.
Proof.
  assert (H : In "instelling_mbo" functional_labels)
    by (right; left; reflexivity).
  split; [exact H|].
  exact (proj2 (proj2 (suffix_rules_never_apply "instelling_mbo" H))).
Defined.



Section SortCanonical.
Context {A : Type} (leb : A -> A -> bool) (P : A -> Prop).
Hypothesis leb_total :
  forall x y, P x -> P y -> leb x y = true \/ leb y x = true.
Hypothesis leb_trans :
  forall x y z, P x -> P y -> P z ->
    leb x y = true -> leb y z = true -> leb x z = true.
Hypothesis leb_antisym :
  forall x y, P x -> P y -> leb x y = true -> leb y x = true -> x = y.

Lemma insert_sorted_In (x y : A) (l : list A) :
  In y (insert_sorted leb x l) <-> y = x \/ In y l.
Proof.
  induction l as [|z l IH]; cbn [insert_sorted].
  - cbn. intuition congruence.
  - destruct (leb x z); cbn [In]; [intuition congruence|].
    rewrite IH. intuition congruence.
Qed.

Lemma insert_sorted_sorted (x : A) (l : list A) :
  P x -> Forall P l -> sorted_by leb l -> sorted_by leb (insert_sorted leb x l).
Proof.
  intros Px. induction l as [|z l IH]; intros HP Hs.
  - cbn. split; [intros y []|exact I].
  - inversion HP as [|? ? Pz HPl]; subst. destruct Hs as [Hz Hs].
    cbn [insert_sorted]. destruct (leb x z) eqn:E.
    + split; [|split; assumption].
      intros y [<-|Hy]; [exact E|].
      apply (leb_trans x z y Px Pz); [|exact E|apply Hz; exact Hy].
      rewrite Forall_forall in HPl. apply HPl. exact Hy.
    + split; [|apply IH; assumption].
      intros y Hy. apply insert_sorted_In in Hy. destruct Hy as [->|Hy].
      * destruct (leb_total x z Px Pz) as [H|H]; [congruence|exact H].
      * apply Hz. exact Hy.
Qed.

Lemma sort_by_Forall (l : list A) : Forall P l -> Forall P (sort_by leb l).
Proof.
  intros H. rewrite Forall_forall in *. intros x Hx. apply H.
  apply (sort_by_In leb). exact Hx.
Qed.

Lemma sort_by_sorted (l : list A) : Forall P l -> sorted_by leb (sort_by leb l).
Proof.
  induction l as [|x l IH]; intros H; [exact I|].
  inversion H; subst. cbn [sort_by fold_right].
  apply insert_sorted_sorted; [assumption|apply sort_by_Forall; assumption|].
  apply IH. assumption.
Qed.

Lemma sorted_perm_eq (l l' : list A) :
  Forall P l -> sorted_by leb l -> sorted_by leb l' -> Permutation l l' ->
  l = l'.
Proof.
  revert l'. induction l as [|x l IH]; intros l' HP Hs Hs' Hp.
  - apply Permutation_nil in Hp. congruence.
  - destruct l' as [|x' l'].
    + apply Permutation_sym, Permutation_nil in Hp. discriminate.
    + inversion HP as [|? ? Px HPl]; subst.
      destruct Hs as [Hx Hs]. destruct Hs' as [Hx' Hs'].
      assert (HP' : Forall P (x' :: l')).
      { rewrite Forall_forall in *. intros y Hy. apply HP.
        eapply Permutation_in; [symmetry; exact Hp|exact Hy]. }
      inversion HP' as [|? ? Px' HPl']; subst.
      assert (E : x = x').
      { assert (H1 : In x (x' :: l'))
          by (eapply Permutation_in; [exact Hp|left; reflexivity]).
        assert (H2 : In x' (x :: l))
          by (eapply Permutation_in; [symmetry; exact Hp|left; reflexivity]).
        destruct H1 as [H1|H1]; [congruence|].
        destruct H2 as [H2|H2]; [congruence|].
        apply leb_antisym; [assumption|assumption|apply Hx; exact H2|
                            apply Hx'; exact H1]. }
      subst x'. f_equal. apply IH; try assumption.
      eapply Permutation_cons_inv. exact Hp.
Qed.

Lemma sort_by_perm_eq (l l' : list A) :
  Forall P l -> Permutation l l' -> sort_by leb l = sort_by leb l'.
Proof.
  intros HP Hp.
  assert (HP' : Forall P l').
  { rewrite Forall_forall in *. intros y Hy. apply HP.
    eapply Permutation_in; [symmetry; exact Hp|exact Hy]. }
  apply sorted_perm_eq.
  - apply sort_by_Forall. exact HP.
  - apply sort_by_sorted. exact HP.
  - apply sort_by_sorted. exact HP'.
  - etransitivity; [apply sort_by_perm|].
    etransitivity; [exact Hp|]. symmetry. apply sort_by_perm.
Qed.
End SortCanonical.

Lemma ascii_compare_refl (c : ascii) : Ascii.compare c c = Eq.
Proof.
  pose proof (Ascii.compare_antisym c c) as H.
  destruct (Ascii.compare c c); [reflexivity|discriminate|discriminate].
Qed.

Lemma ascii_compare_lt_trans (a b c : ascii) :
  Ascii.compare a b = Lt -> Ascii.compare b c = Lt -> Ascii.compare a c = Lt.
Proof.
  unfold Ascii.compare. rewrite !N.compare_lt_iff. lia.
Qed.

Lemma string_compare_lt_trans (s1 : string) :
  forall s2 s3,
    String.compare s1 s2 = Lt -> String.compare s2 s3 = Lt ->
    String.compare s1 s3 = Lt.
Proof.
  induction s1 as [|c1 s1 IH]; intros [|c2 s2] [|c3 s3]; cbn;
    try discriminate; try reflexivity.
  destruct (Ascii.compare c1 c2) eqn:E12; try discriminate;
    destruct (Ascii.compare c2 c3) eqn:E23; try discriminate; intros H1 H2.
  - apply Ascii.compare_eq_iff in E12, E23. subst.
    rewrite ascii_compare_refl. eapply IH; eassumption.
  - apply Ascii.compare_eq_iff in E12. subst. rewrite E23. reflexivity.
  - apply Ascii.compare_eq_iff in E23. subst. rewrite E12. reflexivity.
  - rewrite (ascii_compare_lt_trans c1 c2 c3 E12 E23). reflexivity.
Qed.

Lemma string_leb_trans (s1 s2 s3 : string) :
  String.leb s1 s2 = true -> String.leb s2 s3 = true -> String.leb s1 s3 = true.
Proof.
  unfold String.leb.
  destruct (String.compare s1 s2) eqn:E12; try discriminate;
    destruct (String.compare s2 s3) eqn:E23; try discriminate; intros _ _.
  - apply String.compare_eq_iff in E12, E23. subst.
    destruct (String.compare s3 s3) eqn:E; try reflexivity.
    pose proof (String.compare_antisym s3 s3) as H. rewrite E in H.
    discriminate.
  - apply String.compare_eq_iff in E12. subst. rewrite E23. reflexivity.
  - apply String.compare_eq_iff in E23. subst. rewrite E12. reflexivity.
  - rewrite (string_compare_lt_trans s1 s2 s3 E12 E23). reflexivity.
Qed.

Lemma Qle_bool_Z (a b : Z) : Qle_bool (inject_Z a) (inject_Z b) = Z.leb a b.
Proof.
  unfold Qle_bool, inject_Z. cbn [Qnum Qden]. rewrite !Z.mul_1_r. reflexivity.
Qed.

Lemma value_leb_total (x y : value) :
  plain x = true -> plain y = true ->
  value_leb x y = true \/ value_leb y x = true.
Proof.
  destruct x, y; try discriminate; intros _ _; cbn [value_leb to_Q].
  - rewrite !Qle_bool_Z. destruct (Z.leb_spec z z0); [left; reflexivity|].
    right. apply Z.leb_le. lia.
  - left. reflexivity.
  - right. reflexivity.
  - apply String.leb_total.
Qed.

Lemma value_leb_trans (x y z : value) :
  plain x = true -> plain y = true -> plain z = true ->
  value_leb x y = true -> value_leb y z = true -> value_leb x z = true.
Proof.
  destruct x, y, z; try discriminate; intros _ _ _; cbn [value_leb to_Q];
    try discriminate; try reflexivity.
  - rewrite !Qle_bool_Z, !Z.leb_le. lia.
  - apply string_leb_trans.
Qed.

Lemma value_leb_antisym (x y : value) :
  plain x = true -> plain y = true ->
  value_leb x y = true -> value_leb y x = true -> x = y.
Proof.
  destruct x, y; try discriminate; intros _ _; cbn [value_leb to_Q];
    try discriminate.
  - rewrite !Qle_bool_Z, !Z.leb_le. intros. f_equal. lia.
  - intros H1 H2. f_equal. apply String.leb_antisym; assumption.
Qed.

Lemma value_eqb_sym (x y : value) : value_eqb x y = value_eqb y x.
Proof.
  destruct (value_eqb x y) eqn:E.
  - apply value_eqb_eq in E. subst. symmetry. apply value_eqb_refl.
  - destruct (value_eqb y x) eqn:E'; [|reflexivity].
    apply value_eqb_eq in E'. subst. rewrite value_eqb_refl in E. discriminate.
Qed.

Lemma key_leb_total (a : list value) :
  forall b, plain_key a -> plain_key b ->
    key_leb a b = true \/ key_leb b a = true.
Proof.
  unfold plain_key.
  induction a as [|x a IH]; intros [|y b] Ha Hb; cbn [key_leb]; auto.
  cbn [forallb] in Ha, Hb. apply andb_true_iff in Ha, Hb.
  destruct Ha as [Hx Ha], Hb as [Hy Hb].
  rewrite (value_eqb_sym y x). destruct (value_eqb x y).
  - apply IH; assumption.
  - apply value_leb_total; assumption.
Qed.

Lemma key_leb_antisym (a : list value) :
  forall b, plain_key a -> plain_key b ->
    key_leb a b = true -> key_leb b a = true -> a = b.
Proof.
  unfold plain_key.
  induction a as [|x a IH]; intros [|y b] Ha Hb; cbn [key_leb];
    try discriminate; [reflexivity|].
  cbn [forallb] in Ha, Hb. apply andb_true_iff in Ha, Hb.
  destruct Ha as [Hx Ha], Hb as [Hy Hb].
  rewrite (value_eqb_sym y x). destruct (value_eqb x y) eqn:E.
  - apply value_eqb_eq in E. subst. intros H1 H2. f_equal.
    apply IH; assumption.
  - intros H1 H2.
    assert (x = y) by (apply value_leb_antisym; assumption). subst.
    rewrite value_eqb_refl in E. discriminate.
Qed.

Lemma key_leb_trans (a : list value) :
  forall b c, plain_key a -> plain_key b -> plain_key c ->
    key_leb a b = true -> key_leb b c = true -> key_leb a c = true.
Proof.
  unfold plain_key.
  induction a as [|x a IH]; intros [|y b] [|z c] Ha Hb Hc; cbn [key_leb];
    try discriminate; try reflexivity.
  cbn [forallb] in Ha, Hb, Hc. apply andb_true_iff in Ha, Hb, Hc.
  destruct Ha as [Hx Ha], Hb as [Hy Hb], Hc as [Hz Hc].
  destruct (value_eqb x y) eqn:Exy.
  - apply value_eqb_eq in Exy. subst y.
    destruct (value_eqb x z); [apply IH; assumption|]. intros _ H. exact H.
  - destruct (value_eqb y z) eqn:Eyz.
    + apply value_eqb_eq in Eyz. subst z. rewrite Exy. intros H _. exact H.
    + intros H1 H2.
      destruct (value_eqb x z) eqn:Exz.
      * apply value_eqb_eq in Exz. subst z.
        assert (x = y) by (apply value_leb_antisym; assumption). subst.
        rewrite value_eqb_refl in Exy. discriminate.
      * eapply value_leb_trans; [| | |exact H1|exact H2]; assumption.
Qed.

Lemma sum_ints_perm (l l' : list value) :
  Permutation l l' -> sum_ints l = sum_ints l'.
Proof.
  induction 1 as [|x l l' _ IH|x y l|l l' l'' _ IH1 _ IH2].
  - reflexivity.
  - rewrite !sum_ints_cons, IH. reflexivity.
  - rewrite !sum_ints_cons. lia.
  - congruence.
Qed.

Lemma filter_perm {A} (p : A -> bool) (l l' : list A) :
  Permutation l l' -> Permutation (filter p l) (filter p l').
Proof.
  induction 1 as [|x l l' _ IH|x y l|l l' l'' _ IH1 _ IH2].
  - constructor.
  - cbn [filter]. destruct (p x); [constructor|]; exact IH.
  - cbn [filter]. destruct (p x), (p y); try reflexivity. constructor.
  - etransitivity; eassumption.
Qed.

Lemma reordered_cell_of df df' name :
  reordered df df' -> cell_of df' name = cell_of df name.
Proof. intros [Hc _]. unfold cell_of. rewrite Hc. reflexivity. Qed.

Lemma reordered_key_of df df' on r :
  reordered df df' -> key_of df' on r = key_of df on r.
Proof.
  intros H. unfold key_of. apply map_ext. intros name.
  rewrite (reordered_cell_of df df' name H). reflexivity.
Qed.

Lemma reordered_In df df' r :
  reordered df df' -> (In r (rows df') <-> In r (rows df)).
Proof.
  intros [_ Hp]. split; intros H.
  - eapply Permutation_in; [symmetry; exact Hp|exact H].
  - eapply Permutation_in; [exact Hp|exact H].
Qed.

Lemma reordered_key_sum df df' on col k :
  reordered df df' -> key_sum df' on col k = key_sum df on col k.
Proof.
  intros H. unfold key_sum. rewrite (reordered_cell_of df df' col H).
  apply sum_ints_perm. apply Permutation_map.
  rewrite (filter_ext (fun r => key_eqb (key_of df' on r) k)
                      (fun r => key_eqb (key_of df on r) k))
    by (intros r; rewrite (reordered_key_of df df' on r H); reflexivity).
  apply filter_perm.
  rewrite (filter_ext (complete_row df' on) (complete_row df on))
    by (intros r; unfold complete_row;
        rewrite (reordered_key_of df df' on r H); reflexivity).
  apply filter_perm. symmetry. exact (proj2 H).
Qed.

Lemma reordered_keys_perm df df' on :
  reordered df df' ->
  Permutation
    (unique_by key_eqb (map (key_of df on) (filter (complete_row df on) (rows df))))
    (unique_by key_eqb
       (map (key_of df' on) (filter (complete_row df' on) (rows df')))).
Proof.
  intros H. apply NoDup_Permutation.
  - apply (unique_by_NoDup key_eqb key_eqb_eq).
  - apply (unique_by_NoDup key_eqb key_eqb_eq).
  - intros k. rewrite !(unique_by_In key_eqb key_eqb_eq), !in_map_iff.
    split; intros (r & <- & Hr); exists r;
      rewrite filter_In in Hr |- *; destruct Hr as [Hr Hc];
      unfold complete_row in *;
      rewrite (reordered_key_of df df' on r H) in *;
      (split; [reflexivity|]); (split; [|exact Hc]);
      apply (reordered_In df df' r H); exact Hr.
Qed.

Lemma reordered_table_keys_In df df' on k :
  reordered df df' -> (In k (table_keys df' on) <-> In k (table_keys df on)).
Proof.
  intros H. unfold table_keys. rewrite !sort_by_In.
  split; intros Hk.
  - eapply Permutation_in; [symmetry; apply reordered_keys_perm; exact H|exact Hk].
  - eapply Permutation_in; [apply reordered_keys_perm; exact H|exact Hk].
Qed.

(** The keys of a table whose key cells are no fractions are listed in the
    same order whatever the order of its rows. *)
Lemma reordered_table_keys df df' on :
  reordered df df' ->
  (forall r c, In r (rows df) -> In c on -> is_float (cell_of df c r) = false) ->
  table_keys df' on = table_keys df on.
Proof.
  intros H Hplain. unfold table_keys. symmetry.
  apply (sort_by_perm_eq key_leb plain_key).
  - intros x y. apply key_leb_total.
  - intros x y z. apply key_leb_trans.
  - intros x y. apply key_leb_antisym.
  - apply Forall_forall. intros k Hk.
    apply (proj1 (unique_by_In key_eqb key_eqb_eq _ _)) in Hk.
    apply in_map_iff in Hk.
    destruct Hk as (r & <- & Hr). apply filter_In in Hr.
    destruct Hr as [Hr Hc]. unfold plain_key, complete_row, key_of in *.
    rewrite forallb_forall in Hc |- *. intros v Hv.
    specialize (Hc v Hv). apply in_map_iff in Hv.
    destruct Hv as (c & <- & Hcin). specialize (Hplain r c Hr Hcin).
    destruct (cell_of df c r); try discriminate; reflexivity.
  - apply reordered_keys_perm. exact H.
Qed.



Lemma reordered_well_formed T N T' N' mt mn L :
  reordered T T' -> reordered N N' ->
  well_formed_call T N mt mn L -> well_formed_call T' N' mt mn L.
Proof.
  intros HT HN.
  destruct T' as [ct' rt'], N' as [cn' rn'].
  pose proof HT as [HcT HpT]. pose proof HN as [HcN HpN].
  cbn [columns rows] in HcT, HcN, HpT, HpN. subst ct' cn'.
  unfold well_formed_call, guards_pass, label_resolved. cbn [columns].
  intros (Hsel & Hg & Hnt & Hnn & Hc1 & Hc2 & Hk & Hct & Hcn).
  split; [exact Hsel|]. split; [exact Hg|]. split; [exact Hnt|].
  split; [exact Hnn|]. split; [exact Hc1|]. split; [exact Hc2|].
  split; [|split].
  - eapply Forall2_impl; [|exact Hk].
    intros c d (b & Hb1 & Hb2). exists b. split.
    + intros r Hr. rewrite (reordered_cell_of T _ c HT).
      apply Hb1. apply (reordered_In T _ r HT). exact Hr.
    + intros r Hr. rewrite (reordered_cell_of N _ d HN).
      apply Hb2. apply (reordered_In N _ r HN). exact Hr.
  - intros c Hc r Hr. rewrite (reordered_cell_of T _ c HT).
    apply (Hct c Hc). apply (reordered_In T _ r HT). exact Hr.
  - intros c Hc r Hr. rewrite (reordered_cell_of N _ c HN).
    apply (Hcn c Hc). apply (reordered_In N _ r HN). exact Hr.
Qed.

(** X13.  The result does not depend on the order of the rows of the two
    files.  For a well-formed call in which the key cells of the teller are
    no fractions (integers, strings or missing; a fraction has several
    representations in this model, which the order of the keys does not
    tell apart), the call on the same two tables with their rows in any
    other order returns the same joined table, rows in the same order. *)
Theorem row_order_irrelevant (T N T' N' : DataFrame)
    (mt mn : gmap string (option string)) (L : list string) :
  well_formed_call T N mt mn L ->
  (forall r c, In r (rows T) ->
     In c (resolve_join_cols (columns T) mt L) ->
     is_float (cell_of T c r) = false) ->
  reordered T T' -> reordered N N' ->
  combine_call T' N' mt mn L = combine_call T N mt mn L.
Proof.
  intros Hwf Hplain HT HN.
  pose proof (reordered_well_formed T N T' N' mt mn L HT HN Hwf) as Hwf'.
  destruct (combine_call_counts T N mt mn L Hwf) as (ct & cn & Ect & Ecn & E).
  destruct (combine_call_counts T' N' mt mn L Hwf')
    as (ct' & cn' & Ect' & Ecn' & E').
  rewrite Ect in Ect'. injection Ect' as <-.
  rewrite Ecn in Ecn'. injection Ecn' as <-.
  rewrite E, E'. rewrite (proj1 HT), (proj1 HN).
  set (cs := resolve_join_cols (columns T) mt L) in *.
  set (ds := resolve_join_cols (columns N) mn L) in *.
  do 3 f_equal.
  assert (EK : shared_keys T' N' cs ds = shared_keys T N cs ds).
  { unfold shared_keys.
    rewrite (reordered_table_keys T T' cs HT Hplain).
    apply filter_ext. intros k. apply existsb_ext_In. intros x.
    apply reordered_table_keys_In. exact HN. }
  rewrite EK. apply map_ext. intros k. unfold joined_count_row.
  rewrite (reordered_key_sum T T' cs ct k HT),
          (reordered_key_sum N N' ds cn k HN).
  reflexivity.
Qed.

Lemma row_order_irrelevant_witness :
  let T' := mkDataFrame ["jaar"; "sector"; "n_ho"]
              [[VInt 2021; VStr "Techniek"; VInt 30];
               [VInt 2021; VStr "Zorg"; VInt 50]] in
  well_formed_call avg_teller avg_noemer sc_map_teller sc_map_noemer
    ["jaar"; "sector_mbo"]
  /\ reordered avg_teller T' /\ reordered avg_noemer avg_noemer
  /\ combine_call T' avg_noemer sc_map_teller sc_map_noemer
       ["jaar"; "sector_mbo"]
     = combine_call avg_teller avg_noemer sc_map_teller sc_map_noemer
         ["jaar"; "sector_mbo"].
Proof.
  intros T'.
  assert (Hwf : well_formed_call avg_teller avg_noemer sc_map_teller
                  sc_map_noemer ["jaar"; "sector_mbo"]).
  { apply scenario_well_formed; [reflexivity| |reflexivity|].
    - intros r [<-|[<-|[]]];
        [exists 2021%Z, "Zorg", 50%Z|exists 2021%Z, "Techniek", 30%Z];
        reflexivity.
    - intros r [<-|[<-|[]]];
        [exists 2021%Z, "Zorg", 200%Z|exists 2021%Z, "Techniek", 50%Z];
        reflexivity. }
  assert (HT : reordered avg_teller T')
    by (split; [reflexivity|apply perm_swap]).
  assert (HN : reordered avg_noemer avg_noemer)
    by (split; reflexivity).
  split; [exact Hwf|]. split; [exact HT|]. split; [exact HN|].
  apply (row_order_irrelevant avg_teller avg_noemer T' avg_noemer
           sc_map_teller sc_map_noemer ["jaar"; "sector_mbo"] Hwf);
    [|exact HT|exact HN].
  intros r c [<-|[<-|[]]] Hc; vm_compute in Hc;
    destruct Hc as [<-|[<-|[]]]; reflexivity.
Defined.



Lemma select_single {A} (x : A) (l : list A) :
  In x l -> exists mask, select mask l = [x].
Proof.
  induction l as [|y l IH]; intros H; [destruct H|].
  destruct H as [->|H].
  - exists [true]. reflexivity.
  - destruct (IH H) as [mask E]. exists (false :: mask). exact E.
Qed.


Lemma same_value_plain (a b : value) :
  is_float a = false -> is_float b = false ->
  same_value a b = value_eqb a b.
Proof.
  destruct a, b; try discriminate; intros _ _; try reflexivity.
  cbn [same_value value_eqb to_Q].
  apply eq_true_iff_eq. rewrite Qeq_bool_iff, Z.eqb_eq.
  unfold Qeq, inject_Z. cbn [Qnum Qden]. lia.
Qed.

Lemma same_key_plain (a : list value) :
  forall b,
    forallb (fun v => negb (is_float v)) a = true ->
    forallb (fun v => negb (is_float v)) b = true ->
    same_key a b = key_eqb a b.
Proof.
  induction a as [|x a IH]; intros [|y b] Ha Hb; try reflexivity.
  cbn [forallb] in Ha, Hb. apply andb_true_iff in Ha, Hb.
  destruct Ha as [Hx Ha], Hb as [Hy Hb].
  cbn [same_key key_eqb].
  rewrite same_value_plain by (apply negb_true_iff; assumption).
  rewrite (IH b Ha Hb). reflexivity.
Qed.


Lemma sum_Z_nonneg (l : list Z) :
  (forall z, In z l -> 0 <= z)%Z -> (0 <= sum_Z l)%Z.
Proof.
  induction l as [|z l IH]; intros H; [cbn; lia|].
  rewrite sum_Z_cons.
  assert (0 <= z)%Z by (apply H; left; reflexivity).
  assert (0 <= sum_Z l)%Z by (apply IH; intros y Hy; apply H; right; exact Hy).
  lia.
Qed.

Lemma abs_sum_ints (l : list value) :
  (Z.abs (sum_ints l) <= sum_Z (map (fun v => Z.abs (int_of v)) l))%Z.
Proof.
  induction l as [|v l IH]; [cbn; lia|].
  rewrite sum_ints_cons. cbn [map]. rewrite sum_Z_cons. lia.
Qed.

Lemma sum_Z_filter_le {A} (f : A -> Z) (p : A -> bool) (l : list A) :
  (forall x, 0 <= f x)%Z ->
  (sum_Z (map f (filter p l)) <= sum_Z (map f l))%Z.
Proof.
  intros Hf. induction l as [|x l IH]; [cbn; lia|].
  cbn [filter map]. destruct (p x); cbn [map]; rewrite ?sum_Z_cons;
    specialize (Hf x); lia.
Qed.

Lemma abs_sum_Z (l : list Z) :
  (Z.abs (sum_Z l) <= sum_Z (map Z.abs l))%Z.
Proof.
  induction l as [|z l IH]; [cbn; lia|].
  cbn [map]. rewrite !sum_Z_cons. lia.
Qed.

Lemma sum_Z_le {A} (f g : A -> Z) (l : list A) :
  (forall x, In x l -> f x <= g x)%Z ->
  (sum_Z (map f l) <= sum_Z (map g l))%Z.
Proof.
  induction l as [|x l IH]; intros H; [cbn; lia|].
  cbn [map]. rewrite !sum_Z_cons.
  assert (f x <= g x)%Z by (apply H; left; reflexivity).
  assert (sum_Z (map f l) <= sum_Z (map g l))%Z
    by (apply IH; intros y Hy; apply H; right; exact Hy).
  lia.
Qed.

(** The sums of the groups of some distinct keys, in absolute value, add up
    to no more than the absolute values of all the counts. *)
Lemma key_sums_bound df on col (K : list (list value)) :
  NoDup K ->
  (forall k, In k K -> forallb (fun v => negb (is_na v)) k = true) ->
  (sum_Z (map (fun k => Z.abs (key_sum df on col k)) K) <= abs_total df col)%Z.
Proof.
  intros Hnd Hc.
  set (c' := fun r => VInt (Z.abs (int_of (cell_of df col r)))).
  pose proof (sum_partition (rows df) c' (key_of df on) (complete_row df on) K
                Hnd) as Hp.
  assert (Hcompl : forall r, In (key_of df on r) K -> complete_row df on r = true).
  { intros r Hr. unfold complete_row. apply Hc. exact Hr. }
  specialize (Hp Hcompl).
  assert (Habs : forall l : list row,
            sum_ints (map c' l)
            = sum_Z (map (fun r => Z.abs (int_of (cell_of df col r))) l)).
  { intros l. unfold c'. rewrite <- (map_map _ (fun z => VInt z)).
    rewrite (sum_ints_VInt (fun z => z)). rewrite map_id. reflexivity. }
  etransitivity.
  - apply (sum_Z_le _ (fun k => sum_ints
                                (map c' (filter (fun r => key_eqb (key_of df on r) k)
                                                (filter (complete_row df on) (rows df)))))).
    intros k _. unfold key_sum. rewrite Habs.
    etransitivity; [apply abs_sum_ints|]. rewrite map_map. cbn [int_of]. lia.
  - rewrite <- Hp, Habs. unfold abs_total.
    apply sum_Z_filter_le. intros r. lia.
Qed.

(** So the sum of the group sums of some distinct keys is a 64-bit integer
    when the counts fit. *)
Lemma key_sums_fit df on col (K : list (list value)) :
  counts_fit df col ->
  NoDup K ->
  (forall k, In k K -> forallb (fun v => negb (is_na v)) k = true) ->
  int64 (sum_Z (map (key_sum df on col) K)).
Proof.
  intros Hfit Hnd Hc. unfold counts_fit in Hfit.
  pose proof (key_sums_bound df on col K Hnd Hc) as Hb.
  pose proof (abs_sum_Z (map (key_sum df on col) K)) as Ha.
  rewrite map_map in Ha. unfold int64. lia.
Qed.



(** The tables of the scenarios hold integers and strings in their key
    columns. *)
Lemma scenario_no_float (df : DataFrame) (measure : string) :
  columns df = ["jaar"; "sector"; measure] ->
  (forall r, In r (rows df) -> exists j s n, r = [VInt j; VStr s; VInt n]) ->
  no_float_keys df ["jaar"; "sector"].
Proof.
  intros Hc Hr r c Hin Hcin. destruct (Hr r Hin) as (j & s & n & ->).
  unfold cell_of. rewrite Hc.
  destruct Hcin as [<-|[<-|[]]]; cbn [index_of String.eqb].
  - reflexivity.
  - destruct (String.eqb "jaar" "sector") eqn:E; [discriminate E|].
    destruct (String.eqb measure "sector"); reflexivity.
Qed.







(** X9.  The key columns of a joined table are named by position: the i-th
    resolved key column of either side comes back under the i-th selected
    label, and the join has as many key columns as labels resolve.  When no
    key cell of the two tables is a fraction (so that the comparison of
    cells in this model is the comparison by value of [merge]), every row of
    the join carries the key that a row of the teller holds in its resolved
    columns, and a row of the noemer holds the same key, by value, in its.
    When a selected label that resolves on neither side precedes one that
    resolves, the names shift: with [jaar] unmapped and [sector_mbo] mapped,
    the sector column comes back as [jaar], the join has no column
    [sector_mbo] and the tab per sector reports it missing. *)
Theorem key_columns_follow_position :
  (forall (T N : DataFrame) (mt mn : gmap string (option string))
          (L : list string) (J : DataFrame),
     join_key_selection L ->
     combine_call T N mt mn L = Ok (Some J) ->
     let cs := resolve_join_cols (columns T) mt L in
     let ds := resolve_join_cols (columns N) mn L in
     let ls := firstn (length cs) L in
     columns J = ls ++ [teller_name; noemer_name; pct_name]
     /\ length ds = length cs
     /\ (no_float_keys T cs -> no_float_keys N ds ->
         forall r, In r (rows J) ->
           exists rt rn,
             In rt (rows T) /\ In rn (rows N)
             /\ key_of J ls r = key_of T cs rt
             /\ same_key (key_of J ls r) (key_of N ds rn) = true))
  /\ (combine_call sc_teller sc_noemer skip_jaar_teller skip_jaar_noemer
        ["jaar"; "sector_mbo"]
      = Ok (Some (mkDataFrame
                    ["jaar"; teller_name; noemer_name; pct_name]
                    [[VStr "Zorg"; VInt 50; VInt 200;
                      VFloat (inject_Z 50 / inject_Z 200 * 100)]]))
      /\ forall multiselect,
           tab_sector multiselect
             (mkDataFrame
                ["jaar"; teller_name; noemer_name; pct_name]
                [[VStr "Zorg"; VInt 50; VInt 200;
                  VFloat (inject_Z 50 / inject_Z 200 * 100)]])
           = Ok None).
Proof.
  split; [|split; [vm_compute; reflexivity|intros ms; reflexivity]].
  intros T N mt mn L J HL HJ cs ds ls.
  destruct (combine_call_Some_shape T N mt mn L J HL HJ)
    as (ct & cn & st & sn & rs & _ & _ & Hg & Hst & Hsn & _ & _ & _ & _
        & Hrs & ->).
  fold cs ds in Hg, Hst, Hsn, Hrs |- *. fold ls.
  destruct Hg as (_ & _ & _ & Hlen).
  split; [reflexivity|]. split; [symmetry; exact Hlen|].
  intros HnfT HnfN r Hr. cbn [rows] in Hr.
  assert (Hlcs : (length cs <= length L)%nat)
    by apply resolve_join_cols_length.
  assert (Hls : length ls = length cs)
    by (unfold ls; rewrite length_firstn; lia).
  pose proof (groupby_sum_key_length T cs ct st Hst) as Hkl.
  apply (joined_rows_In (length cs) st sn rs Hkl Hrs) in Hr.
  destruct Hr as (k & t & n & p & Hkt & Hkn & _ & ->).
  destruct (groupby_sum_keys T cs ct st Hst) as (it & _ & Hpt & _ & Ekt & _).
  destruct (groupby_sum_keys N ds cn sn Hsn) as (jn & _ & Hpn & _ & Ekn & _).
  assert (Hk1 : In k (map fst st)) by (apply in_map_iff; exists (k, t); auto).
  assert (Hk2 : In k (map fst sn)) by (apply in_map_iff; exists (k, n); auto).
  rewrite Ekt in Hk1. rewrite Ekn in Hk2.
  apply group_keys_In in Hk1. destruct Hk1 as (rt & Hrt & Ert).
  apply group_keys_In in Hk2. destruct Hk2 as (rn & Hrn & Ern).
  apply filter_In in Hrt. destruct Hrt as [Hrt _].
  apply filter_In in Hrn. destruct Hrn as [Hrn _].
  exists rt, rn. split; [exact Hrt|]. split; [exact Hrn|].
  rewrite (key_of_app ls _ k _ rs).
  - rewrite <- (project_key_of T cs it rt Hpt). split; [congruence|].
    assert (Hplain : forallb (fun v => negb (is_float v)) (key_of N ds rn) = true).
    { unfold key_of. apply forallb_forall. intros v Hv. apply in_map_iff in Hv.
      destruct Hv as (c & <- & Hc). apply negb_true_iff.
      apply HnfN; assumption. }
    rewrite <- Ern, (project_key_of N ds jn rn Hpn).
    rewrite (same_key_plain _ _ Hplain Hplain). apply key_eqb_refl.
  - rewrite Hls. apply (Hkl (k, t)). exact Hkt.
  - apply firstn_NoDup. exact (proj1 HL).
Qed.

Lemma key_columns_follow_position_witness :
  join_key_selection ["jaar"; "sector_mbo"]
  /\ no_float_keys sc_teller ["sector"] /\ no_float_keys sc_noemer ["sector"]
  /\ exists J,
       combine_call sc_teller sc_noemer skip_jaar_teller skip_jaar_noemer
         ["jaar"; "sector_mbo"] = Ok (Some J)
       /\ columns J = ["jaar"; teller_name; noemer_name; pct_name]
       /\ forall r, In r (rows J) ->
            exists rt rn,
              In rt (rows sc_teller) /\ In rn (rows sc_noemer)
              /\ key_of J ["jaar"] r = key_of sc_teller ["sector"] rt
              /\ same_key (key_of J ["jaar"] r) (key_of sc_noemer ["sector"] rn)
                 = true.
Proof.
  split; [exact selection_jaar_sector|].
  assert (HT : no_float_keys sc_teller ["sector"])
    by (intros r c [<-|[]] [<-|[]]; reflexivity).
  assert (HN : no_float_keys sc_noemer ["sector"])
    by (intros r c [<-|[]] [<-|[]]; reflexivity).
  split; [exact HT|]. split; [exact HN|].
  assert (HJ : exists J,
            combine_call sc_teller sc_noemer skip_jaar_teller skip_jaar_noemer
              ["jaar"; "sector_mbo"] = Ok (Some J))
    by (eexists; vm_compute; reflexivity).
  destruct HJ as (J & HJ). exists J. split; [exact HJ|].
  destruct (proj1 key_columns_follow_position sc_teller sc_noemer
              skip_jaar_teller skip_jaar_noemer ["jaar"; "sector_mbo"] J
              selection_jaar_sector HJ) as (Hc & _ & Hrows).
  split; [exact Hc|]. exact (Hrows HT HN).
Defined.



(** A sum of some of the counts of a column whose counts fit is a 64-bit
    integer. *)
Lemma filtered_sum_fits df col (p : row -> bool) :
  counts_fit df col ->
  int64 (sum_ints (map (cell_of df col) (filter p (rows df)))).
Proof.
  unfold counts_fit, abs_total, int64. intros Hfit.
  pose proof (abs_sum_ints (map (cell_of df col) (filter p (rows df)))) as Ha.
  rewrite map_map in Ha.
  pose proof (sum_Z_filter_le (fun r => Z.abs (int_of (cell_of df col r))) p
                (rows df) ltac:(intros r; lia)) as Hb.
  lia.
Qed.

Lemma key_of_plain df on r :
  no_float_keys df on -> In r (rows df) ->
  forallb (fun v => negb (is_float v)) (key_of df on r) = true.
Proof.
  intros Hnf Hr. unfold key_of. apply forallb_forall. intros v Hv.
  apply in_map_iff in Hv. destruct Hv as (c & <- & Hc).
  apply negb_true_iff. apply Hnf; assumption.
Qed.

(** The rows of a table that carry a key, by value. *)
Lemma same_key_rows df on k :
  no_float_keys df on ->
  forallb (fun v => negb (is_float v)) k = true ->
  filter (fun r => same_key (key_of df on r) k) (rows df)
  = filter (fun r => key_eqb (key_of df on r) k) (rows df).
Proof.
  intros Hnf Hk. apply filter_ext_in. intros r Hr.
  apply same_key_plain; [apply key_of_plain; assumption|exact Hk].
Qed.

Lemma table_keys_plain df on k :
  no_float_keys df on -> In k (table_keys df on) ->
  forallb (fun v => negb (is_float v)) k = true.
Proof.
  intros Hnf Hk. apply table_keys_In in Hk. destruct Hk as (r & Hr & _ & <-).
  apply key_of_plain; assumption.
Qed.

(** X11.  The joined table of a well-formed call has one row for each key
    combination, no combination twice, and the teller and noemer of the row
    are the sums of the measure column over all the rows of the table that
    carry the key: rows with the same key are added up.  This is stated
    where the model is the program: no key cell of the two tables is a
    fraction (the rows that carry a key by value are then the rows picked
    here) and the counts of the two measure columns fit, so that the sums
    are 64-bit integers and the addition of [sum] does not wrap around. *)
Theorem one_row_per_key (T N : DataFrame)
    (mt mn : gmap string (option string)) (L : list string) (J : DataFrame) :
  well_formed_call T N mt mn L ->
  combine_call T N mt mn L = Ok (Some J) ->
  let cs := resolve_join_cols (columns T) mt L in
  let ds := resolve_join_cols (columns N) mn L in
  let ls := firstn (length cs) L in
  no_float_keys T cs -> no_float_keys N ds ->
  (forall ct, dict_get mt "aantal_ho_instromers" = Some ct -> counts_fit T ct) ->
  (forall cn, dict_get mn "aantal_mbo_gediplomeerden" = Some cn ->
              counts_fit N cn) ->
  NoDup (map (key_of J ls) (rows J))
  /\ exists ct cn,
       dict_get mt "aantal_ho_instromers" = Some ct
       /\ dict_get mn "aantal_mbo_gediplomeerden" = Some cn
       /\ forall r, In r (rows J) ->
            let k := key_of J ls r in
            let t := sum_ints
                       (map (cell_of T ct)
                            (filter (fun rt => same_key (key_of T cs rt) k)
                                    (rows T))) in
            let n := sum_ints
                       (map (cell_of N cn)
                            (filter (fun rn => same_key (key_of N ds rn) k)
                                    (rows N))) in
            cell_of J teller_name r = VInt t
            /\ cell_of J noemer_name r = VInt n
            /\ int64 t /\ int64 n.
Proof.
  intros Hwf HJ cs ds ls HnfT HnfN HfitT HfitN.
  destruct (combine_call_counts T N mt mn L Hwf) as (ct & cn & Ect & Ecn & E).
  fold cs ds in E. fold ls in E. rewrite E in HJ. injection HJ as <-.
  pose proof Hwf as ((HndL & Hvoc) & (_ & _ & _ & Hlen) & _).
  fold cs ds in Hlen.
  assert (Hlcs : (length cs <= length L)%nat)
    by apply resolve_join_cols_length.
  assert (Hls : length ls = length cs)
    by (unfold ls; rewrite length_firstn; lia).
  assert (Hnd : NoDup ls) by (apply firstn_NoDup; exact HndL).
  destruct (selection_not_measure ls) as (Ht & Hn & _).
  { intros c Hc. apply Hvoc. eapply firstn_In. exact Hc. }
  set (K := shared_keys T N cs ds).
  set (tsum := key_sum T cs ct). set (nsum := key_sum N ds cn).
  change (map (joined_count_row T N cs ds ct cn) K)
    with (map (count_row tsum nsum) K).
  fold (count_table ls K tsum nsum).
  assert (HKl : forall k, In k K -> length k = length ls).
  { intros k Hk. apply shared_keys_In in Hk. destruct Hk as [Hk _].
    apply table_keys_length in Hk. lia. }
  assert (HKc : forall k, In k K -> forallb (fun v => negb (is_na v)) k = true).
  { intros k Hk. apply shared_keys_In in Hk. destruct Hk as [Hk _].
    eapply table_keys_complete. exact Hk. }
  assert (HKp : forall k, In k K ->
            forallb (fun v => negb (is_float v)) k = true).
  { intros k Hk. apply shared_keys_In in Hk. destruct Hk as [Hk _].
    exact (table_keys_plain T cs k HnfT Hk). }
  split.
  - cbn [rows count_table]. rewrite map_map.
    rewrite (map_ext_in _ (fun k => k)).
    + rewrite map_id. apply shared_keys_NoDup.
    + intros k Hk. apply (joined_key_of ls K tsum nsum Hnd HKl k Hk).
  - exists ct, cn. split; [exact Ect|]. split; [exact Ecn|].
    intros r Hr. cbn [rows count_table] in Hr. apply in_map_iff in Hr.
    destruct Hr as (k & <- & Hk). cbv zeta.
    rewrite (joined_key_of ls K tsum nsum Hnd HKl k Hk).
    rewrite (joined_teller ls K tsum nsum Ht HKl k Hk).
    rewrite (joined_noemer ls K tsum nsum Hn HKl k Hk).
    rewrite (same_key_rows T cs k HnfT (HKp k Hk)).
    rewrite (same_key_rows N ds k HnfN (HKp k Hk)).
    unfold tsum, nsum, key_sum.
    rewrite !key_match_complete by (apply HKc; exact Hk).
    split; [reflexivity|]. split; [reflexivity|].
    split; apply filtered_sum_fits; [apply HfitT|apply HfitN]; assumption.
Qed.

Lemma one_row_per_key_witness :
  well_formed_call avg_teller avg_noemer sc_map_teller sc_map_noemer
    ["jaar"; "sector_mbo"]
  /\ no_float_keys avg_teller ["jaar"; "sector"]
  /\ no_float_keys avg_noemer ["jaar"; "sector"]
  /\ counts_fit avg_teller "n_ho" /\ counts_fit avg_noemer "n_mbo"
  /\ exists J,
       combine_call avg_teller avg_noemer sc_map_teller sc_map_noemer
         ["jaar"; "sector_mbo"] = Ok (Some J)
       /\ NoDup (map (key_of J ["jaar"; "sector_mbo"]) (rows J)).
Proof.
  assert (Hwf : well_formed_call avg_teller avg_noemer sc_map_teller
                  sc_map_noemer ["jaar"; "sector_mbo"]).
  { apply scenario_well_formed; [reflexivity| |reflexivity|].
    - intros r [<-|[<-|[]]];
        [exists 2021%Z, "Zorg", 50%Z|exists 2021%Z, "Techniek", 30%Z];
        reflexivity.
    - intros r [<-|[<-|[]]];
        [exists 2021%Z, "Zorg", 200%Z|exists 2021%Z, "Techniek", 50%Z];
        reflexivity. }
  assert (HT : no_float_keys avg_teller ["jaar"; "sector"]).
  { apply (scenario_no_float avg_teller "n_ho"); [reflexivity|].
    intros r [<-|[<-|[]]];
      [exists 2021%Z, "Zorg", 50%Z|exists 2021%Z, "Techniek", 30%Z];
      reflexivity. }
  assert (HN : no_float_keys avg_noemer ["jaar"; "sector"]).
  { apply (scenario_no_float avg_noemer "n_mbo"); [reflexivity|].
    intros r [<-|[<-|[]]];
      [exists 2021%Z, "Zorg", 200%Z|exists 2021%Z, "Techniek", 50%Z];
      reflexivity. }
  assert (HfT : counts_fit avg_teller "n_ho")
    by (unfold counts_fit; vm_compute; reflexivity).
  assert (HfN : counts_fit avg_noemer "n_mbo")
    by (unfold counts_fit; vm_compute; reflexivity).
  split; [exact Hwf|]. split; [exact HT|]. split; [exact HN|].
  split; [exact HfT|]. split; [exact HfN|].
  assert (HJ : exists J,
            combine_call avg_teller avg_noemer sc_map_teller sc_map_noemer
              ["jaar"; "sector_mbo"] = Ok (Some J))
    by (eexists; vm_compute; reflexivity).
  destruct HJ as (J & HJ). exists J. split; [exact HJ|].
  refine (proj1 (one_row_per_key avg_teller avg_noemer sc_map_teller
                   sc_map_noemer ["jaar"; "sector_mbo"] J Hwf HJ HT HN _ _)).
  - intros ct E. vm_compute in E. injection E as <-. exact HfT.
  - intros cn E. vm_compute in E. injection E as <-. exact HfN.
Defined.



(** The shape of the joined table when the counts fit: the sums of any
    of its rows are 64-bit integers. *)
Lemma joined_table_fit T N mt mn L J :
  well_formed_call T N mt mn L ->
  combine_call T N mt mn L = Ok (Some J) ->
  (forall ct, dict_get mt "aantal_ho_instromers" = Some ct -> counts_fit T ct) ->
  (forall cn, dict_get mn "aantal_mbo_gediplomeerden" = Some cn ->
     counts_fit N cn) ->
  exists ls K tsum nsum,
    J = count_table ls K tsum nsum
    /\ ls = firstn (length (resolve_join_cols (columns T) mt L)) L
    /\ NoDup ls /\ incl ls mogelijke_join_labels
    /\ NoDup K
    /\ (forall k, In k K -> length k = length ls)
    /\ (forall k, In k K -> forallb (fun v => negb (is_na v)) k = true)
    /\ (forall K', NoDup K' -> incl K' K ->
          int64 (sum_Z (map tsum K')) /\ int64 (sum_Z (map nsum K'))).
Proof.
  intros Hwf HJ HfT HfN.
  destruct (combine_call_counts T N mt mn L Hwf) as (ct & cn & Ect & Ecn & E).
  rewrite E in HJ. injection HJ as <-.
  pose proof Hwf as ((HndL & Hvoc) & (_ & _ & _ & Hlen) & _ & _ & _ & _ & Hkind & _).
  set (cs := resolve_join_cols (columns T) mt L) in *.
  set (ds := resolve_join_cols (columns N) mn L) in *.
  assert (Hlcs : (length cs <= length L)%nat)
    by apply resolve_join_cols_length.
  assert (Hls : length (firstn (length cs) L) = length cs)
    by (rewrite length_firstn; lia).
  exists (firstn (length cs) L), (shared_keys T N cs ds),
    (key_sum T cs ct), (key_sum N ds cn).
  split; [reflexivity|]. split; [reflexivity|].
  split; [apply firstn_NoDup; exact HndL|].
  split; [intros c Hc; apply Hvoc; eapply firstn_In; exact Hc|].
  split; [apply shared_keys_NoDup|].
  assert (HK : forall k, In k (shared_keys T N cs ds) ->
            exists r, In r (rows T) /\ complete_row T cs r = true
                      /\ key_of T cs r = k).
  { intros k Hk. apply shared_keys_In in Hk. destruct Hk as [Hk _].
    apply table_keys_In. exact Hk. }
  split.
  { intros k Hk. apply shared_keys_In in Hk. destruct Hk as [Hk _].
    apply table_keys_length in Hk. lia. }
  split.
  { intros k Hk. apply shared_keys_In in Hk. destruct Hk as [Hk _].
    eapply table_keys_complete. exact Hk. }
  intros K' Hnd' Hin'.
  assert (Hc' : forall k, In k K' ->
            forallb (fun v => negb (is_na v)) k = true).
  { intros k Hk. apply Hin' in Hk. apply shared_keys_In in Hk.
    destruct Hk as [Hk _]. eapply table_keys_complete. exact Hk. }
  split; apply key_sums_fit; auto.
Qed.


Lemma avg_no_float_teller : no_float_keys avg_teller ["jaar"; "sector"].
Proof.
  apply (scenario_no_float avg_teller "n_ho"); [reflexivity|].
  intros r [<-|[<-|[]]];
    [exists 2021%Z, "Zorg", 50%Z|exists 2021%Z, "Techniek", 30%Z];
    reflexivity.
Qed.

Lemma avg_no_float_noemer : no_float_keys avg_noemer ["jaar"; "sector"].
Proof.
  apply (scenario_no_float avg_noemer "n_mbo"); [reflexivity|].
  intros r [<-|[<-|[]]];
    [exists 2021%Z, "Zorg", 200%Z|exists 2021%Z, "Techniek", 50%Z];
    reflexivity.
Qed.

Lemma avg_counts_fit_teller ct :
  dict_get sc_map_teller "aantal_ho_instromers" = Some ct ->
  counts_fit avg_teller ct.
Proof. intros [= <-]. unfold counts_fit. vm_compute. reflexivity. Qed.

Lemma avg_counts_fit_noemer cn :
  dict_get sc_map_noemer "aantal_mbo_gediplomeerden" = Some cn ->
  counts_fit avg_noemer cn.
Proof. intros [= <-]. unfold counts_fit. vm_compute. reflexivity. Qed.

(** X7.  In the KPI tab, for the joined table of a well-formed call that
    has the column [jaar] and for whatever the filters select: the two
    totals are the sums of the teller and the noemer column of the filtered
    table, the total percentage is [None] exactly when the total noemer is
    zero (as when the filters leave no row) and is teller / noemer * 100
    otherwise, and the table per year loses nothing: its teller and noemer
    columns add up to the two totals.  This is stated where the model is
    the program: no key cell of the two tables is a fraction and the counts
    of the two measure columns fit, so that the two totals are 64-bit
    integers and no addition of [sum] wraps around. *)
Theorem kpi_total_matches_series (multiselect : multiselect_widget)
    (T N : DataFrame) (mt mn : gmap string (option string))
    (L : list string) (J df_kpi : DataFrame) :
  well_formed_call T N mt mn L ->
  combine_call T N mt mn L = Ok (Some J) ->
  no_float_keys T (resolve_join_cols (columns T) mt L) ->
  no_float_keys N (resolve_join_cols (columns N) mn L) ->
  (forall ct, dict_get mt "aantal_ho_instromers" = Some ct -> counts_fit T ct) ->
  (forall cn, dict_get mn "aantal_mbo_gediplomeerden" = Some cn ->
     counts_fit N cn) ->
  In "jaar" L -> has_column "jaar" (columns J) = true ->
  kpi_filters multiselect J = Ok df_kpi ->
  exists t n G,
    tab_kpi multiselect L J
    = Ok (mkKpiView
            (if Z.eqb n 0 then None
             else Some (VFloat (inject_Z t / inject_Z n * 100)))
            (Some G))
    /\ t = sum_ints (column_values df_kpi teller_name)
    /\ n = sum_ints (column_values df_kpi noemer_name)
    /\ group_summary df_kpi ["jaar"] = Ok G
    /\ sum_ints (column_values G teller_name) = t
    /\ sum_ints (column_values G noemer_name) = n
    /\ int64 t /\ int64 n.
Proof.
  intros Hwf HJ _ _ HfT HfN HjL Hjc Hf.
  destruct (joined_table_fit T N mt mn L J Hwf HJ HfT HfN)
    as (ls & K & tsum & nsum & -> & _ & Hnd & Hvoc & HndK & Hlen & Hcompl
        & Hfit).
  destruct (selection_not_measure ls Hvoc) as (Ht & Hn & Hp).
  rewrite kpi_filters_tab in Hf.
  destruct (tab_filters_rows _ _ _ _ _ Hf) as (Hc & p & Hr).
  destruct df_kpi as [c rs]. cbn [columns rows count_table] in Hc, Hr.
  subst c rs.
  set (cols := ls ++ [teller_name; noemer_name; pct_name]) in *.
  set (D := mkDataFrame cols (filter p (map (count_row tsum nsum) K))) in *.
  assert (Hrow : forall r, In r (rows D) -> exists k, In k K /\ r = count_row tsum nsum k).
  { intros r Hr. cbn [rows D] in Hr. apply filter_In in Hr.
    destruct Hr as [Hr _]. apply in_map_iff in Hr.
    destruct Hr as (k & <- & Hk). exists k. split; [exact Hk|reflexivity]. }
  assert (Htc : In teller_name (columns D))
    by (cbn; apply in_or_app; right; left; reflexivity).
  assert (Hnc : In noemer_name (columns D))
    by (cbn; apply in_or_app; right; right; left; reflexivity).
  assert (Hct : count_column_cells D teller_name).
  { intros r Hr. destruct (Hrow r Hr) as (k & Hk & ->).
    change (cell_of D teller_name) with
      (cell_of (count_table ls K tsum nsum) teller_name).
    rewrite (joined_teller ls K tsum nsum Ht Hlen k Hk). reflexivity. }
  assert (Hcn : count_column_cells D noemer_name).
  { intros r Hr. destruct (Hrow r Hr) as (k & Hk & ->).
    change (cell_of D noemer_name) with
      (cell_of (count_table ls K tsum nsum) noemer_name).
    rewrite (joined_noemer ls K tsum nsum Hn Hlen k Hk). reflexivity. }
  assert (Hjl : In "jaar" ls).
  { apply has_column_In in Hjc. cbn [columns count_table] in Hjc.
    apply in_app_or in Hjc. destruct Hjc as [Hjc|Hjc]; [exact Hjc|].
    cbn in Hjc. repeat (destruct Hjc as [Hjc|Hjc]; [discriminate|]).
    destruct Hjc. }
  assert (Hjaar : forall r, In r (rows D) -> complete_row D ["jaar"] r = true).
  { intros r Hr. destruct (Hrow r Hr) as (k & Hk & ->).
    destruct (key_cell ls [teller_name; noemer_name; pct_name]
                (rows D) "jaar" Hnd Hjl) as (i & Hi & _ & Hcell).
    unfold complete_row, key_of. cbn [map forallb]. rewrite andb_true_r.
    unfold count_row. unfold D, cols.
    rewrite (Hcell k _ (Hlen k Hk)).
    specialize (Hcompl k Hk). rewrite forallb_forall in Hcompl.
    apply Hcompl. apply nth_In. rewrite (Hlen k Hk). exact Hi. }
  assert (Hnd1 : NoDup ["jaar"]) by (constructor; [intros []|constructor]).
  assert (Hg := group_summary_counts D ["jaar"]).
  specialize (Hg ltac:(intros c [<-|[]]; cbn; apply in_or_app; left; exact Hjl)
                 Htc Hnc Hct Hcn Hnd1
                 ltac:(intros [H|[]]; discriminate)
                 ltac:(intros [H|[]]; discriminate)
                 ltac:(intros [H|[]]; discriminate)).
  eexists _, _, _. split.
  - unfold tab_kpi. rewrite kpi_filters_tab, Hf. cbn [bind].
    rewrite Hjc, andb_true_r, (proj2 (has_column_In "jaar" L) HjL).
    rewrite (kpi_totals_counts D Htc Hnc Hct Hcn). cbn [bind].
    rewrite totaal_pct_counts. cbn [bind]. rewrite Hg. cbn [bind].
    reflexivity.
  - split; [reflexivity|]. split; [reflexivity|]. split; [exact Hg|].
    assert (Hkl : forall k, In k (table_keys D ["jaar"]) ->
              length k = length ["jaar"])
      by (intros k Hk; eapply table_keys_length; exact Hk).
    split.
    { rewrite summary_column_teller by (try exact Hkl; intros [H|[]]; discriminate).
      rewrite sum_ints_VInt. apply summary_sums; assumption. }
    split.
    { rewrite summary_column_noemer by (try exact Hkl; intros [H|[]]; discriminate).
      rewrite sum_ints_VInt. apply summary_sums; assumption. }
    set (K' := filter (fun k => p (count_row tsum nsum k)) K).
    assert (HD : D = count_table ls K' tsum nsum).
    { unfold D, cols, count_table. rewrite filter_map_swap. reflexivity. }
    assert (HlenK' : forall k, In k K' -> length k = length ls).
    { intros k Hk. apply filter_In in Hk. apply Hlen. tauto. }
    destruct (Hfit K') as [Hft Hfn].
    { apply NoDup_filter. exact HndK. }
    { intros k Hk. apply filter_In in Hk. tauto. }
    assert (Ect : column_values D teller_name
                  = map (fun k => VInt (tsum k)) K').
    { rewrite HD.
      exact (summary_column_teller ls K' tsum nsum
               (fun k => pct_int (tsum k) (nsum k)) Ht HlenK'). }
    assert (Ecn : column_values D noemer_name
                  = map (fun k => VInt (nsum k)) K').
    { rewrite HD.
      exact (summary_column_noemer ls K' tsum nsum
               (fun k => pct_int (tsum k) (nsum k)) Hn HlenK'). }
    rewrite Ect, Ecn, !sum_ints_VInt. split; assumption.
Qed.

Lemma kpi_total_matches_series_witness :
  well_formed_call avg_teller avg_noemer sc_map_teller sc_map_noemer
    ["jaar"; "sector_mbo"]
  /\ no_float_keys avg_teller ["jaar"; "sector"]
  /\ no_float_keys avg_noemer ["jaar"; "sector"]
  /\ counts_fit avg_teller "n_ho" /\ counts_fit avg_noemer "n_mbo"
  /\ exists J df_kpi t n G,
       combine_call avg_teller avg_noemer sc_map_teller sc_map_noemer
         ["jaar"; "sector_mbo"] = Ok (Some J)
       /\ kpi_filters (selection_of (fun _ => [VStr "Zorg"; VInt 2021])) J
          = Ok df_kpi
       /\ tab_kpi (selection_of (fun _ => [VStr "Zorg"; VInt 2021]))
            ["jaar"; "sector_mbo"] J
          = Ok (mkKpiView
                  (if Z.eqb n 0 then None
                   else Some (VFloat (inject_Z t / inject_Z n * 100)))
                  (Some G))
       /\ t = sum_ints (column_values df_kpi teller_name)
       /\ n = sum_ints (column_values df_kpi noemer_name)
       /\ group_summary df_kpi ["jaar"] = Ok G
       /\ sum_ints (column_values G teller_name) = t
       /\ sum_ints (column_values G noemer_name) = n
       /\ int64 t /\ int64 n.
Proof.
  assert (Hwf : well_formed_call avg_teller avg_noemer sc_map_teller
                  sc_map_noemer ["jaar"; "sector_mbo"]).
  { apply scenario_well_formed; [reflexivity| |reflexivity|].
    - intros r [<-|[<-|[]]];
        [exists 2021%Z, "Zorg", 50%Z|exists 2021%Z, "Techniek", 30%Z];
        reflexivity.
    - intros r [<-|[<-|[]]];
        [exists 2021%Z, "Zorg", 200%Z|exists 2021%Z, "Techniek", 50%Z];
        reflexivity. }
  split; [exact Hwf|].
  split; [exact avg_no_float_teller|]. split; [exact avg_no_float_noemer|].
  split; [exact (avg_counts_fit_teller "n_ho" eq_refl)|].
  split; [exact (avg_counts_fit_noemer "n_mbo" eq_refl)|].
  assert (HJ : exists J,
            combine_call avg_teller avg_noemer sc_map_teller sc_map_noemer
              ["jaar"; "sector_mbo"] = Ok (Some J)
            /\ has_column "jaar" (columns J) = true
            /\ exists df_kpi,
                 kpi_filters (selection_of (fun _ => [VStr "Zorg"; VInt 2021])) J
                 = Ok df_kpi).
  { eexists. split; [vm_compute; reflexivity|]. split; [reflexivity|].
    eexists. vm_compute. reflexivity. }
  destruct HJ as (J & HJ & Hjc & df_kpi & Hf).
  exists J, df_kpi.
  destruct (kpi_total_matches_series
              (selection_of (fun _ => [VStr "Zorg"; VInt 2021]))
              avg_teller avg_noemer sc_map_teller sc_map_noemer
              ["jaar"; "sector_mbo"] J df_kpi Hwf HJ
              avg_no_float_teller
              avg_no_float_noemer
              avg_counts_fit_teller
              avg_counts_fit_noemer
              (or_introl eq_refl) Hjc Hf) as (t & n & G & H).
  exists t, n, G. split; [exact HJ|]. split; [exact Hf|]. exact H.
Defined.

(** X15.  The tabs per sector and per instelling, on the joined table of a
    well-formed call.  The tab shows nothing but a notice exactly when the
    join lacks the column of the tab.  Otherwise, once the filters have
    ended without exception, the table of the tab has one row for each
    value of the column in the filtered join, holding the value, the sum of
    the tellers and the sum of the noemers of the rows with that value, and
    the percentage recomputed from the two sums (missing when the noemers
    add up to zero); nothing raises after the filters.  This is stated
    where the model is the program: no key cell of the two tables is a
    fraction and the counts of the two measure columns fit, so that the
    sums of every row of the tab are 64-bit integers and no addition of
    [sum] wraps around. *)
Theorem tab_summary_rows (multiselect : multiselect_widget)
    (tab by_ : string) (filter_cols : list string)
    (T N : DataFrame) (mt mn : gmap string (option string))
    (L : list string) (J : DataFrame) :
  well_formed_call T N mt mn L ->
  combine_call T N mt mn L = Ok (Some J) ->
  no_float_keys T (resolve_join_cols (columns T) mt L) ->
  no_float_keys N (resolve_join_cols (columns N) mn L) ->
  (forall ct, dict_get mt "aantal_ho_instromers" = Some ct -> counts_fit T ct) ->
  (forall cn, dict_get mn "aantal_mbo_gediplomeerden" = Some cn ->
     counts_fit N cn) ->
  In by_ mogelijke_join_labels ->
  (tab_summary multiselect tab by_ filter_cols J = Ok None
   <-> has_column by_ (columns J) = false)
  /\ (has_column by_ (columns J) = true ->
      forall df,
        tab_filters multiselect tab filter_cols J = Ok df ->
        tab_summary multiselect tab by_ filter_cols J
        = Ok (Some (mkDataFrame
                      [by_; teller_name; noemer_name; pct_name]
                      (map (summary_row df [by_]) (table_keys df [by_]))))
        /\ forall g,
             int64 (key_sum df [by_] teller_name g)
             /\ int64 (key_sum df [by_] noemer_name g))
  /\ tab_sector multiselect J
     = tab_summary multiselect "sector" "sector_mbo"
         ["jaar"; "regio_mbo"; "instelling_mbo"; "niveau_mbo"] J
  /\ tab_inst multiselect J
     = tab_summary multiselect "inst" "instelling_mbo"
         ["jaar"; "sector_mbo"; "regio_mbo"; "niveau_mbo"] J.
Proof.
  intros Hwf HJ _ _ HfT HfN Hby.
  destruct (joined_table_fit T N mt mn L J Hwf HJ HfT HfN)
    as (ls & K & tsum & nsum & -> & _ & Hnd & Hvoc & HndK & Hlen & Hcompl
        & Hfit).
  destruct (selection_not_measure ls Hvoc) as (Ht & Hn & Hp).
  assert (Hsum : has_column by_ (columns (count_table ls K tsum nsum)) = true ->
            forall df,
              tab_filters multiselect tab filter_cols
                (count_table ls K tsum nsum) = Ok df ->
              group_summary df [by_]
              = Ok (mkDataFrame
                      [by_; teller_name; noemer_name; pct_name]
                      (map (summary_row df [by_]) (table_keys df [by_])))
              /\ forall g,
                   int64 (key_sum df [by_] teller_name g)
                   /\ int64 (key_sum df [by_] noemer_name g)).
  { intros Hc df Hf.
    assert (Hbl : In by_ ls).
    { apply has_column_In in Hc. cbn [columns count_table] in Hc.
      apply in_app_or in Hc. destruct Hc as [Hc|Hc]; [exact Hc|].
      exfalso. destruct (selection_not_measure [by_]) as (H1 & H2 & H3).
      - intros x [<-|[]]. exact Hby.
      - cbn in Hc. destruct Hc as [Hc|[Hc|[Hc|[]]]].
        + apply H1. left. symmetry. exact Hc.
        + apply H2. left. symmetry. exact Hc.
        + apply H3. left. symmetry. exact Hc. }
    destruct (select_single by_ ls Hbl) as [mask Em].
    destruct (tab_filters_rows _ _ _ _ _ Hf) as (Hcols & p & Hr).
    destruct df as [c rs]. cbn [columns rows count_table] in Hcols, Hr.
    subst c rs. rewrite filter_map_swap.
    set (K' := filter (fun k => p (count_row tsum nsum k)) K).
    fold (count_table ls K' tsum nsum).
    assert (HK' : forall k, In k K' -> In k K)
      by (intros k Hk; apply filter_In in Hk; tauto).
    pose proof (joined_summary ls K' tsum nsum Hnd Ht Hn Hp
                  (fun k Hk => Hlen k (HK' k Hk)) mask) as E.
    rewrite Em in E. split; [exact E|]. intros g.
    pose proof (joined_key_sum_teller ls K' tsum nsum Hnd Ht
                  (fun k Hk => Hlen k (HK' k Hk))
                  (fun k Hk => Hcompl k (HK' k Hk)) mask g) as Et.
    pose proof (joined_key_sum_noemer ls K' tsum nsum Hnd Hn
                  (fun k Hk => Hlen k (HK' k Hk))
                  (fun k Hk => Hcompl k (HK' k Hk)) mask g) as En.
    rewrite Em in Et, En. rewrite Et, En.
    apply Hfit.
    - apply NoDup_filter. apply NoDup_filter. exact HndK.
    - intros k Hk. apply filter_In in Hk. apply HK'. tauto. }
  split; [|split; [|split; reflexivity]].
  - unfold tab_summary.
    destruct (has_column by_ (columns (count_table ls K tsum nsum))) eqn:Hc;
      cbn [negb].
    + split; [|discriminate].
      destruct (tab_filters multiselect tab filter_cols
                  (count_table ls K tsum nsum)) as [df|e] eqn:Hf;
        [|discriminate].
      cbn [bind]. rewrite (proj1 (Hsum eq_refl df eq_refl)). discriminate.
    + split; reflexivity.
  - intros Hc df Hf. split; [|exact (proj2 (Hsum Hc df Hf))].
    unfold tab_summary. rewrite Hc, Hf. cbn [negb bind].
    rewrite (proj1 (Hsum Hc df Hf)). reflexivity.
Qed.

Lemma tab_summary_rows_witness :
  well_formed_call avg_teller avg_noemer sc_map_teller sc_map_noemer
    ["jaar"; "sector_mbo"]
  /\ no_float_keys avg_teller ["jaar"; "sector"]
  /\ no_float_keys avg_noemer ["jaar"; "sector"]
  /\ counts_fit avg_teller "n_ho" /\ counts_fit avg_noemer "n_mbo"
  /\ exists J,
       combine_call avg_teller avg_noemer sc_map_teller sc_map_noemer
         ["jaar"; "sector_mbo"] = Ok (Some J)
       /\ In "sector_mbo" mogelijke_join_labels
       /\ (tab_summary (fun _ => keep_default) "sector" "sector_mbo"
             ["jaar"; "regio_mbo"; "instelling_mbo"; "niveau_mbo"] J = Ok None
           <-> has_column "sector_mbo" (columns J) = false).
Proof.
  assert (Hwf : well_formed_call avg_teller avg_noemer sc_map_teller
                  sc_map_noemer ["jaar"; "sector_mbo"]).
  { apply scenario_well_formed; [reflexivity| |reflexivity|].
    - intros r [<-|[<-|[]]];
        [exists 2021%Z, "Zorg", 50%Z|exists 2021%Z, "Techniek", 30%Z];
        reflexivity.
    - intros r [<-|[<-|[]]];
        [exists 2021%Z, "Zorg", 200%Z|exists 2021%Z, "Techniek", 50%Z];
        reflexivity. }
  split; [exact Hwf|].
  split; [exact avg_no_float_teller|]. split; [exact avg_no_float_noemer|].
  split; [exact (avg_counts_fit_teller "n_ho" eq_refl)|].
  split; [exact (avg_counts_fit_noemer "n_mbo" eq_refl)|].
  assert (HJ : exists J,
            combine_call avg_teller avg_noemer sc_map_teller sc_map_noemer
              ["jaar"; "sector_mbo"] = Ok (Some J))
    by (eexists; vm_compute; reflexivity).
  destruct HJ as (J & HJ). exists J. split; [exact HJ|].
  assert (Hin : In "sector_mbo" mogelijke_join_labels)
    by (right; right; left; reflexivity).
  split; [exact Hin|].
  exact (proj1 (tab_summary_rows (fun _ => keep_default) "sector" "sector_mbo"
                  ["jaar"; "regio_mbo"; "instelling_mbo"; "niveau_mbo"]
                  avg_teller avg_noemer sc_map_teller sc_map_noemer
                  ["jaar"; "sector_mbo"] J Hwf HJ
                  avg_no_float_teller
                  avg_no_float_noemer
                  avg_counts_fit_teller
                  avg_counts_fit_noemer Hin)).
Defined.

Lemma resolve_join_cols_app cols m L R :
  resolve_join_cols cols m (L ++ R)
  = resolve_join_cols cols m L ++ resolve_join_cols cols m R.
Proof.
  induction L as [|l L IH]; [reflexivity|]. cbn [app resolve_join_cols].
  destruct (dict_get m l) as [k|]; [|exact IH].
  destruct (PyStr.truthy (Some k) && has_column k cols); [|exact IH].
  cbn [app]. rewrite IH. reflexivity.
Qed.

(** When the labels that name the key columns all resolve, they are the
    labels that resolve: the labels after them resolve to nothing. *)
Lemma resolve_prefix cols m L :
  Forall (fun l => exists c, dict_get m l = Some c /\ c <> "" /\ In c cols)
         (firstn (length (resolve_join_cols cols m L)) L) ->
  resolve_join_cols cols m (firstn (length (resolve_join_cols cols m L)) L)
  = resolve_join_cols cols m L.
Proof.
  set (n := length (resolve_join_cols cols m L)). intros H.
  pose proof (resolve_join_cols_length cols m L) as Hn. fold n in Hn.
  assert (Hl : length (resolve_join_cols cols m (firstn n L ++ skipn n L)) = n)
    by (rewrite firstn_skipn; reflexivity).
  rewrite resolve_join_cols_app, length_app, (resolve_all cols m _ H) in Hl.
  rewrite length_firstn in Hl.
  assert (E : resolve_join_cols cols m (skipn n L) = []).
  { destruct (resolve_join_cols cols m (skipn n L)); [reflexivity|].
    cbn [length] in Hl. lia. }
  rewrite <- (firstn_skipn n L) at 2.
  rewrite resolve_join_cols_app, E, app_nil_r. reflexivity.
Qed.

(** A well-formed call whose key columns are named by labels that resolve
    on both sides is the call on those labels alone. *)
Lemma well_formed_prefix T N mt mn L :
  well_formed_call T N mt mn L ->
  let ls := firstn (length (resolve_join_cols (columns T) mt L)) L in
  Forall (label_resolved T mt) ls -> Forall (label_resolved N mn) ls ->
  resolve_join_cols (columns T) mt ls = resolve_join_cols (columns T) mt L
  /\ resolve_join_cols (columns N) mn ls = resolve_join_cols (columns N) mn L
  /\ firstn (length (resolve_join_cols (columns T) mt L)) ls = ls
  /\ well_formed_call T N mt mn ls
  /\ combine_call T N mt mn ls = combine_call T N mt mn L.
Proof.
  intros Hwf ls Hrt Hrn.
  pose proof Hwf as ((HndL & Hvoc) & Hg & Hndt & Hndn & Hct & Hcn & Hkind
                     & Hmt & Hmn).
  pose proof Hg as (Ht & Hn & Hne & Hlen).
  assert (Ecs : resolve_join_cols (columns T) mt ls
                = resolve_join_cols (columns T) mt L)
    by (apply resolve_prefix; exact Hrt).
  assert (Eds : resolve_join_cols (columns N) mn ls
                = resolve_join_cols (columns N) mn L).
  { unfold ls in Hrn |- *. rewrite Hlen in Hrn |- *.
    apply resolve_prefix. exact Hrn. }
  assert (Hls : firstn (length (resolve_join_cols (columns T) mt L)) ls = ls).
  { apply firstn_all2. unfold ls. rewrite length_firstn. lia. }
  assert (Hwf' : well_formed_call T N mt mn ls).
  { unfold well_formed_call, guards_pass. rewrite Ecs, Eds, Hls.
    split.
    { split; [apply firstn_NoDup; exact HndL|].
      intros l Hl. apply Hvoc. eapply firstn_In. exact Hl. }
    split; [exact Hg|]. tauto. }
  split; [exact Ecs|]. split; [exact Eds|]. split; [exact Hls|].
  split; [exact Hwf'|].
  destruct (combine_call_counts T N mt mn L Hwf) as (ct & cn & Et & En & E).
  destruct (combine_call_counts T N mt mn ls Hwf')
    as (ct' & cn' & Et' & En' & E').
  rewrite Et in Et'. injection Et' as <-. rewrite En in En'. injection En' as <-.
  rewrite E, E', Ecs, Eds, Hls. reflexivity.
Qed.

(** Labels that resolve on neither side may follow the selection of a
    well-formed call. *)
Lemma well_formed_more_labels T N mt mn L R :
  well_formed_call T N mt mn L ->
  join_key_selection (L ++ R) ->
  resolve_join_cols (columns T) mt R = [] ->
  resolve_join_cols (columns N) mn R = [] ->
  well_formed_call T N mt mn (L ++ R).
Proof.
  intros Hwf Hsel Et En. unfold well_formed_call, guards_pass in *.
  rewrite !resolve_join_cols_app, Et, En, !app_nil_r.
  assert (Hf : firstn (length (resolve_join_cols (columns T) mt L)) (L ++ R)
               = firstn (length (resolve_join_cols (columns T) mt L)) L).
  { rewrite firstn_app.
    pose proof (resolve_join_cols_length (columns T) mt L) as Hl.
    replace (length (resolve_join_cols (columns T) mt L) - length L)%nat
      with 0%nat by lia.
    cbn [firstn]. apply app_nil_r. }
  rewrite Hf. tauto.
Qed.

Lemma rows_with_keys_plain df on keys :
  no_float_keys df on ->
  (forall k, In k keys -> forallb (fun v => negb (is_float v)) k = true) ->
  rows_with_keys df on keys = restrict_to_keys df on keys.
Proof.
  intros Hnf Hk. unfold rows_with_keys, restrict_to_keys. f_equal.
  apply filter_ext_in. intros r Hr.
  pose proof (key_of_plain df on r Hnf Hr) as Hp.
  induction keys as [|k keys IH]; [reflexivity|]. cbn [existsb].
  rewrite (same_key_plain _ k Hp (Hk k (or_introl eq_refl))).
  rewrite IH by (intros k' Hk'; apply Hk; right; exact Hk').
  reflexivity.
Qed.

(** Regrouping when every label of the selection resolves on both sides. *)
Lemma regrouping_all_resolved T N mt mn L mask :
  well_formed_call T N mt mn L ->
  Forall (label_resolved T mt) L -> Forall (label_resolved N mn) L ->
  select mask L <> [] ->
  let cs := resolve_join_cols (columns T) mt L in
  let ds := resolve_join_cols (columns N) mn L in
  let by_ := select mask L in
  no_float_keys T cs -> no_float_keys N ds ->
  exists J,
    combine_call T N mt mn L = Ok (Some J)
    /\ group_summary J by_
       = Ok (mkDataFrame (by_ ++ [teller_name; noemer_name; pct_name])
               (map (summary_row J by_) (table_keys J by_)))
    /\ forall g, In g (table_keys J by_) ->
         combine_call (rows_with_keys T cs (subgroup_keys J L by_ g))
                      (rows_with_keys N ds (subgroup_keys J L by_ g))
                      mt mn by_
         = Ok (Some (mkDataFrame
                       (by_ ++ [teller_name; noemer_name; pct_name])
                       [summary_row J by_ g])).
Proof.
  intros Hwf Hrt Hrn Hne cs ds by_ HnfT HnfN. subst by_.
  destruct (combine_call_counts T N mt mn L Hwf) as (ct & cn & Et & En & E).
  fold cs ds in E.
  assert (Hlc : length cs = length L) by (apply resolve_all; exact Hrt).
  assert (Hld : length ds = length L) by (apply resolve_all; exact Hrn).
  rewrite Hlc, firstn_all in E.
  pose proof Hwf as ((HndL & Hvoc) & _).
  destruct (selection_not_measure L Hvoc) as (Ht & Hn & Hp).
  set (K := shared_keys T N cs ds) in *.
  set (tsum := key_sum T cs ct) in *. set (nsum := key_sum N ds cn) in *.
  change (map (joined_count_row T N cs ds ct cn) K)
    with (map (count_row tsum nsum) K) in E.
  fold (count_table L K tsum nsum) in E.
  assert (HKl : forall k, In k K -> length k = length L).
  { intros k Hk. apply shared_keys_In in Hk. destruct Hk as [Hk _].
    apply table_keys_length in Hk. congruence. }
  assert (HKc : forall k, In k K -> forallb (fun v => negb (is_na v)) k = true).
  { intros k Hk. apply shared_keys_In in Hk. destruct Hk as [Hk _].
    eapply table_keys_complete. exact Hk. }
  exists (count_table L K tsum nsum). split; [exact E|].
  split; [apply joined_summary; assumption|].
  intros g Hg.
  rewrite (joined_subgroup_keys L K tsum nsum HndL HKl mask g).
  set (Kg := filter (fun k => key_eqb (select mask k) g) K).
  assert (HKg : forall k, In k Kg ->
            (In k (table_keys T cs) /\ select mask k = g)
            /\ (In k (table_keys N ds) /\ select mask k = g)).
  { intros k Hk. apply filter_In in Hk. destruct Hk as [Hk Eg].
    apply key_eqb_eq in Eg. apply shared_keys_In in Hk. tauto. }
  assert (HKgne : Kg <> [])
    by (apply (joined_group_nonempty L K tsum nsum HndL HKl HKc mask g Hg)).
  assert (HKgnd : NoDup Kg) by (apply NoDup_filter; apply shared_keys_NoDup).
  rewrite (rows_with_keys_plain T cs Kg HnfT
             (fun k Hk => table_keys_plain T cs k HnfT
                            (proj1 (proj1 (HKg k Hk))))).
  rewrite (rows_with_keys_plain N ds Kg HnfN
             (fun k Hk => table_keys_plain N ds k HnfN
                            (proj1 (proj2 (HKg k Hk))))).
  pose proof (well_formed_restricted T N mt mn L mask Kg Kg Hwf Hrt Hrn Hne) as Hwf'.
  fold cs ds in Hwf'.
  destruct (combine_call_counts _ _ _ _ _ Hwf') as (ct' & cn' & Et' & En' & E').
  rewrite Et in Et'. injection Et' as <-. rewrite En in En'. injection En' as <-.
  cbn [columns restrict_to_keys] in E'.
  rewrite (resolve_select (columns T) mt L mask Hrt) in E'.
  rewrite (resolve_select (columns N) mn L mask Hrn) in E'.
  fold cs ds in E'.
  assert (Hlsc : length (select mask cs) = length (select mask L))
    by (apply select_length; exact Hlc).
  rewrite Hlsc, firstn_all in E'.
  rewrite E'. do 3 f_equal.
  unfold shared_keys.
  rewrite (restricted_keys T cs mask Kg g HKgne (fun k Hk => proj1 (HKg k Hk))).
  rewrite (restricted_keys N ds mask Kg g HKgne (fun k Hk => proj2 (HKg k Hk))).
  cbn [filter existsb]. rewrite key_eqb_refl. cbn [orb map].
  unfold joined_count_row, summary_row.
  rewrite (restricted_sum T cs mask Kg g ct HKgnd (fun k Hk => proj1 (HKg k Hk))).
  rewrite (restricted_sum N ds mask Kg g cn HKgnd (fun k Hk => proj2 (HKg k Hk))).
  rewrite (joined_key_sum_teller L K tsum nsum HndL Ht HKl HKc mask g).
  rewrite (joined_key_sum_noemer L K tsum nsum HndL Hn HKl HKc mask g).
  reflexivity.
Qed.

(** C4, counterexample.  With [jaar] unmapped on both sides and
    [sector_mbo] mapped, combine returns a table whose one key column is
    called [jaar] and holds the sector.  Its group [Zorg] has 50 tellers on
    200 noemers, 25 percent.  Combine run again with the key column [jaar]
    of that table as label, on the rows of the group, returns nothing:
    [jaar] resolves on neither side, so the second run gives no percentage
    that could equal the one from the sums. *)
Lemma regrouping_fails_on_shifted_names :
  exists J,
    combine_call sc_teller sc_noemer skip_jaar_teller skip_jaar_noemer
      ["jaar"; "sector_mbo"] = Ok (Some J)
    /\ join_key_columns J = ["jaar"]
    /\ table_keys J ["jaar"] = [[VStr "Zorg"]]
    /\ group_summary J ["jaar"]
       = Ok (mkDataFrame ["jaar"; teller_name; noemer_name; pct_name]
               [[VStr "Zorg"; VInt 50; VInt 200;
                 VFloat (inject_Z 50 / inject_Z 200 * 100)]])
    /\ combine_call
         (rows_with_keys sc_teller ["sector"]
            (subgroup_keys J ["jaar"] ["jaar"] [VStr "Zorg"]))
         (rows_with_keys sc_noemer ["sector"]
            (subgroup_keys J ["jaar"] ["jaar"] [VStr "Zorg"]))
         skip_jaar_teller skip_jaar_noemer ["jaar"]
       = Ok None.
Proof.
  eexists. split; [vm_compute; reflexivity|].
  repeat split; vm_compute; reflexivity.
Qed.

(** C4, amended.  On a well-formed call whose key columns are named by
    labels that resolve on both sides (the labels that do not resolve come
    after them in the selection, so no name shifts), and for a non-empty
    sub-list [by_] of the key columns of the joined table [J]: the summary
    of [J] grouped by [by_] holds, for each group [g], the sums of teller
    and noemer over the rows of the group and the percentage recomputed
    from these sums; and running the join with labels [by_] on the two
    input tables restricted to the rows that carry, by value, a key
    combination of the group returns exactly that row.  This is stated
    where the model is the program: no key cell of the two tables is a
    fraction and the counts of the two measure columns fit, so that the
    sums of every group are 64-bit integers and no addition of [sum] wraps
    around.  The regrouped percentage is not the naive average of the
    percentages of the rows: for two sectors of 2021 with rates 25 and 60
    the regrouped rate is 32, the average 42.5. *)
Theorem regrouping_commutes :
  (forall T N mt mn L mask,
     well_formed_call T N mt mn L ->
     let cs := resolve_join_cols (columns T) mt L in
     let ds := resolve_join_cols (columns N) mn L in
     let ls := firstn (length cs) L in
     Forall (label_resolved T mt) ls -> Forall (label_resolved N mn) ls ->
     no_float_keys T cs -> no_float_keys N ds ->
     (forall ct, dict_get mt "aantal_ho_instromers" = Some ct ->
        counts_fit T ct) ->
     (forall cn, dict_get mn "aantal_mbo_gediplomeerden" = Some cn ->
        counts_fit N cn) ->
     select mask ls <> [] ->
     let by_ := select mask ls in
     exists J,
       combine_call T N mt mn L = Ok (Some J)
       /\ join_key_columns J = ls
       /\ group_summary J by_
          = Ok (mkDataFrame (by_ ++ [teller_name; noemer_name; pct_name])
                  (map (summary_row J by_) (table_keys J by_)))
       /\ forall g, In g (table_keys J by_) ->
            combine_call (rows_with_keys T cs (subgroup_keys J ls by_ g))
                         (rows_with_keys N ds (subgroup_keys J ls by_ g))
                         mt mn by_
            = Ok (Some (mkDataFrame
                          (by_ ++ [teller_name; noemer_name; pct_name])
                          [summary_row J by_ g]))
            /\ int64 (key_sum J by_ teller_name g)
            /\ int64 (key_sum J by_ noemer_name g))
  /\ exists J G p,
       combine_call avg_teller avg_noemer sc_map_teller sc_map_noemer
         ["jaar"; "sector_mbo"] = Ok (Some J)
       /\ group_summary J ["jaar"] = Ok G
       /\ rows G = [[VInt 2021; VInt 80; VInt 250; VFloat p]]
       /\ ~ (p == naive_average (map (cell_of J pct_name) (rows J)))%Q.
Proof.
  split.
  2: { do 3 eexists. split; [vm_compute; reflexivity|].
       split; [vm_compute; reflexivity|]. split; [reflexivity|].
       vm_compute. discriminate. }
  intros T N mt mn L mask Hwf cs ds ls Hrt Hrn HnfT HnfN HfT HfN Hne by_.
  destruct (well_formed_prefix T N mt mn L Hwf Hrt Hrn)
    as (Ecs & Eds & Hls & Hwf' & Ecall).
  fold cs ds ls in Ecs, Eds, Hls, Hwf', Ecall.
  pose proof (regrouping_all_resolved T N mt mn ls mask Hwf' Hrt Hrn Hne)
    as Hreg.
  cbv zeta in Hreg. rewrite Ecs, Eds in Hreg.
  destruct (Hreg HnfT HnfN) as (J & HJ & Hsum & Hrun).
  rewrite Ecall in HJ.
  exists J. split; [exact HJ|].
  destruct (joined_table_fit T N mt mn L J Hwf HJ HfT HfN)
    as (ls' & K & tsum & nsum & EJ & Els & Hnd & Hvoc & HndK & Hlen & Hcompl
        & Hfit).
  fold cs in Els. fold ls in Els. subst ls'.
  destruct (selection_not_measure ls Hvoc) as (Ht & Hn & Hp).
  split.
  { rewrite EJ. unfold count_table.
    apply join_key_columns_labels; assumption. }
  split; [exact Hsum|].
  intros g Hg. split; [exact (Hrun g Hg)|].
  rewrite EJ. unfold by_.
  rewrite (joined_key_sum_teller ls K tsum nsum Hnd Ht Hlen Hcompl mask g).
  rewrite (joined_key_sum_noemer ls K tsum nsum Hnd Hn Hlen Hcompl mask g).
  apply Hfit.
  - apply NoDup_filter. exact HndK.
  - intros k Hk. apply filter_In in Hk. tauto.
Qed.

Lemma avg_well_formed :
  well_formed_call avg_teller avg_noemer sc_map_teller sc_map_noemer
    ["jaar"; "sector_mbo"].
Proof.
  apply scenario_well_formed; [reflexivity| |reflexivity|].
  - intros r [<-|[<-|[]]];
      [exists 2021%Z, "Zorg", 50%Z|exists 2021%Z, "Techniek", 30%Z];
      reflexivity.
  - intros r [<-|[<-|[]]];
      [exists 2021%Z, "Zorg", 200%Z|exists 2021%Z, "Techniek", 50%Z];
      reflexivity.
Qed.

(** The default selection of the application on the two sectors of 2021:
    [niveau_mbo] is mapped on neither side. *)
Lemma avg_default_selection_well_formed :
  well_formed_call avg_teller avg_noemer sc_map_teller sc_map_noemer
    ["jaar"; "sector_mbo"; "niveau_mbo"].
Proof.
  apply (well_formed_more_labels avg_teller avg_noemer sc_map_teller
           sc_map_noemer ["jaar"; "sector_mbo"] ["niveau_mbo"]).
  - exact avg_well_formed.
  - split.
    + repeat constructor; cbn; intuition discriminate.
    + intros l Hl. cbn in Hl |- *. tauto.
  - reflexivity.
  - reflexivity.
Qed.

Lemma regrouping_commutes_witness :
  let L := ["jaar"; "sector_mbo"; "niveau_mbo"] in
  let ls := ["jaar"; "sector_mbo"] in
  let by_ := select [true; false] ls in
  well_formed_call avg_teller avg_noemer sc_map_teller sc_map_noemer L
  /\ Forall (label_resolved avg_teller sc_map_teller) ls
  /\ Forall (label_resolved avg_noemer sc_map_noemer) ls
  /\ no_float_keys avg_teller ["jaar"; "sector"]
  /\ no_float_keys avg_noemer ["jaar"; "sector"]
  /\ counts_fit avg_teller "n_ho" /\ counts_fit avg_noemer "n_mbo"
  /\ by_ <> []
  /\ exists J,
       combine_call avg_teller avg_noemer sc_map_teller sc_map_noemer L
       = Ok (Some J)
       /\ join_key_columns J = ls
       /\ group_summary J by_
          = Ok (mkDataFrame (by_ ++ [teller_name; noemer_name; pct_name])
                  (map (summary_row J by_) (table_keys J by_)))
       /\ forall g, In g (table_keys J by_) ->
            combine_call
              (rows_with_keys avg_teller ["jaar"; "sector"]
                 (subgroup_keys J ls by_ g))
              (rows_with_keys avg_noemer ["jaar"; "sector"]
                 (subgroup_keys J ls by_ g))
              sc_map_teller sc_map_noemer by_
            = Ok (Some (mkDataFrame
                          (by_ ++ [teller_name; noemer_name; pct_name])
                          [summary_row J by_ g]))
            /\ int64 (key_sum J by_ teller_name g)
            /\ int64 (key_sum J by_ noemer_name g).
Proof.
  intros L ls by_.
  assert (Ht : Forall (label_resolved avg_teller sc_map_teller) ls).
  { repeat constructor.
    - exists "jaar". repeat split; [discriminate|cbn; auto].
    - exists "sector". repeat split; [discriminate|cbn; auto]. }
  assert (Hn : Forall (label_resolved avg_noemer sc_map_noemer) ls).
  { repeat constructor.
    - exists "jaar". repeat split; [discriminate|cbn; auto].
    - exists "sector". repeat split; [discriminate|cbn; auto]. }
  assert (Hne : by_ <> []) by discriminate.
  split; [exact avg_default_selection_well_formed|].
  split; [exact Ht|]. split; [exact Hn|].
  split; [exact avg_no_float_teller|]. split; [exact avg_no_float_noemer|].
  split; [exact (avg_counts_fit_teller "n_ho" eq_refl)|].
  split; [exact (avg_counts_fit_noemer "n_mbo" eq_refl)|].
  split; [exact Hne|].
  exact (proj1 regrouping_commutes avg_teller avg_noemer sc_map_teller
           sc_map_noemer L [true; false] avg_default_selection_well_formed
           Ht Hn avg_no_float_teller avg_no_float_noemer
           avg_counts_fit_teller avg_counts_fit_noemer Hne).
Defined.

